(** * Exam-schedule scraper ([src/scraper.js]): a shallow embedding

    The module fetches the exam listing of a university division, parses the
    HTML fragment into departments and tests, keeps the result in a Redis
    cache and folds all tests into summary statistics.  This development
    embeds the six functions of [scraper.js] together with executable
    models of the platform operations they call (numbers, strings, JSON,
    the cheerio selectors) and proves the properties of the specification
    about them. *)

From Stdlib Require Import ZArith List String Ascii Bool Lia Permutation.
From Stdlib Require Import Floats.SpecFloat.
Import ListNotations.

Local Open Scope string_scope.
Local Open Scope list_scope.
Local Open Scope Z_scope.

(** ** Strings

    A JavaScript string is modelled by a Rocq [string] holding its UTF-8
    encoding.  Comparison with [===] is byte equality. *)

Module Str.

Definition chars (s : string) : list ascii := list_ascii_of_string s.
Definition of_chars (l : list ascii) : string := string_of_list_ascii l.

Definition byte (n : nat) : ascii := ascii_of_nat n.

(** The code points of WhiteSpace and LineTerminator of ECMAScript, each as
    its UTF-8 byte sequence: TAB, LF, VT, FF, CR, SP, U+00A0, U+1680,
    U+2000..U+200A, U+2028, U+2029, U+202F, U+205F, U+3000 and U+FEFF. *)
Definition white_space : list (list ascii) :=
  map (fun n => [byte n]) [9; 10; 11; 12; 13; 32]%nat
  ++ [[byte 194; byte 160]; [byte 225; byte 154; byte 128]]
  ++ map (fun n => [byte 226; byte 128; byte n])
       [128; 129; 130; 131; 132; 133; 134; 135; 136; 137; 138; 168; 169; 175]%nat
  ++ [[byte 226; byte 129; byte 159]; [byte 227; byte 128; byte 128];
      [byte 239; byte 187; byte 191]].

Fixpoint strip_prefix (p l : list ascii) : option (list ascii) :=
  match p, l with
  | [], _ => Some l
  | a :: p', b :: l' => if Ascii.eqb a b then strip_prefix p' l' else None
  | _ :: _, [] => None
  end.

Fixpoint strip_any (table : list (list ascii)) (l : list ascii)
  : option (list ascii) :=
  match table with
  | [] => None
  | p :: table' =>
      match strip_prefix p l with
      | Some r => Some r
      | None => strip_any table' l
      end
  end.

Fixpoint drop_while_in (fuel : nat) (table : list (list ascii))
  (l : list ascii) : list ascii :=
  match fuel with
  | O => l
  | S fuel' =>
      match strip_any table l with
      | Some r => drop_while_in fuel' table r
      | None => l
      end
  end.

Definition trim_start_chars (l : list ascii) : list ascii :=
  drop_while_in (List.length l) white_space l.

Definition trim_end_chars (l : list ascii) : list ascii :=
  rev (drop_while_in (List.length l) (map (@rev ascii) white_space) (rev l)).

(** [String.prototype.trim]. *)
Definition trim (s : string) : string :=
  of_chars (trim_end_chars (trim_start_chars (chars s))).

Fixpoint concat (l : list string) : string :=
  match l with
  | [] => ""
  | s :: l' => (s ++ concat l')%string
  end.

Definition is_digit (c : ascii) : bool :=
  let n := nat_of_ascii c in (48 <=? n)%nat && (n <=? 57)%nat.

Definition digit_value (c : ascii) : Z := Z.of_nat (nat_of_ascii c) - 48.

Definition digit_char (d : Z) : ascii := ascii_of_nat (Z.to_nat (d + 48)).

(** Decimal digits of a non-negative integer, most significant first. *)
Fixpoint digits_fuel (fuel : nat) (n : Z) (acc : list ascii) : list ascii :=
  match fuel with
  | O => acc
  | S fuel' =>
      let acc' := digit_char (n mod 10) :: acc in
      if n / 10 =? 0 then acc' else digits_fuel fuel' (n / 10) acc'
  end.

Definition digits (n : Z) : list ascii :=
  digits_fuel (S (Z.to_nat (Z.log2 n))) n [].

(** The decimal spelling of an integer. *)
Definition of_Z (n : Z) : string :=
  if n <? 0 then String "-" (of_chars (digits (- n))) else of_chars (digits n).

Definition zeros (n : Z) : list ascii := repeat "0"%char (Z.to_nat n).

(** The UTF-16 code units of a string, decoded from its UTF-8 bytes (a byte
    that starts no well-formed sequence is taken as a unit of its own). *)
Definition cont (c : ascii) : option Z :=
  let n := Z.of_nat (nat_of_ascii c) in
  if (128 <=? n) && (n <? 192) then Some (n - 128) else None.

Definition units_of_code_point (cp : Z) : list Z :=
  if cp <? 65536 then [cp]
  else [55296 + (cp - 65536) / 1024; 56320 + (cp - 65536) mod 1024].

Fixpoint utf16 (l : list ascii) : list Z :=
  match l with
  | [] => []
  | a :: l1 =>
      let n := Z.of_nat (nat_of_ascii a) in
      let single := n :: utf16 l1 in
      if n <? 192 then single
      else
        match l1 with
        | b :: l2 =>
            match cont b with
            | None => single
            | Some x =>
                if n <? 224 then ((n - 192) * 64 + x) :: utf16 l2
                else
                  match l2 with
                  | c :: l3 =>
                      match cont c with
                      | None => single
                      | Some y =>
                          if n <? 240
                          then ((n - 224) * 4096 + x * 64 + y) :: utf16 l3
                          else
                            match l3 with
                            | d :: l4 =>
                                match cont d with
                                | None => single
                                | Some z =>
                                    units_of_code_point
                                      ((n - 240) * 262144 + x * 4096 + y * 64 + z)
                                    ++ utf16 l4
                                end
                            | [] => single
                            end
                      end
                  | [] => single
                  end
            end
        | [] => single
        end
  end.

(** The UTF-8 bytes of a code point. *)
Definition utf8 (cp : Z) : list ascii :=
  let b n := ascii_of_nat (Z.to_nat n) in
  if cp <? 128 then [b cp]
  else if cp <? 2048 then [b (192 + cp / 64); b (128 + cp mod 64)]
  else if cp <? 65536 then
    [b (224 + cp / 4096); b (128 + (cp / 64) mod 64); b (128 + cp mod 64)]
  else
    [b (240 + cp / 262144); b (128 + (cp / 4096) mod 64);
     b (128 + (cp / 64) mod 64); b (128 + cp mod 64)].

(** Lexicographic order of code-unit sequences. *)
Fixpoint units_ltb (a b : list Z) : bool :=
  match a, b with
  | _, [] => false
  | [], _ :: _ => true
  | x :: a', y :: b' => (x <? y) || ((x =? y) && units_ltb a' b')
  end.

Definition ltb (s t : string) : bool := units_ltb (utf16 (chars s)) (utf16 (chars t)).

End Str.

(** ** Numbers

    A JavaScript number is an IEEE 754 binary64 value.  It is modelled by
    the Standard Library's [spec_float] with precision 53 and maximal
    exponent 1024; the arithmetic is the specification arithmetic of
    [SpecFloat] (round to nearest, ties to even). *)

Module Num.

Definition prec : Z := 53.
Definition emax : Z := 1024.

Definition number : Type := spec_float.

Definition nan : number := S754_nan.
Definition infinity (neg : bool) : number := S754_infinity neg.

Definition of_Z (z : Z) : number := binary_normalize prec emax z 0 false.

Definition add (x y : number) : number := SFadd prec emax x y.
Definition div (x y : number) : number := SFdiv prec emax x y.

(** [x < y] and [x > y]; both are false when an operand is NaN. *)
Definition lt (x y : number) : bool := SFltb x y.
Definition gt (x y : number) : bool := SFltb y x.
Definition le (x y : number) : bool := SFleb x y.

(** [x === y] on numbers: false on NaN, true on the two zeros. *)
Definition equal (x y : number) : bool := SFeqb x y.

Definition eqb (x y : number) : bool :=
  match x, y with
  | S754_zero a, S754_zero b => Bool.eqb a b
  | S754_infinity a, S754_infinity b => Bool.eqb a b
  | S754_nan, S754_nan => true
  | S754_finite a m e, S754_finite b m' e' =>
      Bool.eqb a b && Pos.eqb m m' && Z.eqb e e'
  | _, _ => false
  end.

Definition is_nan (x : number) : bool :=
  match x with S754_nan => true | _ => false end.

Definition is_finite (x : number) : bool :=
  match x with S754_zero _ | S754_finite _ _ _ => true | _ => false end.

Definition is_zero (x : number) : bool :=
  match x with S754_zero _ => true | _ => false end.

(** The number nearest to [d * 10^e10], for a decimal literal with digits
    [d >= 0]. *)
Definition of_decimal (neg : bool) (d : Z) (e10 : Z) : number :=
  match d with
  | Zpos p =>
      if 0 <=? e10
      then binary_normalize prec emax
             (cond_Zopp neg (Zpos p * 10 ^ e10)) 0 neg
      else div (S754_finite neg p 0)
               (S754_finite false (Z.to_pos (10 ^ (- e10))) 0)
  | _ => S754_zero neg
  end.

(** *** Exact value of a positive finite number as a fraction [p / q]. *)
Definition fraction (m : positive) (e : Z) : Z * Z :=
  if 0 <=? e then (Zpos m * 2 ^ e, 1) else (Zpos m, 2 ^ (- e)).

(** [p / q] compared with [s * 10^t]. *)
Definition compare_scaled (p q s t : Z) : comparison :=
  if 0 <=? t then p ?= q * s * 10 ^ t else p * 10 ^ (- t) ?= q * s.

(** [floor ((p / q) / 10^t)]. *)
Definition floor_scaled (p q t : Z) : Z :=
  if 0 <=? t then p / (q * 10 ^ t) else (p * 10 ^ (- t)) / q.

(** The [n] with [10^(n-1) <= p/q < 10^n], searched from an estimate. *)
Fixpoint up_to (fuel : nat) (p q n : Z) : Z :=
  match fuel with
  | O => n
  | S fuel' =>
      match compare_scaled p q 1 n with
      | Lt => n
      | _ => up_to fuel' p q (n + 1)
      end
  end.

Fixpoint down_to (fuel : nat) (p q n : Z) : Z :=
  match fuel with
  | O => n
  | S fuel' =>
      match compare_scaled p q 1 (n - 1) with
      | Lt => down_to fuel' p q (n - 1)
      | _ => n
      end
  end.

Definition magnitude10 (m : positive) (e : Z) : Z :=
  let '(p, q) := fraction m e in
  let est := ((Z.log2 (Zpos m) + 1 + e) * 1233) / 4096 in
  down_to 800 p q (up_to 800 p q est).

(** |p/q - a*10^t| compared with |p/q - b*10^t| for [a*10^t <= p/q <= b*10^t]. *)
Definition nearer (p q a b t : Z) : comparison :=
  if 0 <=? t
  then (p - q * a * 10 ^ t) ?= (q * b * 10 ^ t - p)
  else (p * 10 ^ (- t) - q * a) ?= (q * b - p * 10 ^ (- t)).

(** The shortest decimal [s * 10^t] that denotes the positive finite number
    [S754_finite false m e]: the digit count [k] grows from 1 until a
    candidate with [k] digits reads back as the number. *)
Fixpoint shortest_from (fuel : nat) (m : positive) (e : Z) (n k : Z)
  : Z * Z :=
  let '(p, q) := fraction m e in
  let t := n - k in
  let lo := floor_scaled p q t in
  let hi := lo + 1 in
  let x := S754_finite false m e in
  let ok_lo := eqb (of_decimal false lo t) x in
  let ok_hi := eqb (of_decimal false hi t) x in
  match fuel with
  | O => (lo, t)
  | S fuel' =>
      if ok_lo && ok_hi then
        match nearer p q lo hi t with
        | Gt => (hi, t)
        | Lt => (lo, t)
        | Eq => if Z.even lo then (lo, t) else (hi, t)
        end
      else if ok_lo then (lo, t)
      else if ok_hi then (hi, t)
      else shortest_from fuel' m e n (k + 1)
  end.

Fixpoint strip_zeros (fuel : nat) (s t : Z) : Z * Z :=
  match fuel with
  | O => (s, t)
  | S fuel' =>
      if (s mod 10 =? 0) && negb (s =? 0)
      then strip_zeros fuel' (s / 10) (t + 1)
      else (s, t)
  end.

(** The digits [s] (as characters) and the exponent [n] of
    Number::toString: the value is [0.s * 10^n]. *)
Definition shortest (m : positive) (e : Z) : list ascii * Z :=
  let '(s, t) := shortest_from 17 m e (magnitude10 m e) 1 in
  let '(s, t) := strip_zeros 400 s t in
  let ds := Str.digits s in
  (ds, t + Z.of_nat (List.length ds)).

(** Number::toString of a positive finite number. *)
Definition positive_to_string (m : positive) (e : Z) : string :=
  let '(ds, n) := shortest m e in
  let k := Z.of_nat (List.length ds) in
  if (k <=? n) && (n <=? 21) then
    Str.of_chars (ds ++ Str.zeros (n - k))
  else if (0 <? n) && (n <=? 21) then
    Str.of_chars (firstn (Z.to_nat n) ds ++ "."%char :: skipn (Z.to_nat n) ds)
  else if (-6 <? n) && (n <=? 0) then
    Str.of_chars ("0"%char :: "."%char :: Str.zeros (- n) ++ ds)
  else
    let sign := if n - 1 <? 0 then "e-" else "e+" in
    let ex := String.append sign (Str.of_Z (Z.abs (n - 1))) in
    match ds with
    | [d] => String d ex
    | d :: ds' => (String d (String "." (Str.of_chars ds')) ++ ex)%string
    | [] => ex
    end.

(** Number::toString (radix 10). *)
Definition to_string (x : number) : string :=
  match x with
  | S754_nan => "NaN"
  | S754_zero _ => "0"
  | S754_infinity false => "Infinity"
  | S754_infinity true => "-Infinity"
  | S754_finite false m e => positive_to_string m e
  | S754_finite true m e => String "-" (positive_to_string m e)
  end.

(** [Number.prototype.toFixed(f)] for [0 <= f <= 100]. *)
Definition toFixed (x : number) (f : Z) : string :=
  match x with
  | S754_nan => "NaN"
  | S754_infinity _ => to_string x
  | S754_zero _ =>
      Str.of_chars ("0"%char :: if f =? 0 then [] else "."%char :: Str.zeros f)
  | S754_finite neg m e =>
      let '(p, q) := fraction m e in
      match compare_scaled p q 1 21 with
      | Lt =>
          (* the integer n with n / 10^f nearest to p/q, the larger on a tie *)
          let n := (2 * p * 10 ^ f + q) / (2 * q) in
          let ds := Str.digits n in
          let k := Z.of_nat (List.length ds) in
          let ds := if k <=? f then Str.zeros (f + 1 - k) ++ ds else ds in
          let k := Z.of_nat (List.length ds) in
          let body :=
            if f =? 0 then ds
            else firstn (Z.to_nat (k - f)) ds
                 ++ "."%char :: skipn (Z.to_nat (k - f)) ds in
          Str.of_chars (if neg then "-"%char :: body else body)
      | _ => to_string x
      end
  end.

(** *** StringToNumber, the conversion applied by [Number(text)]. *)

Fixpoint scan_digits (l : list ascii) (acc cnt : Z) : Z * Z * list ascii :=
  match l with
  | c :: l' =>
      if Str.is_digit c
      then scan_digits l' (acc * 10 + Str.digit_value c) (cnt + 1)
      else (acc, cnt, l)
  | [] => (acc, cnt, [])
  end.

Definition radix_digit (radix : Z) (c : ascii) : option Z :=
  let n := Z.of_nat (nat_of_ascii c) in
  let d :=
    if (48 <=? n) && (n <=? 57) then n - 48
    else if (97 <=? n) && (n <=? 102) then n - 87
    else if (65 <=? n) && (n <=? 70) then n - 55
    else 16 in
  if d <? radix then Some d else None.

Fixpoint scan_radix (radix : Z) (l : list ascii) (acc : Z) : option Z :=
  match l with
  | [] => Some acc
  | c :: l' =>
      match radix_digit radix c with
      | Some d => scan_radix radix l' (acc * radix + d)
      | None => None
      end
  end.

Definition non_decimal (radix : Z) (l : list ascii) : number :=
  match l with
  | [] => nan
  | _ :: _ =>
      match scan_radix radix l 0 with
      | Some v => of_Z v
      | None => nan
      end
  end.

(** The ExponentPart, if any: its value and what follows it. *)
Definition scan_exponent (l : list ascii) : option (Z * list ascii) :=
  match l with
  | c :: l' =>
      if Ascii.eqb c "e" || Ascii.eqb c "E" then
        let '(neg, l2) :=
          match l' with
          | "+"%char :: r => (false, r)
          | "-"%char :: r => (true, r)
          | _ => (false, l')
          end in
        let '(v, cnt, r) := scan_digits l2 0 0 in
        if cnt =? 0 then None else Some (if neg then - v else v, r)
      else Some (0, l)
  | [] => Some (0, [])
  end.

(** StrUnsignedDecimalLiteral, with the sign already read. *)
Definition unsigned_decimal (neg : bool) (l : list ascii) : number :=
  if String.eqb (Str.of_chars l) "Infinity" then infinity neg else
  let '(ip, ic, r1) := scan_digits l 0 0 in
  let '(m, fc, r2) :=
    match r1 with
    | "."%char :: r => scan_digits r ip 0
    | _ => (ip, 0, r1)
    end in
  if ic + fc =? 0 then nan else
  match scan_exponent r2 with
  | Some (ex, []) => of_decimal neg m (ex - fc)
  | _ => nan
  end.

Definition of_string (s : string) : number :=
  match Str.chars (Str.trim s) with
  | [] => S754_zero false
  | "+"%char :: r => unsigned_decimal false r
  | "-"%char :: r => unsigned_decimal true r
  | "0"%char :: "x"%char :: r | "0"%char :: "X"%char :: r => non_decimal 16 r
  | "0"%char :: "o"%char :: r | "0"%char :: "O"%char :: r => non_decimal 8 r
  | "0"%char :: "b"%char :: r | "0"%char :: "B"%char :: r => non_decimal 2 r
  | l => unsigned_decimal false l
  end.

End Num.

Set Warnings "-register-all".

(** ** Values

    The values that flow through the module: primitives, arrays and plain
    objects (an object is its list of own properties, in property order).
    These are the values [JSON.parse] can produce, and [undefined]. *)

Inductive value : Type :=
| VUndefined
| VNull
| VBool (b : bool)
| VNumber (x : Num.number)
| VString (s : string)
| VArray (items : list value)
| VObject (props : list (string * value)).

(** Rejection reasons: an error object with its name and message. *)
Record exn : Type := Exn { exn_name : string; exn_message : string }.

(** The state of a settled promise; also the completion of an expression
    that may throw. *)
Inductive settled (A : Type) : Type :=
| Resolved (a : A)
| Rejected (e : exn).
Arguments Resolved {A} a.
Arguments Rejected {A} e.

Module Js.

Definition TypeError (msg : string) : exn := Exn "TypeError" msg.
Definition SyntaxError (msg : string) : exn := Exn "SyntaxError" msg.
Definition Error (msg : string) : exn := Exn "Error" msg.

(** ToBoolean. *)
Definition truthy (v : value) : bool :=
  match v with
  | VUndefined | VNull => false
  | VBool b => b
  | VNumber x => negb (Num.is_zero x || Num.is_nan x)
  | VString s => negb (String.eqb s "")
  | VArray _ | VObject _ => true
  end.

Fixpoint lookup (name : string) (props : list (string * value)) : option value :=
  match props with
  | [] => None
  | (k, v) :: props' => if String.eqb k name then Some v else lookup name props'
  end.

(** Property read [v.name], for a name that no prototype defines (the
    module reads [html], [departments], [tests] and [students]): a
    TypeError on [undefined] and [null], the own property of an object,
    [undefined] everywhere else. *)
Definition get (v : value) (name : string) : settled value :=
  match v with
  | VUndefined =>
      Rejected (TypeError ("Cannot read property '" ++ name ++ "' of undefined")%string)
  | VNull =>
      Rejected (TypeError ("Cannot read property '" ++ name ++ "' of null")%string)
  | VObject props =>
      Resolved (match lookup name props with Some x => x | None => VUndefined end)
  | _ => Resolved VUndefined
  end.

(** Sequencing of completions: the second step is taken when the first
    has not thrown. *)
Definition and_then {A B : Type} (r : settled A) (f : A -> settled B) : settled B :=
  match r with
  | Resolved a => f a
  | Rejected e => Rejected e
  end.

(** The primitive values. *)
Inductive primitive : Type :=
| PUndefined
| PNull
| PBool (b : bool)
| PNumber (x : Num.number)
| PString (s : string).

(** ToString and ToNumber of a primitive. *)
Definition string_of (p : primitive) : string :=
  match p with
  | PUndefined => "undefined"
  | PNull => "null"
  | PBool true => "true"
  | PBool false => "false"
  | PNumber x => Num.to_string x
  | PString s => s
  end.

Definition number_of (p : primitive) : Num.number :=
  match p with
  | PUndefined => Num.nan
  | PNull => S754_zero false
  | PBool true => Num.of_Z 1
  | PBool false => S754_zero false
  | PNumber x => x
  | PString s => Num.of_string s
  end.

Definition conversion_error : exn :=
  TypeError "Cannot convert object to primitive value".

(** ToString of a value.  The objects here are read by [JSON.parse] or
    built by the module, so no property of theirs holds a function.  A
    plain object is converted by the [toString] it inherits, which gives
    [[object Object]]; an own property [toString] hides that method and
    leaves none to call, which is a TypeError.  An array is joined with
    commas, which converts its items: [undefined] and [null] to the empty
    string, the others by ToString. *)
Fixpoint to_string (v : value) : settled string :=
  match v with
  | VUndefined => Resolved "undefined"
  | VNull => Resolved "null"
  | VBool true => Resolved "true"
  | VBool false => Resolved "false"
  | VNumber x => Resolved (Num.to_string x)
  | VString s => Resolved s
  | VArray items =>
      let item v :=
        match v with VUndefined | VNull => Resolved "" | _ => to_string v end in
      (fix join (l : list value) : settled string :=
         match l with
         | [] => Resolved ""
         | [x] => item x
         | x :: l' =>
             and_then (item x) (fun s =>
             and_then (join l') (fun t =>
             Resolved (s ++ "," ++ t)%string))
         end) items
  | VObject props =>
      match lookup "toString" props with
      | Some _ => Rejected conversion_error
      | None => Resolved "[object Object]"
      end
  end.

(** ToPrimitive: arrays and objects become their string, when they have
    one. *)
Definition to_primitive (v : value) : settled primitive :=
  match v with
  | VUndefined => Resolved PUndefined
  | VNull => Resolved PNull
  | VBool b => Resolved (PBool b)
  | VNumber x => Resolved (PNumber x)
  | VString s => Resolved (PString s)
  | VArray _ | VObject _ => and_then (to_string v) (fun s => Resolved (PString s))
  end.

(** ToNumber. *)
Definition to_number (v : value) : settled Num.number :=
  and_then (to_primitive v) (fun p => Resolved (number_of p)).

(** The operator [+] on primitives: concatenation when one is a string,
    the sum of the numbers otherwise. *)
Definition add (pa pb : primitive) : value :=
  match pa, pb with
  | PString s, _ => VString (s ++ string_of pb)%string
  | _, PString s => VString (string_of pa ++ s)%string
  | _, _ => VNumber (Num.add (number_of pa) (number_of pb))
  end.

(** The order of [<] on primitives: code-unit order on two strings,
    numeric order otherwise (false when an operand converts to NaN). *)
Definition before (pa pb : primitive) : bool :=
  match pa, pb with
  | PString s, PString t => Str.ltb s t
  | _, _ => Num.lt (number_of pa) (number_of pb)
  end.

(** The operators [+], [<], [>] and [/]: the operands are converted from
    left to right. *)
Definition plus (a b : value) : settled value :=
  and_then (to_primitive a) (fun pa =>
  and_then (to_primitive b) (fun pb =>
  Resolved (add pa pb))).

Definition less_than (a b : value) : settled bool :=
  and_then (to_primitive a) (fun pa =>
  and_then (to_primitive b) (fun pb =>
  Resolved (before pa pb))).

Definition greater_than (a b : value) : settled bool :=
  and_then (to_primitive a) (fun pa =>
  and_then (to_primitive b) (fun pb =>
  Resolved (before pb pa))).

Definition divide (a b : value) : settled Num.number :=
  and_then (to_number a) (fun x =>
  and_then (to_number b) (fun y =>
  Resolved (Num.div x y))).

End Js.

(** ** JSON

    [JSON.stringify] and [JSON.parse] on the values above. *)

Module JSON.

Definition dquote : ascii := Str.byte 34.
Definition backslash : ascii := Str.byte 92.

Definition hex_char (n : Z) : ascii :=
  if n <? 10 then Str.digit_char n else ascii_of_nat (Z.to_nat (n + 87)).

(** QuoteJSONString, one character at a time. *)
Definition quote_char (c : ascii) : list ascii :=
  let n := Z.of_nat (nat_of_ascii c) in
  if n =? 34 then [backslash; dquote]
  else if n =? 92 then [backslash; backslash]
  else if n =? 8 then [backslash; "b"%char]
  else if n =? 12 then [backslash; "f"%char]
  else if n =? 10 then [backslash; "n"%char]
  else if n =? 13 then [backslash; "r"%char]
  else if n =? 9 then [backslash; "t"%char]
  else if n <? 32 then
    [backslash; "u"%char; "0"%char; "0"%char; hex_char (n / 16); hex_char (n mod 16)]
  else [c].

(** Texts are built as lists of characters. *)
Definition quote (s : string) : list ascii :=
  dquote :: flat_map quote_char (Str.chars s) ++ [dquote].

Fixpoint join (l : list (list ascii)) : list ascii :=
  match l with
  | [] => []
  | [x] => x
  | x :: l' => x ++ ","%char :: join l'
  end.

(** SerializeJSONProperty: [None] stands for [undefined]. *)
Fixpoint serialize (v : value) : option (list ascii) :=
  match v with
  | VUndefined => None
  | VNull => Some (Str.chars "null")
  | VBool true => Some (Str.chars "true")
  | VBool false => Some (Str.chars "false")
  | VNumber x =>
      Some (Str.chars (if Num.is_finite x then Num.to_string x else "null"))
  | VString s => Some (quote s)
  | VArray items =>
      let elements :=
        (fix go (l : list value) : list (list ascii) :=
           match l with
           | [] => []
           | x :: l' =>
               match serialize x with
               | Some t => t
               | None => Str.chars "null"
               end :: go l'
           end) items in
      Some ("["%char :: join elements ++ ["]"%char])
  | VObject props =>
      let members :=
        (fix go (l : list (string * value)) : list (list ascii) :=
           match l with
           | [] => []
           | (k, x) :: l' =>
               match serialize x with
               | Some t => (quote k ++ ":"%char :: t) :: go l'
               | None => go l'
               end
           end) props in
      Some ("{"%char :: join members ++ ["}"%char])
  end.

(** [JSON.stringify(v)]. *)
Definition stringify (v : value) : option string :=
  match serialize v with
  | Some t => Some (Str.of_chars t)
  | None => None
  end.

(** *** Parsing *)

Fixpoint skip_ws (l : list ascii) : list ascii :=
  match l with
  | c :: l' =>
      let n := nat_of_ascii c in
      if (n =? 32)%nat || (n =? 9)%nat || (n =? 10)%nat || (n =? 13)%nat
      then skip_ws l' else l
  | [] => []
  end.

(** A character of a string literal: a byte of the text or the code unit
    of a [\u] escape. *)
Inductive unit16 : Type := Raw (c : ascii) | Unit (u : Z).

Definition hex4 (a b c d : ascii) : option Z :=
  match Num.radix_digit 16 a, Num.radix_digit 16 b,
        Num.radix_digit 16 c, Num.radix_digit 16 d with
  | Some x, Some y, Some z, Some w => Some (x * 4096 + y * 256 + z * 16 + w)
  | _, _, _, _ => None
  end.

Definition escape (c : ascii) : option ascii :=
  let n := nat_of_ascii c in
  if (n =? 34)%nat || (n =? 92)%nat || (n =? 47)%nat then Some c
  else if Ascii.eqb c "b" then Some (Str.byte 8)
  else if Ascii.eqb c "f" then Some (Str.byte 12)
  else if Ascii.eqb c "n" then Some (Str.byte 10)
  else if Ascii.eqb c "r" then Some (Str.byte 13)
  else if Ascii.eqb c "t" then Some (Str.byte 9)
  else None.

(** The characters up to the closing quote, and the text after it. *)
Fixpoint string_body (l : list ascii) : option (list unit16 * list ascii) :=
  match l with
  | [] => None
  | c :: l1 =>
      let n := nat_of_ascii c in
      if (n =? 34)%nat then Some ([], l1)
      else if (n <? 32)%nat then None
      else if (n =? 92)%nat then
        match l1 with
        | e :: l2 =>
            if Ascii.eqb e "u" then
              match l2 with
              | a :: b :: c' :: d :: l3 =>
                  match hex4 a b c' d, string_body l3 with
                  | Some u, Some (us, r) => Some (Unit u :: us, r)
                  | _, _ => None
                  end
              | _ => None
              end
            else
              match escape e, string_body l2 with
              | Some x, Some (us, r) => Some (Raw x :: us, r)
              | _, _ => None
              end
        | [] => None
        end
      else
        match string_body l1 with
        | Some (us, r) => Some (Raw c :: us, r)
        | None => None
        end
  end.

(** Escaped surrogate pairs are joined; every code unit is written in UTF-8. *)
Fixpoint encode (us : list unit16) : list ascii :=
  match us with
  | [] => []
  | Raw c :: us' => c :: encode us'
  | Unit hi :: us' =>
      match us' with
      | Unit lo :: us'' =>
          if (55296 <=? hi) && (hi <? 56320) && (56320 <=? lo) && (lo <? 57344)
          then Str.utf8 (65536 + (hi - 55296) * 1024 + (lo - 56320)) ++ encode us''
          else Str.utf8 hi ++ encode us'
      | _ => Str.utf8 hi ++ encode us'
      end
  end.

Definition string_literal (l : list ascii) : option (string * list ascii) :=
  match string_body l with
  | Some (us, r) => Some (Str.of_chars (encode us), r)
  | None => None
  end.

(** A JSON number: [-? int frac? exp?]; first what follows the sign. *)
Definition number_body (neg : bool) (l1 : list ascii)
  : option (Num.number * list ascii) :=
  let '(ip, ic, r1) := Num.scan_digits l1 0 0 in
  let leading_zero :=
    match l1 with "0"%char :: _ => 1 <? ic | _ => false end in
  if (ic =? 0) || leading_zero then None else
  let frac :=
    match r1 with
    | "."%char :: r =>
        let '(m, fc, r2) := Num.scan_digits r ip 0 in
        if fc =? 0 then None else Some (m, fc, r2)
    | _ => Some (ip, 0, r1)
    end in
  match frac with
  | None => None
  | Some (m, fc, r2) =>
      match Num.scan_exponent r2 with
      | Some (ex, r3) => Some (Num.of_decimal neg m (ex - fc), r3)
      | None => None
      end
  end.

Definition number_literal (l : list ascii) : option (Num.number * list ascii) :=
  match l with
  | "-"%char :: r => number_body true r
  | _ => number_body false l
  end.

(** An array index: a canonical decimal below [2^32 - 1]. *)
Definition array_index (k : string) : option Z :=
  match Num.scan_digits (Str.chars k) 0 0 with
  | (n, cnt, []) =>
      if (0 <? cnt) && String.eqb (Str.of_Z n) k && (n <? 4294967295)
      then Some n else None
  | _ => None
  end.

Fixpoint replace (k : string) (v : value) (props : list (string * value))
  : list (string * value) :=
  match props with
  | [] => []
  | (k', v') :: props' =>
      if String.eqb k' k then (k, v) :: props' else (k', v') :: replace k v props'
  end.

Fixpoint insert_index (i : Z) (k : string) (v : value)
  (props : list (string * value)) : list (string * value) :=
  match props with
  | [] => [(k, v)]
  | (k', v') :: props' =>
      match array_index k' with
      | Some j =>
          if j <? i then (k', v') :: insert_index i k v props'
          else (k, v) :: props
      | None => (k, v) :: props
      end
  end.

(** CreateDataProperty on a plain object: a known key keeps its place,
    array indices come first in ascending order, other keys are appended. *)
Definition define (k : string) (v : value) (props : list (string * value))
  : list (string * value) :=
  match Js.lookup k props with
  | Some _ => replace k v props
  | None =>
      match array_index k with
      | Some i => insert_index i k v props
      | None => props ++ [(k, v)]
      end
  end.

Definition starts (p : string) (l : list ascii) : option (list ascii) :=
  Str.strip_prefix (Str.chars p) l.

Fixpoint parse_value (fuel : nat) (l : list ascii) : option (value * list ascii) :=
  match fuel with
  | O => None
  | S fuel' =>
      match skip_ws l with
      | [] => None
      | c :: r =>
          if Ascii.eqb c "[" then
            match skip_ws r with
            | "]"%char :: r' => Some (VArray [], skip_ws r')
            | _ => parse_elements fuel' r []
            end
          else if Ascii.eqb c "{" then
            match skip_ws r with
            | "}"%char :: r' => Some (VObject [], skip_ws r')
            | _ => parse_members fuel' r []
            end
          else if Ascii.eqb c dquote then
            match string_literal r with
            | Some (s, r') => Some (VString s, skip_ws r')
            | None => None
            end
          else
            match starts "null" (c :: r), starts "true" (c :: r),
                  starts "false" (c :: r) with
            | Some r', _, _ => Some (VNull, skip_ws r')
            | _, Some r', _ => Some (VBool true, skip_ws r')
            | _, _, Some r' => Some (VBool false, skip_ws r')
            | None, None, None =>
                match number_literal (c :: r) with
                | Some (x, r') => Some (VNumber x, skip_ws r')
                | None => None
                end
            end
      end
  end

with parse_elements (fuel : nat) (l : list ascii) (acc : list value)
  : option (value * list ascii) :=
  match fuel with
  | O => None
  | S fuel' =>
      match parse_value fuel' l with
      | Some (v, r) =>
          match r with
          | ","%char :: r' => parse_elements fuel' r' (acc ++ [v])
          | "]"%char :: r' => Some (VArray (acc ++ [v]), skip_ws r')
          | _ => None
          end
      | None => None
      end
  end

with parse_members (fuel : nat) (l : list ascii) (acc : list (string * value))
  : option (value * list ascii) :=
  match fuel with
  | O => None
  | S fuel' =>
      match skip_ws l with
      | q :: l1 =>
          if Ascii.eqb q dquote then
            match string_literal l1 with
            | Some (k, l2) =>
                match skip_ws l2 with
                | ":"%char :: l3 =>
                    match parse_value fuel' l3 with
                    | Some (v, r) =>
                        match r with
                        | ","%char :: r' => parse_members fuel' r' (define k v acc)
                        | "}"%char :: r' => Some (VObject (define k v acc), skip_ws r')
                        | _ => None
                        end
                    | None => None
                    end
                | _ => None
                end
            | None => None
            end
          else None
      | [] => None
      end
  end.

(** [JSON.parse(text)]: the value, or [None] where a SyntaxError is thrown. *)
Definition parse (text : string) : option value :=
  let l := Str.chars text in
  match parse_value (S (List.length l)) l with
  | Some (v, []) => Some v
  | _ => None
  end.

(** *** Reading a value back

    The code unit that [string_body] reads for a character as [quote]
    writes it. *)
Definition unit_of (c : ascii) : unit16 :=
  let n := Z.of_nat (nat_of_ascii c) in
  if (n =? 34) || (n =? 92) || (n =? 8) || (n =? 12) || (n =? 10)
     || (n =? 13) || (n =? 9)
  then Raw c
  else if n <? 32 then Unit n else Raw c.

(** The characters that end a value inside an array or an object. *)
Definition delimiter (c : ascii) : Prop :=
  c = ","%char \/ c = "]"%char \/ c = "}"%char.

(** The value [v] is read from the characters [t] whenever the fuel is at
    least [bound] and a delimiter follows. *)
Definition reads (bound : nat) (t : list ascii) (v : value) : Prop :=
  forall (fuel : nat) (c : ascii) (rest : list ascii),
    (bound <= fuel)%nat ->
    delimiter c ->
    parse_value fuel (t ++ c :: rest) = Some (v, c :: rest).

(** A spelling that starts with a character which is neither white space
    nor the closing bracket. *)
Definition starts_a_value (t : list ascii) : Prop :=
  exists c t', t = c :: t' /\ skip_ws (c :: t') = c :: t' /\ c <> "]"%char.

(** What may follow a run of digits. *)
Definition ends_digits (m : list ascii) : Prop :=
  match m with
  | [] => True
  | d :: _ => Str.is_digit d = false
  end.

(** The spelling of a member and of an array. *)
Definition member (k : string) (t : list ascii) : list ascii :=
  quote k ++ ":"%char :: t.

Definition array_text (items : list (list ascii)) : list ascii :=
  "["%char :: join items ++ ["]"%char].

Definition number_text (x : Num.number) : list ascii :=
  Str.chars (if Num.is_finite x then Num.to_string x else "null").

End JSON.

(** ** The document tree and the cheerio selections

    [cheerio.load] turns markup into a tree of nodes.  The selections the
    module makes on it are modelled on that tree: a selector is a chain of
    compound selectors (a tag name, possibly with [:nth-child(k)]) joined
    by the descendant combinator. *)

Inductive node : Type :=
| Text (data : string)
| Comment (data : string)
| Element (tag : string) (children : list node).

Module Cheerio.

(** An element as a selection holds it: its tag, its children and the
    nodes that follow it under the same parent. *)
Record element : Type := El {
  tag : string;
  children : list node;
  following : list node
}.

Record compound : Type := Sel {
  sel_tag : string;
  sel_nth_child : option nat
}.

Definition h3 : list compound := [Sel "h3" None].
Definition table : compound := Sel "table" None.
Definition tbody_tr : list compound := [Sel "tbody" None; Sel "tr" None].
Definition td_nth_child (k : nat) : list compound := [Sel "td" (Some k)].

(** [index] is the position of the element among the element children of
    its parent, from 1. *)
Definition matches (c : compound) (index : nat) (name : string) : bool :=
  String.eqb name (sel_tag c)
  && match sel_nth_child c with
     | Some k => Nat.eqb index k
     | None => true
     end.

Definition is_element (n : node) : bool :=
  match n with Element _ _ => true | _ => false end.

(** The elements below a list of sibling nodes (these included) that match
    the selector chain [rest], in document order; the leading compounds of
    the chain are consumed by the ancestors met on the way down. *)
Fixpoint select (rest : list compound) (index : nat) (n : node)
  (after : list node) {struct n} : list element :=
  match n with
  | Element name kids =>
      let below (rest' : list compound) :=
        (fix forest (i : nat) (l : list node) {struct l} : list element :=
           match l with
           | [] => []
           | x :: l' =>
               select rest' i x l'
               ++ forest (if is_element x then S i else i) l'
           end) 1%nat kids in
      match rest with
      | [] => []
      | [c] =>
          (if matches c index name then [El name kids after] else [])
          ++ below [c]
      | c :: rest' =>
          below (if matches c index name then rest' else rest)
      end
  | _ => []
  end.

Fixpoint select_forest (rest : list compound) (i : nat) (l : list node)
  : list element :=
  match l with
  | [] => []
  | x :: l' =>
      select rest i x l' ++ select_forest rest (if is_element x then S i else i) l'
  end.

(** [$(selector)] on a document and [.find(selector)] on an element. *)
Definition query (selector : list compound) (doc : list node) : list element :=
  select_forest selector 1 doc.

Definition find (selector : list compound) (els : list element) : list element :=
  flat_map (fun el => select_forest selector 1 (children el)) els.

(** [.next(selector)]: the nearest following sibling that is an element,
    kept when it matches the selector. *)
Fixpoint next_element (l : list node) : option element :=
  match l with
  | [] => None
  | Element name kids :: l' => Some (El name kids l')
  | _ :: l' => next_element l'
  end.

Definition next (c : compound) (el : element) : list element :=
  match next_element (following el) with
  | Some e => if String.eqb (tag e) (sel_tag c) then [e] else []
  | None => []
  end.

(** The elements whose contents [.text()] leaves out. *)
Definition is_raw (name : string) : bool :=
  String.eqb name "script" || String.eqb name "style".

(** [.text()]: the text nodes below the nodes, in order, but for those
    inside a [script] or a [style] element. *)
Fixpoint text_of (n : node) : string :=
  match n with
  | Text data => data
  | Comment _ => ""
  | Element name kids =>
      if is_raw name then ""
      else
        (fix go (l : list node) : string :=
           match l with
           | [] => ""
           | x :: l' => (text_of x ++ go l')%string
           end) kids
  end.


Definition text (els : list element) : string :=
  Str.concat (map (fun el => text_of (Element (tag el) (children el))) els).

End Cheerio.

(** ** The data model *)

Module Division.
Record t : Type := Make { name : string; id : Num.number; slug : string }.
End Division.

Module Test.
Record t : Type := Make {
  course : string;
  name : string;
  type : string;
  students : Num.number;
  date : string
}.

Definition to_value (x : t) : value :=
  VObject [("course", VString (course x)); ("name", VString (name x));
           ("type", VString (type x)); ("students", VNumber (students x));
           ("date", VString (date x))].
End Test.

Module Department.
Record t : Type := Make { heading : string; tests : list Test.t }.

Definition to_value (d : t) : value :=
  VObject [("heading", VString (heading d));
           ("tests", VArray (map Test.to_value (tests d)))].
End Department.

Module DivisionResult.
Record t : Type := Make { heading : string; departments : list Department.t }.

Definition to_value (r : t) : value :=
  VObject [("heading", VString (heading r));
           ("departments", VArray (map Department.to_value (departments r)))].

(** Every test of the result, in document order. *)
Definition all_tests (r : t) : list Test.t :=
  flat_map Department.tests (departments r).
End DivisionResult.

Module Stats.
Record t : Type := Make {
  min : value;
  max : value;
  numTests : Num.number;
  numStudents : value;
  averageStudents : string
}.
End Stats.

(** ** Asynchronous programs

    The module reaches the world through the HTTP transport, the Redis
    client and the console.  An asynchronous function is a tree whose
    nodes are these calls; each call hands its continuation the way the
    call settled. *)

Record response : Type := Response {
  status : Z;
  json : settled value   (* how [result.json()] settles *)
}.

Inductive prog (A : Type) : Type :=
| Ret (a : A)
| Throw (e : exn)
| Fetch (url : string) (k : settled response -> prog A)
| RedisGet (key : string) (k : settled (option string) -> prog A)
| RedisSet (key : string) (text ttl : option string) (k : settled unit -> prog A)
| RedisKeys (pattern : string) (k : settled (list string) -> prog A)
| RedisDel (key : string) (k : settled unit -> prog A)
| Warn (message : string) (error : option exn) (k : unit -> prog A).
Arguments Ret {A} a.
Arguments Throw {A} e.
Arguments Fetch {A} url k.
Arguments RedisGet {A} key k.
Arguments RedisSet {A} key text ttl k.
Arguments RedisKeys {A} pattern k.
Arguments RedisDel {A} key k.
Arguments Warn {A} message error k.

Fixpoint bind {A B : Type} (p : prog A) (f : A -> prog B) : prog B :=
  match p with
  | Ret a => f a
  | Throw e => Throw e
  | Fetch url k => Fetch url (fun r => bind (k r) f)
  | RedisGet key k => RedisGet key (fun r => bind (k r) f)
  | RedisSet key text ttl k => RedisSet key text ttl (fun r => bind (k r) f)
  | RedisKeys pattern k => RedisKeys pattern (fun r => bind (k r) f)
  | RedisDel key k => RedisDel key (fun r => bind (k r) f)
  | Warn message error k => Warn message error (fun r => bind (k r) f)
  end.

(** [try { p } catch (error) { handler error }]. *)
Fixpoint try_catch {A : Type} (p : prog A) (handler : exn -> prog A) : prog A :=
  match p with
  | Ret a => Ret a
  | Throw e => handler e
  | Fetch url k => Fetch url (fun r => try_catch (k r) handler)
  | RedisGet key k => RedisGet key (fun r => try_catch (k r) handler)
  | RedisSet key text ttl k => RedisSet key text ttl (fun r => try_catch (k r) handler)
  | RedisKeys pattern k => RedisKeys pattern (fun r => try_catch (k r) handler)
  | RedisDel key k => RedisDel key (fun r => try_catch (k r) handler)
  | Warn message error k => Warn message error (fun r => try_catch (k r) handler)
  end.

Declare Scope prog_scope.
Delimit Scope prog_scope with prog.
Notation "x <- p ;; q" := (bind p (fun x => q))
  (at level 100, p at next level, right associativity) : prog_scope.
Notation "p ;; q" := (bind p (fun _ => q))
  (at level 100, right associativity) : prog_scope.

(** [await] of a settled promise, and of a completion that may throw. *)
Definition await {A : Type} (r : settled A) : prog A :=
  match r with
  | Resolved a => Ret a
  | Rejected e => Throw e
  end.

Definition fetch (url : string) : prog response := Fetch url await.
Definition asyncGet (key : string) : prog (option string) := RedisGet key await.
Definition asyncSet (key : string) (text ttl : option string) : prog unit :=
  RedisSet key text ttl await.
Definition asyncKeys (pattern : string) : prog (list string) :=
  RedisKeys pattern await.
Definition console_warn (message : string) (error : option exn) : prog unit :=
  Warn message error Ret.

(** [Promise.all] over promises that have all been started: it resolves
    with the values, or rejects with the first rejection. *)
Fixpoint first_rejection {A : Type} (rs : list (settled A)) : settled (list A) :=
  match rs with
  | [] => Resolved []
  | Rejected e :: _ => Rejected e
  | Resolved a :: rs' =>
      match first_rejection rs' with
      | Resolved l => Resolved (a :: l)
      | Rejected e => Rejected e
      end
  end.

(** [keys.map(key => asyncDel(key))]: every DEL is sent before the first
    reply is awaited. *)
Fixpoint asyncDel_each {A : Type} (keys : list string)
  (k : list (settled unit) -> prog A) : prog A :=
  match keys with
  | [] => k []
  | key :: keys' =>
      RedisDel key (fun r => asyncDel_each keys' (fun rs => k (r :: rs)))
  end.

(** The way a program settles, kept as a value. *)
Definition settle {A : Type} (p : prog A) : prog (settled A) :=
  try_catch (bind p (fun a => Ret (Resolved a))) (fun e => Ret (Rejected e)).

(** *** Running a program against the world *)

Inductive call : Type :=
| CallFetch (url : string)
| CallGet (key : string)
| CallSet (key : string) (text ttl : option string)
| CallKeys (pattern : string)
| CallDel (key : string)
| CallWarn (message : string).

Record world (W : Type) : Type := World {
  on_fetch : string -> W -> W * settled response;
  on_get : string -> W -> W * settled (option string);
  on_set : string -> option string -> option string -> W -> W * settled unit;
  on_keys : string -> W -> W * settled (list string);
  on_del : string -> W -> W * settled unit
}.
Arguments World {W}.
Arguments on_fetch {W}.
Arguments on_get {W}.
Arguments on_set {W}.
Arguments on_keys {W}.
Arguments on_del {W}.

(** The final state of the world, the calls made in order, and the way
    the program settled. *)
Fixpoint run {W A : Type} (h : world W) (p : prog A) (w : W)
  : W * list call * settled A :=
  match p with
  | Ret a => (w, [], Resolved a)
  | Throw e => (w, [], Rejected e)
  | Fetch url k =>
      let '(w1, r) := on_fetch h url w in
      let '(w2, calls, out) := run h (k r) w1 in
      (w2, CallFetch url :: calls, out)
  | RedisGet key k =>
      let '(w1, r) := on_get h key w in
      let '(w2, calls, out) := run h (k r) w1 in
      (w2, CallGet key :: calls, out)
  | RedisSet key text ttl k =>
      let '(w1, r) := on_set h key text ttl w in
      let '(w2, calls, out) := run h (k r) w1 in
      (w2, CallSet key text ttl :: calls, out)
  | RedisKeys pattern k =>
      let '(w1, r) := on_keys h pattern w in
      let '(w2, calls, out) := run h (k r) w1 in
      (w2, CallKeys pattern :: calls, out)
  | RedisDel key k =>
      let '(w1, r) := on_del h key w in
      let '(w2, calls, out) := run h (k r) w1 in
      (w2, CallDel key :: calls, out)
  | Warn message error k =>
      let '(w2, calls, out) := run h (k tt) w in
      (w2, CallWarn message :: calls, out)
  end.

Definition is_fetch (c : call) : bool :=
  match c with CallFetch _ => true | _ => false end.

(** The number of upstream requests among the calls. *)
Definition requests (calls : list call) : nat :=
  List.length (filter is_fetch calls).

(** ** The module [scraper.js] *)

Local Open Scope string_scope.
Local Open Scope prog_scope.

(** [schools]: the list of divisions. *)
Definition schools : list Division.t :=
  [ Division.Make "Félagsvísindasvið" (Num.of_Z 1) "felagsvisindasvid";
    Division.Make "Heilbrigðisvísindasvið" (Num.of_Z 2) "heilbrigdisvisindasvid";
    Division.Make "Hugvísindasvið" (Num.of_Z 3) "hugvisindasvid";
    Division.Make "Menntavísindasvið" (Num.of_Z 4) "menntavisindasvid";
    Division.Make "Verkfræði- og náttúruvísindasvið" (Num.of_Z 5)
      "verkfraedi-og-natturuvisindasvid" ].

Section Scraper.

(** The process environment, read once when the module is loaded; a
    variable that is not set is [None]. *)
Variable REDIS_EXPIRE : option string.
Variable REDIS_PREFIX : option string.

(** The HTML parser of the library [cheerio], which is no part of the
    module: what it makes of a value other than [undefined] and [null],
    the nodes of the document or the error it throws. *)
Variable cheerio_parse : value -> settled (list node).

Definition redisPrefix : string :=
  match REDIS_PREFIX with
  | Some prefix => prefix
  | None => "proftafla"
  end.

(** [JSON.parse(result)] on the reply of GET: the reply [null] of a
    missing key is read as the text [null]. *)
Definition JSON_parse (result : option string) : prog value :=
  let text := match result with Some t => t | None => "null" end in
  match JSON.parse text with
  | Some v => Ret v
  | None => Throw (Js.SyntaxError "Unexpected token in JSON")
  end.

Definition getFromCache (key : string) : prog value :=
  try_catch
    (result <- asyncGet key ;;
     JSON_parse result)
    (fun error =>
       console_warn ("Unable to get key " ++ key ++ " from cache") (Some error) ;;
       Ret VNull).

Definition cache (key : string) (value : value) : prog unit :=
  let ttl := REDIS_EXPIRE in
  try_catch
    (asyncSet key (JSON.stringify value) ttl)
    (fun error =>
       console_warn ("Unable to set cache for key " ++ key) (Some error)).

(** One row of a table body as a test. *)
Definition test_of_row (row : Cheerio.element) : Test.t :=
  let cell (k : nat) :=
    Str.trim (Cheerio.text (Cheerio.find (Cheerio.td_nth_child k) [row])) in
  let course := cell 1%nat in
  let name := cell 2%nat in
  let type := cell 3%nat in
  let students := cell 4%nat in
  let date := cell 5%nat in
  Test.Make course name type (Num.of_string students) date.

Definition department_of (el : Cheerio.element) : Department.t :=
  let departmentHeading := Str.trim (Cheerio.text [el]) in
  let rows := Cheerio.find Cheerio.tbody_tr (Cheerio.next Cheerio.table el) in
  let tests := map test_of_row rows in
  Department.Make departmentHeading tests.

(** [cheerio.load(data)]: a TypeError on [undefined] and [null], which
    are no nodes to set up a document from; on every other value the
    parser decides. *)
Definition cheerio_load (data : value) : settled (list node) :=
  match data with
  | VUndefined => Rejected (Js.TypeError "Cannot read property 'parent' of undefined")
  | VNull => Rejected (Js.TypeError "Cannot read property 'parent' of null")
  | _ => cheerio_parse data
  end.

(** The synchronous part of [fetchAndParse], from [json.html] on. *)
Definition parse_departments (data : value) : settled (list Department.t) :=
  Js.and_then (cheerio_load data) (fun doc =>
    let departmentHeadings := Cheerio.query Cheerio.h3 doc in
    Resolved (map department_of departmentHeadings)).

(** The template literal of the request URL. *)
Definition url_of (id : Num.number) : string :=
  "https://ugla.hi.is/Proftafla/View/ajax.php?sid=2027&a=getProfSvids&proftaflaID=37&svidID="
  ++ Num.to_string id ++ "&notaVinnuToflu=0".

Definition fetchAndParse (id : Num.number) (heading : string)
  : prog DivisionResult.t :=
  let url := url_of id in
  result <- fetch url ;;
  if negb (status result =? 200)%Z then
    Throw (Js.Error "Non 200 status from url")
  else
    json <- await (json result) ;;
    data <- await (Js.get json "html") ;;
    departments <- await (parse_departments data) ;;
    Ret (DivisionResult.Make heading departments).

(** The cache key of a slug. *)
Definition key_of (slug : string) : string := redisPrefix ++ ":" ++ slug.

Definition getTests (slug : string) : prog value :=
  match List.find (fun i => String.eqb (Division.slug i) slug) schools with
  | None => Ret VNull
  | Some item =>
      let key := key_of slug in
      cached <- getFromCache key ;;
      if Js.truthy cached then Ret cached
      else
        data <- fetchAndParse (Division.id item) (Division.name item) ;;
        cache key (DivisionResult.to_value data) ;;
        Ret (DivisionResult.to_value data)
  end.

Definition clearCache : prog bool :=
  try_catch
    (keys <- asyncKeys (redisPrefix ++ ":*") ;;
     asyncDel_each keys (fun replies => await (first_rejection replies)) ;;
     Ret true)
    (fun error =>
       console_warn "Unable to clear cache" None ;;
       Ret false).

(** *** [getStats] *)

(** The four counters of the fold. *)
Record counters : Type := Counters {
  c_min : value;
  c_max : value;
  c_numTests : Num.number;
  c_numStudents : value
}.

Definition initial : counters :=
  Counters (VNumber (Num.of_Z 999)) (VNumber (Num.of_Z 0))
           (Num.of_Z 0) (VNumber (Num.of_Z 0)).

(** [v.forEach(f)]: only an array has the method. *)
Fixpoint each {S : Type} (f : value -> S -> settled S) (items : list value)
  (s : S) : settled S :=
  match items with
  | [] => Resolved s
  | x :: items' =>
      match f x s with
      | Resolved s' => each f items' s'
      | Rejected e => Rejected e
      end
  end.

Definition forEach {S : Type} (v : value) (f : value -> S -> settled S)
  (s : S) : settled S :=
  match v with
  | VArray items => each f items s
  | VUndefined => Rejected (Js.TypeError "Cannot read property 'forEach' of undefined")
  | VNull => Rejected (Js.TypeError "Cannot read property 'forEach' of null")
  | _ => Rejected (Js.TypeError "forEach is not a function")
  end.

Definition get_then {S : Type} (v : value) (name : string)
  (f : value -> settled S) : settled S :=
  match Js.get v name with
  | Resolved x => f x
  | Rejected e => Rejected e
  end.

(** The body of the innermost callback. *)
Definition count_test (test : value) (c : counters) : settled counters :=
  get_then test "students" (fun students =>
    let numTests := Num.add (c_numTests c) (Num.of_Z 1) in
    Js.and_then (Js.plus (c_numStudents c) students) (fun numStudents =>
    Js.and_then (Js.greater_than students (c_max c)) (fun above =>
    let max := if above then students else c_max c in
    Js.and_then (Js.less_than students (c_min c)) (fun below =>
    let min := if below then students else c_min c in
    Resolved (Counters min max numTests numStudents))))).

Definition count_department (department : value) (c : counters)
  : settled counters :=
  get_then department "tests" (fun tests => forEach tests count_test c).

Definition count_school (school : value) (c : counters) : settled counters :=
  get_then school "departments" (fun departments =>
    forEach departments count_department c).

(** [getStats] from the array [all] on: the fold and the average. *)
Definition stats_of (all : list value) : settled Stats.t :=
  Js.and_then (each count_school all initial) (fun c =>
    Js.and_then (Js.divide (c_numStudents c) (VNumber (c_numTests c))) (fun average =>
    let averageStudents := Num.toFixed average 2%Z in
    Resolved (Stats.Make (c_min c) (c_max c) (c_numTests c)
                         (c_numStudents c) averageStudents))).

(** [schools.map(d => getTests(d.slug))] under [Promise.all].  The lookups
    are run one after the other in the order of [schools], each to its
    end; the promise of the whole rejects with the first rejection. *)
Fixpoint settle_each {A : Type} (ps : list (prog A)) : prog (list (settled A)) :=
  match ps with
  | [] => Ret []
  | p :: ps' =>
      r <- settle p ;;
      rs <- settle_each ps' ;;
      Ret (r :: rs)
  end.

Definition lookups : prog (list value) :=
  rs <- settle_each (map (fun d => getTests (Division.slug d)) schools) ;;
  await (first_rejection rs).

Definition getStats : prog Stats.t :=
  all <- lookups ;;
  await (stats_of all).

End Scraper.

(** ** An in-memory world

    A Redis store with expiry times and a clock, and an upstream that
    answers every URL in a fixed way.  SET with EX needs a positive
    integer number of seconds; GET and KEYS see the entries that have not
    expired. *)

Module Mem.

Record entry : Type := Entry { text : string; expires : Z }.

Record state : Type := State {
  entries : list (string * entry);
  clock : Z
}.

Definition live (st : state) (e : entry) : bool := (clock st <? expires e)%Z.

Fixpoint lookup (key : string) (l : list (string * entry)) : option entry :=
  match l with
  | [] => None
  | (k, e) :: l' => if String.eqb k key then Some e else lookup key l'
  end.

Definition remove (key : string) (l : list (string * entry))
  : list (string * entry) :=
  filter (fun ke => negb (String.eqb (fst ke) key)) l.

(** The seconds of [EX]: a canonical positive decimal. *)
Definition seconds (ttl : option string) : option Z :=
  match ttl with
  | None => None
  | Some t =>
      match Num.scan_digits (Str.chars t) 0 0 with
      | (n, _, []) =>
          if String.eqb (Str.of_Z n) t && (0 <? n)%Z then Some n else None
      | _ => None
      end
  end.

(** Glob patterns of KEYS: [*], [?], a class in brackets, and the
    backslash that takes the next character literally. *)
Fixpoint class_matches (l : list ascii) (c : ascii) (found : bool)
  : option (bool * list ascii) :=
  match l with
  | [] => None
  | x :: l1 =>
      if Ascii.eqb x "]" then Some (found, l1)
      else if Ascii.eqb x JSON.backslash then
        match l1 with
        | y :: l2 => class_matches l2 c (found || Ascii.eqb y c)
        | [] => None
        end
      else
        match l1 with
        | "-"%char :: hi :: l3 =>
            if Ascii.eqb hi "]" then class_matches l1 c (found || Ascii.eqb x c)
            else
              let a := nat_of_ascii x in
              let b := nat_of_ascii hi in
              let n := nat_of_ascii c in
              class_matches l3 c
                (found || ((Nat.min a b <=? n)%nat && (n <=? Nat.max a b)%nat))
        | _ => class_matches l1 c (found || Ascii.eqb x c)
        end
  end.

Fixpoint glob (fuel : nat) (p s : list ascii) : bool :=
  match fuel with
  | O => false
  | S fuel' =>
      match p with
      | [] => match s with [] => true | _ => false end
      | x :: p1 =>
          if Ascii.eqb x "*" then
            glob fuel' p1 s
            || match s with
               | _ :: s1 => glob fuel' p s1
               | [] => false
               end
          else
            match s with
            | [] => false
            | c :: s1 =>
                if Ascii.eqb x "?" then glob fuel' p1 s1
                else if Ascii.eqb x "[" then
                  let '(negated, body) :=
                    match p1 with
                    | "^"%char :: r => (true, r)
                    | _ => (false, p1)
                    end in
                  match class_matches body c false with
                  | Some (found, p2) =>
                      if xorb negated found then glob fuel' p2 s1 else false
                  | None => false
                  end
                else if Ascii.eqb x JSON.backslash then
                  match p1 with
                  | y :: p2 => Ascii.eqb y c && glob fuel' p2 s1
                  | [] => false
                  end
                else Ascii.eqb x c && glob fuel' p1 s1
            end
      end
  end.

Definition key_matches (pattern key : string) : bool :=
  let p := Str.chars pattern in
  let k := Str.chars key in
  glob (S (List.length p + List.length k)) p k.

Definition get (key : string) (st : state) : state * settled (option string) :=
  match lookup key (entries st) with
  | Some e => (st, Resolved (if live st e then Some (text e) else None))
  | None => (st, Resolved None)
  end.

Definition set (key : string) (value ttl : option string) (st : state)
  : state * settled unit :=
  match seconds ttl with
  | Some n =>
      let t := match value with Some t => t | None => "undefined" end in
      (State ((key, Entry t (clock st + n)) :: remove key (entries st)) (clock st),
       Resolved tt)
  | None => (st, Rejected (Exn "ReplyError" "ERR value is not an integer or out of range"))
  end.

Definition keys (pattern : string) (st : state) : state * settled (list string) :=
  (st, Resolved (map fst (filter (fun ke => live st (snd ke) && key_matches pattern (fst ke))
                                 (entries st)))).

Definition del (key : string) (st : state) : state * settled unit :=
  (State (remove key (entries st)) (clock st), Resolved tt).

(** The world over an upstream. *)
Definition over (upstream : string -> settled response) : world state :=
  World (fun url st => (st, upstream url)) get set keys del.

(** Time passes. *)
Definition tick (dt : Z) (st : state) : state :=
  State (entries st) (clock st + dt).

Definition empty : state := State [] 0.

End Mem.

(** ** Auxiliary definitions for the statements *)

(** The replies of the DEL commands for [keys], sent in order. *)
Fixpoint del_each {W : Type} (h : world W) (keys : list string) (w : W)
  : W * list (settled unit) :=
  match keys with
  | [] => (w, [])
  | key :: keys' =>
      let '(w1, r) := on_del h key w in
      let '(w2, rs) := del_each h keys' w1 in
      (w2, r :: rs)
  end.

Definition is_rejected {A : Type} (r : settled A) : bool :=
  match r with Rejected _ => true | Resolved _ => false end.

(** The warnings of the cache adapter. *)
Definition get_warning (key : string) : call :=
  CallWarn ("Unable to get key " ++ key ++ " from cache").
Definition set_warning (key : string) : call :=
  CallWarn ("Unable to set cache for key " ++ key).
Definition clear_warning : call := CallWarn "Unable to clear cache".

(** The text a GET reply stands for under [JSON.parse]. *)
Definition reply_text (result : option string) : string :=
  match result with Some t => t | None => "null" end.

Definition find_school (slug : string) : option Division.t :=
  List.find (fun i => String.eqb (Division.slug i) slug) schools.


(** *** Fragments of the upstream page

    A fragment in the shape the upstream serves: for each department a
    level-3 heading, some text, and a table with a header row and one body
    row per test, each cell holding text. *)

Module Fragment.

Record section : Type := Section_ {
  title : string;
  gap : string;
  header : list string;
  rows : list (list string)
}.

Definition cell (c : string) : node := Element "td" [Text c].
Definition row (cells : list string) : node := Element "tr" (map cell cells).
Definition head_cell (c : string) : node := Element "th" [Text c].

Definition table_of (s : section) : node :=
  Element "table"
    [Element "thead" [Element "tr" (map head_cell (header s))];
     Element "tbody" (map row (rows s))].

Definition nodes_of (s : section) : list node :=
  [Element "h3" [Text (title s)]; Text (gap s); table_of s].

Definition fragment (ss : list section) : list node := flat_map nodes_of ss.


(** The test a row of cells stands for: the first five cells in order. *)
Definition test_of (cells : list string) : Test.t :=
  Test.Make (Str.trim (nth 0 cells "")) (Str.trim (nth 1 cells ""))
            (Str.trim (nth 2 cells ""))
            (Num.of_string (Str.trim (nth 3 cells "")))
            (Str.trim (nth 4 cells "")).

Definition department (s : section) : Department.t :=
  Department.Make (Str.trim (title s)) (map test_of (rows s)).



End Fragment.

(** *** The words of the specification on a document

    What the specification says of a fragment, read on the tree without
    the selector engine.  The level-3 headings are the [h3] elements; the
    table of a heading is the element that comes next after it under the
    same parent, when that is a [table]; the body rows of a table are the
    [tr] elements inside a [tbody] of the table; the cell at a position is
    the [td] that is the so-manieth element of its parent; and the text of
    an element is made of the text nodes inside it. *)

Module Page.

(** An element found in a tree: the tags of the elements it lies inside
    (the nearest first), its position among the elements of its parent,
    counted from 1, and the element. *)
Record place : Type := Place {
  inside : list string;
  position : nat;
  found : Cheerio.element
}.

(** Every element of a tree, in document order: an element comes before
    the elements inside it. *)
Fixpoint places (above : list string) (index : nat) (n : node) (after : list node)
  {struct n} : list place :=
  match n with
  | Element name kids =>
      Place above index (Cheerio.El name kids after)
      :: (fix forest (i : nat) (l : list node) {struct l} : list place :=
            match l with
            | [] => []
            | x :: l' =>
                (places (name :: above) i x l'
                 ++ forest (if Cheerio.is_element x then S i else i) l')%list
            end) 1%nat kids
  | _ => []
  end.

Fixpoint places_forest (above : list string) (i : nat) (l : list node) : list place :=
  match l with
  | [] => []
  | x :: l' =>
      (places above i x l'
       ++ places_forest above (if Cheerio.is_element x then S i else i) l')%list
  end.

(** The elements among the nodes [l] and inside them. *)
Definition elements (l : list node) : list place := places_forest [] 1 l.

Definition named (name : string) (p : place) : bool :=
  String.eqb (Cheerio.tag (found p)) name.

(** The level-3 headings of a document. *)
Definition headings (doc : list node) : list Cheerio.element :=
  map found (filter (named "h3") (elements doc)).

(** The table that follows a heading immediately, as its children: the
    first element after the heading under the same parent, when it is a
    table. *)
Definition table_after (heading : Cheerio.element) : option (list node) :=
  match List.find Cheerio.is_element (Cheerio.following heading) with
  | Some (Element name kids) => if String.eqb name "table" then Some kids else None
  | _ => None
  end.

(** The body rows of a table: the rows inside a [tbody] of the table. *)
Definition is_body_row (p : place) : bool :=
  named "tr" p && existsb (String.eqb "tbody") (inside p).

Definition body_rows (table : list node) : list Cheerio.element :=
  map found (filter is_body_row (elements table)).

(** The cells at position [k] inside a row. *)
Definition cells (k : nat) (row : Cheerio.element) : list Cheerio.element :=
  map found
    (filter (fun p => named "td" p && Nat.eqb (position p) k)
            (elements (Cheerio.children row))).

(** The text nodes inside a node, in order; those of a [script] or a
    [style] element are no text of the page. *)
Fixpoint texts (n : node) : list string :=
  match n with
  | Text data => [data]
  | Comment _ => []
  | Element name kids =>
      if String.eqb name "script" then []
      else if String.eqb name "style" then []
      else flat_map texts kids
  end.

Definition text (els : list Cheerio.element) : string :=
  Str.concat
    (flat_map (fun el => texts (Element (Cheerio.tag el) (Cheerio.children el))) els).

(** The trimmed text of the cell at position [k]. *)
Definition cell (k : nat) (row : Cheerio.element) : string :=
  Str.trim (text (cells k row)).

(** A body row as a test: the first five cells in order, the fourth
    converted with [Number]. *)
Definition test_of (row : Cheerio.element) : Test.t :=
  Test.Make (cell 1 row) (cell 2 row) (cell 3 row)
            (Num.of_string (cell 4 row)) (cell 5 row).

Definition department_of (heading : Cheerio.element) : Department.t :=
  Department.Make
    (Str.trim (text [heading]))
    (match table_after heading with
     | Some table => map test_of (body_rows table)
     | None => []
     end).

(** One department for each heading, in document order. *)
Definition departments (doc : list node) : list Department.t :=
  map department_of (headings doc).

End Page.

(** *** The fold of [getStats] on numbers

    The four counters when every [students] is a number, and the step of
    the innermost callback on them. *)

Module Totals.

Record t : Type := Make {
  min : Num.number;
  max : Num.number;
  numTests : Num.number;
  numStudents : Num.number
}.

Definition initial : t :=
  Make (Num.of_Z 999) (Num.of_Z 0) (Num.of_Z 0) (Num.of_Z 0).

Definition count (c : t) (students : Num.number) : t :=
  Make (if Num.lt students (min c) then students else min c)
       (if Num.gt students (max c) then students else max c)
       (Num.add (numTests c) (Num.of_Z 1))
       (Num.add (numStudents c) students).

Definition count_all (xs : list Num.number) (c : t) : t := fold_left count xs c.

Definition to_counters (c : t) : counters :=
  Counters (VNumber (min c)) (VNumber (max c)) (numTests c)
           (VNumber (numStudents c)).

Definition to_stats (c : t) : Stats.t :=
  Stats.Make (VNumber (min c)) (VNumber (max c)) (numTests c)
             (VNumber (numStudents c))
             (Num.toFixed (Num.div (numStudents c) (numTests c)) 2).

End Totals.

(** *** Words of the specification about the statistics *)

(** The student counts of all tests of all departments of all results. *)
Definition students_of (results : list DivisionResult.t) : list Num.number :=
  map Test.students (flat_map DivisionResult.all_tests results).

(** [m] is the least (the greatest) of the numbers [xs]: it equals one of
    them and none is below (above) it. *)
Definition is_minimum (m : Num.number) (xs : list Num.number) : Prop :=
  (exists x, In x xs /\ Num.equal m x = true)
  /\ forall x, In x xs -> Num.le m x = true.

Definition is_maximum (m : Num.number) (xs : list Num.number) : Prop :=
  (exists x, In x xs /\ Num.equal m x = true)
  /\ forall x, In x xs -> Num.le x m = true.

(** "The fold tracks a true running min and running max". *)
Definition tracks_true_min_max (results : list DivisionResult.t) : Prop :=
  exists st mn mx,
    stats_of (map DivisionResult.to_value results) = Resolved st
    /\ Stats.min st = VNumber mn /\ Stats.max st = VNumber mx
    /\ is_minimum mn (students_of results)
    /\ is_maximum mx (students_of results).

(** *** What the cache gives back

    The value [JSON.parse] reads from the text [JSON.stringify] writes for
    a result: a student count that is NaN or infinite comes back as
    [null], and negative zero as zero. *)

Module Cached.

Definition students (x : Num.number) : value :=
  match x with
  | S754_nan | S754_infinity _ => VNull
  | S754_zero _ => VNumber (S754_zero false)
  | S754_finite _ _ _ => VNumber x
  end.

Definition test (x : Test.t) : value :=
  VObject [("course", VString (Test.course x)); ("name", VString (Test.name x));
           ("type", VString (Test.type x)); ("students", students (Test.students x));
           ("date", VString (Test.date x))].

Definition department (d : Department.t) : value :=
  VObject [("heading", VString (Department.heading d));
           ("tests", VArray (map test (Department.tests d)))].

Definition result (r : DivisionResult.t) : value :=
  VObject [("heading", VString (DivisionResult.heading r));
           ("departments", VArray (map department (DivisionResult.departments r)))].

(** The numbers that come back as they were. *)
Definition exact (x : Num.number) : bool :=
  match x with
  | S754_finite _ _ _ | S754_zero false => true
  | _ => false
  end.

(** The texts written for a test, a department and a result. *)
Definition test_text (t : Test.t) : list ascii :=
  "{"%char ::
    JSON.join [JSON.member "course" (JSON.quote (Test.course t));
               JSON.member "name" (JSON.quote (Test.name t));
               JSON.member "type" (JSON.quote (Test.type t));
               JSON.member "students" (JSON.number_text (Test.students t));
               JSON.member "date" (JSON.quote (Test.date t))]
    ++ ["}"%char].

Definition department_text (d : Department.t) : list ascii :=
  "{"%char ::
    JSON.join [JSON.member "heading" (JSON.quote (Department.heading d));
               JSON.member "tests"
                 (JSON.array_text (map test_text (Department.tests d)))]
    ++ ["}"%char].

Definition result_text (r : DivisionResult.t) : list ascii :=
  "{"%char ::
    JSON.join [JSON.member "heading" (JSON.quote (DivisionResult.heading r));
               JSON.member "departments"
                 (JSON.array_text
                    (map department_text (DivisionResult.departments r)))]
    ++ ["}"%char].

(** A finite number other than zero is read back when [JSON.parse] reads
    the same number from its spelling, as Number::toString gives it. *)
Definition reads_back (x : Num.number) : Prop :=
  match x with
  | S754_finite _ _ _ => JSON.parse (Num.to_string x) = Some (VNumber x)
  | _ => True
  end.

Definition reads_back_b (x : Num.number) : bool :=
  match x with
  | S754_finite _ _ _ =>
      match JSON.parse (Num.to_string x) with
      | Some (VNumber y) => Num.eqb x y
      | _ => false
      end
  | _ => true
  end.

End Cached.

(** *** Sample worlds and data *)

Module Sample.

Definition lost : exn := Exn "Error" "Connection lost".

(** A world whose store rejects every command. *)
Definition store_down (upstream : string -> settled response) : world unit :=
  World (fun url w => (w, upstream url))
        (fun _ w => (w, Rejected lost))
        (fun _ _ _ w => (w, Rejected lost))
        (fun _ w => (w, Rejected lost))
        (fun _ w => (w, Rejected lost)).

(** An upstream that answers 500, and one that serves a page. *)
Definition unavailable (url : string) : settled response :=
  Resolved (Response 500 (Resolved VNull)).

Definition serving (url : string) : settled response :=
  Resolved (Response 200 (Resolved (VObject [("html", VString url)]))).

Definition section_a : Fragment.section :=
  Fragment.Section_ " Lagadeild " " " ["Námskeið"; "Heiti"; "Tegund"; "Fjöldi"; "Dagsetning"]
    [["LÖG101G"; "Inngangur að lögfræði"; "Skriflegt"; "42"; "3. des 2018"];
     ["LÖG103G"; "Stjórnskipunarréttur"; "Skriflegt"; " 7 "; "5. des 2018"]].

Definition section_b : Fragment.section :=
  Fragment.Section_ "Hagfræðideild" "" []
    [["HAG101G"; "Rekstrarhagfræði"; "Munnlegt"; "óþekkt"; "7. des 2018"]].

Definition sections : list Fragment.section := [section_a; section_b].

(** A parser that yields the sample page for every input. *)
Definition load (data : value) : settled (list node) :=
  Resolved (Fragment.fragment sections).

(** A page as a parser gives it: white space and comments between the
    elements, markup inside a heading and inside a cell, a script, a
    header row, and a table without a header. *)
Definition page : list node :=
  [ Text " ";
    Element "h3" [Text " Laga"; Element "b" [Text "deild"];
                  Element "script" [Text "var h = 1;"]; Text " "];
    Text " "; Comment " próf "; Text " ";
    Element "table"
      [ Text " ";
        Element "thead"
          [Element "tr" [Element "th" [Text "Námskeið"]; Element "th" [Text "Heiti"];
                         Element "th" [Text "Tegund"]; Element "th" [Text "Fjöldi"];
                         Element "th" [Text "Dagsetning"]]];
        Text " ";
        Element "tbody"
          [ Text " ";
            Element "tr"
              [ Text " "; Element "td" [Text "LÖG101G"];
                Text " "; Element "td" [Element "a" [Text "Inngangur að lögfræði"]];
                Text " "; Element "td" [Text "Skriflegt"];
                Text " "; Element "td" [Text " 42 "];
                Text " "; Element "td" [Text "3. des 2018"]; Text " " ];
            Text " ";
            Element "tr"
              [ Element "td" [Text "LÖG103G"]; Element "td" [Text "Stjórnskipunarréttur"];
                Element "td" [Text "Skriflegt"]; Element "td" [Text "7"];
                Element "td" [Text "5. des 2018"]; Element "td" [Text "aukalega"] ];
            Text " " ];
        Text " " ];
    Text " ";
    Element "div"
      [ Element "h3" [Text "Hagfræðideild"];
        Element "table"
          [Element "tbody"
             [Element "tr"
                [ Element "td" [Text "HAG101G"]; Element "td" [Text "Rekstrarhagfræði"];
                  Element "td" [Text "Munnlegt"]; Element "td" [Text "óþekkt"];
                  Element "td" [Text "7. des 2018"] ]]] ] ].

Definition test (n : Z) : Test.t :=
  Test.Make "N" "Heiti" "Skriflegt" (Num.of_Z n) "3. des 2018".

Definition result_of (counts : list Z) : DivisionResult.t :=
  DivisionResult.Make "Svið" [Department.Make "Deild" (map test counts)].

(** A store that holds, for an hour, the results given for the divisions
    in the order of the list. *)
Definition cached_results (rs : list DivisionResult.t) : Mem.state :=
  Mem.State
    (map (fun dr =>
            (key_of None (Division.slug (fst dr)),
             Mem.Entry (reply_text (JSON.stringify (DivisionResult.to_value (snd dr)))) 3600))
         (combine schools rs))
    0.

(** The student count of the first test of the second department of a
    lookup result. *)
Definition students_at (r : settled value) : option value :=
  match r with
  | Resolved v =>
      match Js.get v "departments" with
      | Resolved (VArray (_ :: d :: _)) =>
          match Js.get d "tests" with
          | Resolved (VArray (VObject t :: _)) => Js.lookup "students" t
          | _ => None
          end
      | _ => None
      end
  | Rejected _ => None
  end.

(** A store that holds one text under the key of a slug. *)
Definition holding (slug text : string) : Mem.state :=
  Mem.State [(key_of None slug, Mem.Entry text 3600)] 0.

End Sample.

(** ** Auxiliary definitions for the further properties *)

(** *** Calls and outcomes *)

Definition is_get (c : call) : bool :=
  match c with CallGet _ => true | _ => false end.

Definition is_set (c : call) : bool :=
  match c with CallSet _ _ _ => true | _ => false end.

(** KEYS and DEL, the commands of [clearCache]. *)
Definition is_clearing (c : call) : bool :=
  match c with CallKeys _ | CallDel _ => true | _ => false end.

Definition is_resolved {A : Type} (r : settled A) : bool :=
  match r with Resolved _ => true | Rejected _ => false end.

Definition is_type_error {A : Type} (r : settled A) : bool :=
  match r with
  | Rejected e => String.eqb (exn_name e) "TypeError"
  | Resolved _ => false
  end.

(** Programs run one after the other, each to its end: the final world,
    all calls in order, and the way each program settled. *)
Fixpoint run_each {W A : Type} (h : world W) (ps : list (prog A)) (w : W)
  : W * list call * list (settled A) :=
  match ps with
  | [] => (w, [], [])
  | p :: ps' =>
      let '(w1, c1, r) := run h p w in
      let '(w2, c2, rs) := run_each h ps' w1 in
      (w2, (c1 ++ c2)%list, r :: rs)
  end.

(** A value that has properties to read: anything but [undefined] and
    [null]. *)
Definition has_properties (v : value) : bool :=
  match v with VUndefined | VNull => false | _ => true end.

(** The replies to the request that [fetchAndParse] turns into a result:
    status 200, a body that decodes to a value with properties, and under
    its [html] a value, other than [undefined] and [null], that the parser
    makes a document of. *)
Definition is_page (cheerio_parse : value -> settled (list node))
  (reply : settled response) : bool :=
  match reply with
  | Resolved result =>
      (status result =? 200)%Z
      && match json result with
         | Resolved body =>
             match Js.get body "html" with
             | Resolved data => has_properties data && is_resolved (cheerio_parse data)
             | Rejected _ => false
             end
         | Rejected _ => false
         end
  | Rejected _ => false
  end.

(** How [fetchAndParse] settles on the reply to its request: the part of
    the function after [await fetch(url)]. *)
Definition result_of_reply (cheerio_parse : value -> settled (list node))
  (heading : string) (reply : settled response) : settled DivisionResult.t :=
  match reply with
  | Rejected e => Rejected e
  | Resolved result =>
      if negb (status result =? 200)%Z
      then Rejected (Js.Error "Non 200 status from url")
      else
        match json result with
        | Rejected e => Rejected e
        | Resolved json =>
            match Js.get json "html" with
            | Rejected e => Rejected e
            | Resolved data =>
                match parse_departments cheerio_parse data with
                | Resolved departments =>
                    Resolved (DivisionResult.Make heading departments)
                | Rejected e => Rejected e
                end
            end
        end
  end.

(** What [getTests] returns for the outcome of [fetchAndParse]. *)
Definition returned (r : settled DivisionResult.t) : settled value :=
  match r with
  | Resolved data => Resolved (DivisionResult.to_value data)
  | Rejected e => Rejected e
  end.

(** What [getFromCache] makes of the reply to GET; nothing when it warns. *)
Definition decoded (reply : settled (option string)) : option value :=
  match reply with
  | Resolved result => JSON.parse (reply_text result)
  | Rejected _ => None
  end.

(** Every GET for the key of a division is answered with a text that
    decodes to a truthy value. *)
Definition always_hit {W : Type} (REDIS_PREFIX : option string) (h : world W) : Prop :=
  forall d w, In d schools ->
    exists w1 text v,
      on_get h (key_of REDIS_PREFIX (Division.slug d)) w = (w1, Resolved (Some text))
      /\ JSON.parse text = Some v /\ Js.truthy v = true.

(** A world whose store answers every GET with the same text and accepts
    every other command. *)
Definition answering (text : string) (upstream : string -> settled response)
  : world unit :=
  World (fun url w => (w, upstream url))
        (fun _ w => (w, Resolved (Some text)))
        (fun _ _ _ w => (w, Resolved tt))
        (fun _ w => (w, Resolved []))
        (fun _ w => (w, Resolved tt)).

(** *** Values the fold of [getStats] gets through *)

(** An array under [name] whose items all pass [ok]. *)
Definition has_members (name : string) (ok : value -> bool) (v : value) : bool :=
  match Js.get v name with
  | Resolved (VArray items) => forallb ok items
  | _ => false
  end.

(** A value the operators of the fold can convert to a primitive: not an
    object with a property [toString] of its own, nor an array that holds
    such an object, at any depth. *)
Fixpoint convertible (v : value) : bool :=
  match v with
  | VObject props =>
      match Js.lookup "toString" props with
      | Some _ => false
      | None => true
      end
  | VArray items => forallb convertible items
  | _ => true
  end.

(** A test that can be counted: its [students] can be read and
    converted. *)
Definition has_count (test : value) : bool :=
  match Js.get test "students" with
  | Resolved students => convertible students
  | Rejected _ => false
  end.

(** An array of departments, each with an array of tests that can be
    counted. *)
Definition countable : value -> bool :=
  has_members "departments" (has_members "tests" has_count).

(** Counters the operators can convert. *)
Definition sound (c : counters) : bool :=
  convertible (c_min c) && convertible (c_max c) && convertible (c_numStudents c).

(** The innermost callback of [getStats] on a test that holds [students]
    and nothing else. *)
Definition tally (students : value) (c : counters) : settled counters :=
  count_test (VObject [("students", students)]) c.

(** *** Student counts as integers *)

(** The sum of a list of integers. *)
Definition total (ks : list Z) : Z := fold_right Z.add 0%Z ks.

(** A student count as an integer, or nothing where the text of the cell
    was not a number. *)
Definition count_of (o : option Z) : Num.number :=
  match o with
  | Some k => Num.of_Z k
  | None => Num.nan
  end.

Definition is_missing (o : option Z) : bool :=
  match o with None => true | Some _ => false end.

(** The counts that are there. *)
Definition known (ks : list (option Z)) : list Z :=
  flat_map (fun o => match o with Some k => [k] | None => [] end) ks.

(** The minimum over cached results: [null] once a count is missing. *)
Definition min_value (missing : bool) (mn : Z) : value :=
  if missing then VNull else VNumber (Num.of_Z mn).

Definition is_number (x : Num.number) : bool := negb (Num.is_nan x).

(** A positive integer shifted to the left by [k] bits. *)
Fixpoint shifted (n : positive) (k : nat) : positive :=
  match k with
  | O => n
  | S k' => xO (shifted n k')
  end.

(** The binary64 number that a positive integer below [2^53] is: the
    integer shifted to 53 bits, with the exponent that undoes the shift. *)
Definition canon (n : positive) : Num.number :=
  let d := Zpos (digits2_pos n) in
  S754_finite false (shifted n (Z.to_nat (53 - d))) (d - 53).


(** *** Documents and patterns *)

(** The number of elements named [name] in a tree. *)
Fixpoint count_tag (name : string) (n : node) : nat :=
  match n with
  | Element tag kids =>
      ((if String.eqb tag name then 1 else 0) + list_sum (map (count_tag name) kids))%nat
  | _ => 0
  end.



(** The characters that stand for themselves in a pattern of KEYS. *)
Definition is_literal (c : ascii) : bool :=
  negb (Ascii.eqb c "*" || Ascii.eqb c "?" || Ascii.eqb c "["
        || Ascii.eqb c JSON.backslash).

Definition glob_free (s : string) : bool := forallb is_literal (Str.chars s).

(** The entries of the store after the DEL commands for [keys]. *)
Definition without (keys : list string) (l : list (string * Mem.entry))
  : list (string * Mem.entry) :=
  fold_left (fun l key => Mem.remove key l) keys l.

(** * Properties *)

Local Open Scope list_scope.

(** ** Running programs *)

Section Running.

Context {W : Type} (h : world W).

Lemma run_bind {A B : Type} (p : prog A) (f : A -> prog B) (w : W) :
  run h (bind p f) w =
  let '(w1, c1, r) := run h p w in
  match r with
  | Resolved a => let '(w2, c2, r2) := run h (f a) w1 in (w2, c1 ++ c2, r2)
  | Rejected e => (w1, c1, Rejected e)
  end.
Proof.
  revert w.
  induction p as [a | e | url k IH | key k IH | key t ttl k IH
                 | pat k IH | key k IH | msg err k IH]; intro w; simpl.
  - destruct (run h (f a) w) as [[w2 c2] r2]; reflexivity.
  - reflexivity.
  - destruct (on_fetch h url w) as [w1 r]. rewrite IH.
    destruct (run h (k r) w1) as [[w2 c2] [a | e]]; [|reflexivity].
    destruct (run h (f a) w2) as [[w3 c3] r3]; reflexivity.
  - destruct (on_get h key w) as [w1 r]. rewrite IH.
    destruct (run h (k r) w1) as [[w2 c2] [a | e]]; [|reflexivity].
    destruct (run h (f a) w2) as [[w3 c3] r3]; reflexivity.
  - destruct (on_set h key t ttl w) as [w1 r]. rewrite IH.
    destruct (run h (k r) w1) as [[w2 c2] [a | e]]; [|reflexivity].
    destruct (run h (f a) w2) as [[w3 c3] r3]; reflexivity.
  - destruct (on_keys h pat w) as [w1 r]. rewrite IH.
    destruct (run h (k r) w1) as [[w2 c2] [a | e]]; [|reflexivity].
    destruct (run h (f a) w2) as [[w3 c3] r3]; reflexivity.
  - destruct (on_del h key w) as [w1 r]. rewrite IH.
    destruct (run h (k r) w1) as [[w2 c2] [a | e]]; [|reflexivity].
    destruct (run h (f a) w2) as [[w3 c3] r3]; reflexivity.
  - rewrite IH.
    destruct (run h (k tt) w) as [[w2 c2] [a | e]]; [|reflexivity].
    destruct (run h (f a) w2) as [[w3 c3] r3]; reflexivity.
Qed.

Lemma run_try_catch {A : Type} (p : prog A) (handler : exn -> prog A) (w : W) :
  run h (try_catch p handler) w =
  let '(w1, c1, r) := run h p w in
  match r with
  | Resolved a => (w1, c1, Resolved a)
  | Rejected e => let '(w2, c2, r2) := run h (handler e) w1 in (w2, c1 ++ c2, r2)
  end.
Proof.
  revert w.
  induction p as [a | e | url k IH | key k IH | key t ttl k IH
                 | pat k IH | key k IH | msg err k IH]; intro w; simpl.
  - reflexivity.
  - destruct (run h (handler e) w) as [[w2 c2] r2]; reflexivity.
  - destruct (on_fetch h url w) as [w1 r]. rewrite IH.
    destruct (run h (k r) w1) as [[w2 c2] [a | e]]; [reflexivity|].
    destruct (run h (handler e) w2) as [[w3 c3] r3]; reflexivity.
  - destruct (on_get h key w) as [w1 r]. rewrite IH.
    destruct (run h (k r) w1) as [[w2 c2] [a | e]]; [reflexivity|].
    destruct (run h (handler e) w2) as [[w3 c3] r3]; reflexivity.
  - destruct (on_set h key t ttl w) as [w1 r]. rewrite IH.
    destruct (run h (k r) w1) as [[w2 c2] [a | e]]; [reflexivity|].
    destruct (run h (handler e) w2) as [[w3 c3] r3]; reflexivity.
  - destruct (on_keys h pat w) as [w1 r]. rewrite IH.
    destruct (run h (k r) w1) as [[w2 c2] [a | e]]; [reflexivity|].
    destruct (run h (handler e) w2) as [[w3 c3] r3]; reflexivity.
  - destruct (on_del h key w) as [w1 r]. rewrite IH.
    destruct (run h (k r) w1) as [[w2 c2] [a | e]]; [reflexivity|].
    destruct (run h (handler e) w2) as [[w3 c3] r3]; reflexivity.
  - rewrite IH.
    destruct (run h (k tt) w) as [[w2 c2] [a | e]]; [reflexivity|].
    destruct (run h (handler e) w2) as [[w3 c3] r3]; reflexivity.
Qed.

Lemma run_asyncDel_each {A : Type} (keys : list string)
  (k : list (settled unit) -> prog A) (w : W) :
  run h (asyncDel_each keys k) w =
  let '(w1, rs) := del_each h keys w in
  let '(w2, c, out) := run h (k rs) w1 in
  (w2, map CallDel keys ++ c, out).
Proof.
  revert k w. induction keys as [| key keys IH]; intros k w; simpl.
  - destruct (run h (k []) w) as [[w2 c] out]; reflexivity.
  - destruct (on_del h key w) as [w1 r]. rewrite IH.
    destruct (del_each h keys w1) as [w2 rs].
    destruct (run h (k (r :: rs)) w2) as [[w3 c] out]; reflexivity.
Qed.

End Running.

(** ** The cache adapter and the lookup *)

Section Lookup.

Variable REDIS_EXPIRE REDIS_PREFIX : option string.
Variable cheerio_parse : value -> settled (list node).
Context {W : Type} (h : world W).

(** How [getFromCache] runs: one GET, and a warning when the reply is a
    rejection or a text that is not JSON; it always resolves. *)
Lemma run_getFromCache (key : string) (w : W) :
  run h (getFromCache key) w =
  let '(w1, reply) := on_get h key w in
  match reply with
  | Resolved result =>
      match JSON.parse (reply_text result) with
      | Some v => (w1, [CallGet key], Resolved v)
      | None => (w1, [CallGet key; get_warning key], Resolved VNull)
      end
  | Rejected _ => (w1, [CallGet key; get_warning key], Resolved VNull)
  end.
Proof.
  unfold getFromCache. rewrite run_try_catch. simpl.
  destruct (on_get h key w) as [w1 [result | e]]; simpl.
  - unfold JSON_parse, reply_text.
    destruct (JSON.parse match result with Some t => t | None => "null" end);
      reflexivity.
  - reflexivity.
Qed.

(** How [cache] runs: one SET, and a warning when it is rejected. *)
Lemma run_cache (key : string) (v : value) (w : W) :
  run h (cache REDIS_EXPIRE key v) w =
  let '(w1, reply) := on_set h key (JSON.stringify v) REDIS_EXPIRE w in
  (w1,
   CallSet key (JSON.stringify v) REDIS_EXPIRE
     :: (if is_rejected reply then [set_warning key] else []),
   Resolved tt).
Proof.
  unfold cache. rewrite run_try_catch. simpl.
  destruct (on_set h key (JSON.stringify v) REDIS_EXPIRE w) as [w1 [[] | e]];
    reflexivity.
Qed.

Lemma getFromCache_resolves (key : string) (w : W) :
  exists w1 calls v, run h (getFromCache key) w = (w1, calls, Resolved v).
Proof.
  rewrite run_getFromCache.
  destruct (on_get h key w) as [w1 [result | e]].
  - destruct (JSON.parse (reply_text result)); eauto.
  - eauto.
Qed.

(** How [getTests] runs for a slug of the list. *)
Lemma run_getTests (slug : string) (item : Division.t) (w : W) :
  find_school slug = Some item ->
  run h (getTests REDIS_EXPIRE REDIS_PREFIX cheerio_parse slug) w =
  let key := key_of REDIS_PREFIX slug in
  let '(w1, c1, r1) := run h (getFromCache key) w in
  match r1 with
  | Rejected e => (w1, c1, Rejected e)
  | Resolved cached =>
      if Js.truthy cached then (w1, c1, Resolved cached)
      else
        let '(w2, c2, r2) :=
          run h (fetchAndParse cheerio_parse (Division.id item) (Division.name item)) w1 in
        match r2 with
        | Rejected e => (w2, c1 ++ c2, Rejected e)
        | Resolved data =>
            let '(w3, c3, _) :=
              run h (cache REDIS_EXPIRE key (DivisionResult.to_value data)) w2 in
            (w3, c1 ++ c2 ++ c3, Resolved (DivisionResult.to_value data))
        end
  end.
Proof.
  intro Hfind. unfold getTests. unfold find_school in Hfind. rewrite Hfind.
  cbv zeta. rewrite run_bind.
  destruct (run h (getFromCache (key_of REDIS_PREFIX slug)) w) as [[w1 c1] [cached | e]];
    [|reflexivity].
  destruct (Js.truthy cached).
  - simpl. rewrite app_nil_r. reflexivity.
  - rewrite run_bind.
    destruct (run h (fetchAndParse cheerio_parse (Division.id item) (Division.name item)) w1)
      as [[w2 c2] [data | e]]; [|reflexivity].
    rewrite run_bind. rewrite run_cache.
    destruct (on_set h (key_of REDIS_PREFIX slug)
                (JSON.stringify (DivisionResult.to_value data)) REDIS_EXPIRE w2)
      as [w3 reply].
    simpl. rewrite app_nil_r. reflexivity.
Qed.

(** How [fetchAndParse] runs: one request, whatever the outcome. *)
Lemma run_fetchAndParse (id : Num.number) (heading : string) (w : W) :
  run h (fetchAndParse cheerio_parse id heading) w =
  let '(w1, reply) := on_fetch h (url_of id) w in
  (w1, [CallFetch (url_of id)],
   match reply with
   | Rejected e => Rejected e
   | Resolved result =>
       if negb (status result =? 200)%Z
       then Rejected (Js.Error "Non 200 status from url")
       else
         match json result with
         | Rejected e => Rejected e
         | Resolved json =>
             match Js.get json "html" with
             | Rejected e => Rejected e
             | Resolved data =>
                 match parse_departments cheerio_parse data with
                 | Rejected e => Rejected e
                 | Resolved departments =>
                     Resolved (DivisionResult.Make heading departments)
                 end
             end
         end
   end).
Proof.
  unfold fetchAndParse. cbv zeta. rewrite run_bind. simpl.
  destruct (on_fetch h (url_of id) w) as [w1 [result | e]]; simpl; [|reflexivity].
  destruct (negb (status result =? 200)%Z); simpl; [reflexivity|].
  rewrite run_bind.
  destruct (json result) as [j | e]; simpl; [|reflexivity].
  rewrite run_bind.
  destruct (Js.get j "html") as [data | e]; simpl; [|reflexivity].
  rewrite run_bind.
  destruct (parse_departments cheerio_parse data) as [departments | e]; reflexivity.
Qed.

End Lookup.

Lemma find_school_none (slug : string) :
  (forall d, In d schools -> Division.slug d <> slug) ->
  find_school slug = None.
Proof.
  intro Hno. unfold find_school.
  destruct (find (fun i => (Division.slug i =? slug)%string) schools) as [d |] eqn:Hf;
    [|reflexivity].
  apply find_some in Hf. destruct Hf as [Hin Heq].
  apply String.eqb_eq in Heq. exfalso. exact (Hno d Hin Heq).
Qed.

(** C4. For every slug that matches no division of the list, [getTests]
    is the program that returns [null] at once: in every world it makes no
    call, leaves the world as it was and resolves with [null]; it never
    rejects. *)
Theorem getTests_unknown_slug_is_absent :
  forall (REDIS_EXPIRE REDIS_PREFIX : option string)
         (cheerio_parse : value -> settled (list node)) (slug : string),
    (forall d, In d schools -> Division.slug d <> slug) ->
    getTests REDIS_EXPIRE REDIS_PREFIX cheerio_parse slug = Ret VNull
    /\ forall (W : Type) (h : world W) (w : W),
         run h (getTests REDIS_EXPIRE REDIS_PREFIX cheerio_parse slug) w
         = (w, [], Resolved VNull).
Proof.
  intros REDIS_EXPIRE REDIS_PREFIX cheerio_parse slug Hno.
  assert (Hret : getTests REDIS_EXPIRE REDIS_PREFIX cheerio_parse slug = Ret VNull).
  { unfold getTests. pose proof (find_school_none slug Hno) as Hf.
    unfold find_school in Hf. rewrite Hf. reflexivity. }
  split; [exact Hret|]. intros W h w. rewrite Hret. reflexivity.
Qed.

Lemma getTests_unknown_slug_is_absent_witness :
  (forall d, In d schools -> Division.slug d <> "laeknadeild")
  /\ run (Mem.over Sample.serving)
         (getTests (Some "60") None Sample.load "laeknadeild") Mem.empty
     = (Mem.empty, [], Resolved VNull).
Proof.
  assert (Hno : forall d, In d schools -> Division.slug d <> "laeknadeild").
  { intros d Hd. simpl in Hd.
    repeat (destruct Hd as [Hd | Hd]; [subst d; simpl; discriminate|]).
    destruct Hd. }
  split; [exact Hno|].
  apply (getTests_unknown_slug_is_absent (Some "60") None Sample.load
           "laeknadeild" Hno).
Defined.

(** C7. When the response to the request has a status other than 200,
    [fetchAndParse] rejects with the error "Non 200 status from url" after
    that one request; and when [getTests] reaches the request (a slug of
    the list, nothing usable in the cache) it rejects with the same error:
    the error is not absorbed. *)
Theorem non_200_status_rejects_and_propagates :
  forall (REDIS_EXPIRE REDIS_PREFIX : option string)
         (cheerio_parse : value -> settled (list node)) (W : Type) (h : world W),
    (forall id heading w w1 result,
        on_fetch h (url_of id) w = (w1, Resolved result) ->
        status result <> 200%Z ->
        run h (fetchAndParse cheerio_parse id heading) w
        = (w1, [CallFetch (url_of id)],
           Rejected (Js.Error "Non 200 status from url")))
    /\ (forall slug item w0 w c0 cached w1 result,
        find_school slug = Some item ->
        run h (getFromCache (key_of REDIS_PREFIX slug)) w0 = (w, c0, Resolved cached) ->
        Js.truthy cached = false ->
        on_fetch h (url_of (Division.id item)) w = (w1, Resolved result) ->
        status result <> 200%Z ->
        run h (getTests REDIS_EXPIRE REDIS_PREFIX cheerio_parse slug) w0
        = (w1, c0 ++ [CallFetch (url_of (Division.id item))],
           Rejected (Js.Error "Non 200 status from url"))).
Proof.
  intros REDIS_EXPIRE REDIS_PREFIX cheerio_parse W h.
  assert (Hfetch : forall id heading w w1 result,
             on_fetch h (url_of id) w = (w1, Resolved result) ->
             status result <> 200%Z ->
             run h (fetchAndParse cheerio_parse id heading) w
             = (w1, [CallFetch (url_of id)],
                Rejected (Js.Error "Non 200 status from url"))).
  { intros id heading w w1 result Hreply Hstatus.
    rewrite run_fetchAndParse, Hreply.
    apply Z.eqb_neq in Hstatus. rewrite Hstatus. reflexivity. }
  split; [exact Hfetch|].
  intros slug item w0 w c0 cached w1 result Hfind Hcache Hfalsy Hreply Hstatus.
  rewrite (run_getTests _ _ _ _ slug item w0 Hfind). cbv zeta.
  rewrite Hcache, Hfalsy.
  rewrite (Hfetch _ _ _ _ _ Hreply Hstatus). reflexivity.
Qed.

Lemma non_200_status_rejects_and_propagates_witness :
  run (Mem.over Sample.unavailable)
      (fetchAndParse Sample.load (Num.of_Z 3) "Hugvísindasvið") Mem.empty
  = (Mem.empty, [CallFetch (url_of (Num.of_Z 3))],
     Rejected (Js.Error "Non 200 status from url"))
  /\ run (Mem.over Sample.unavailable)
         (getTests (Some "60") None Sample.load "hugvisindasvid") Mem.empty
     = (Mem.empty,
        [CallGet "proftafla:hugvisindasvid"; CallFetch (url_of (Num.of_Z 3))],
        Rejected (Js.Error "Non 200 status from url")).
Proof.
  destruct (non_200_status_rejects_and_propagates (Some "60") None Sample.load
              Mem.state (Mem.over Sample.unavailable)) as [Hfetch Hlookup].
  split.
  - apply (Hfetch (Num.of_Z 3) "Hugvísindasvið" Mem.empty Mem.empty
             (Response 500 (Resolved VNull))).
    + reflexivity.
    + simpl. discriminate.
  - apply (Hlookup "hugvisindasvid"
             (Division.Make "Hugvísindasvið" (Num.of_Z 3) "hugvisindasvid")
             Mem.empty Mem.empty [CallGet "proftafla:hugvisindasvid"] VNull
             Mem.empty (Response 500 (Resolved VNull))).
    + reflexivity.
    + reflexivity.
    + reflexivity.
    + reflexivity.
    + simpl. discriminate.
Defined.

(** C8. For every key and every store, [getFromCache] resolves: with the
    decoded value when the store answers with JSON text, and with [null]
    (after a warning) when the store rejects the command or the text does
    not decode.  For every key and value [cache] resolves whatever the
    store answers to SET, a rejection only adding a warning.  And whenever
    [getTests] rejects, the error is one that [fetchAndParse] rejected
    with: no failure of the cache layer reaches its caller. *)
Theorem cache_failures_are_absorbed :
  forall (REDIS_EXPIRE REDIS_PREFIX : option string)
         (cheerio_parse : value -> settled (list node)) (W : Type) (h : world W),
    (forall key w,
        run h (getFromCache key) w =
        let '(w1, reply) := on_get h key w in
        match reply with
        | Resolved result =>
            match JSON.parse (reply_text result) with
            | Some v => (w1, [CallGet key], Resolved v)
            | None => (w1, [CallGet key; get_warning key], Resolved VNull)
            end
        | Rejected _ => (w1, [CallGet key; get_warning key], Resolved VNull)
        end)
    /\ (forall key v w,
        run h (cache REDIS_EXPIRE key v) w =
        let '(w1, reply) := on_set h key (JSON.stringify v) REDIS_EXPIRE w in
        (w1,
         CallSet key (JSON.stringify v) REDIS_EXPIRE
           :: (if is_rejected reply then [set_warning key] else []),
         Resolved tt))
    /\ (forall slug w w' calls e,
        run h (getTests REDIS_EXPIRE REDIS_PREFIX cheerio_parse slug) w
        = (w', calls, Rejected e) ->
        exists item w1 c2,
          find_school slug = Some item
          /\ run h (fetchAndParse cheerio_parse (Division.id item) (Division.name item)) w1
             = (w', c2, Rejected e)).
Proof.
  intros REDIS_EXPIRE REDIS_PREFIX cheerio_parse W h.
  split; [|split].
  - intros key w. apply run_getFromCache.
  - intros key v w. apply run_cache.
  - intros slug w w' calls e Hrun.
    destruct (find_school slug) as [item |] eqn:Hfind.
    + rewrite (run_getTests _ _ _ _ slug item w Hfind) in Hrun. cbv zeta in Hrun.
      destruct (getFromCache_resolves h (key_of REDIS_PREFIX slug) w)
        as (w1 & c1 & cached & Hcache).
      rewrite Hcache in Hrun.
      destruct (Js.truthy cached); [discriminate|].
      destruct (run h (fetchAndParse cheerio_parse (Division.id item)
                         (Division.name item)) w1)
        as [[w2 c2] [data | e2]] eqn:Hfetch.
      * destruct (run h (cache REDIS_EXPIRE (key_of REDIS_PREFIX slug)
                           (DivisionResult.to_value data)) w2)
          as [[w3 c3] r3].
        discriminate.
      * inversion Hrun; subst. exists item, w1, c2. split; [reflexivity|exact Hfetch].
    + unfold getTests in Hrun. unfold find_school in Hfind. rewrite Hfind in Hrun.
      discriminate.
Qed.

Lemma cache_failures_are_absorbed_witness :
  run (Sample.store_down Sample.unavailable)
      (getTests (Some "60") None Sample.load "hugvisindasvid") tt
  = (tt, [CallGet "proftafla:hugvisindasvid";
          get_warning "proftafla:hugvisindasvid";
          CallFetch (url_of (Num.of_Z 3))],
     Rejected (Js.Error "Non 200 status from url"))
  /\ exists item w1 c2,
       find_school "hugvisindasvid" = Some item
       /\ run (Sample.store_down Sample.unavailable)
              (fetchAndParse Sample.load (Division.id item) (Division.name item)) w1
          = (tt, c2, Rejected (Js.Error "Non 200 status from url")).
Proof.
  assert (Hrun :
    run (Sample.store_down Sample.unavailable)
        (getTests (Some "60") None Sample.load "hugvisindasvid") tt
    = (tt, [CallGet "proftafla:hugvisindasvid";
            get_warning "proftafla:hugvisindasvid";
            CallFetch (url_of (Num.of_Z 3))],
       Rejected (Js.Error "Non 200 status from url"))) by reflexivity.
  split; [exact Hrun|].
  destruct (cache_failures_are_absorbed (Some "60") None Sample.load unit
              (Sample.store_down Sample.unavailable)) as (_ & _ & Honly).
  exact (Honly "hugvisindasvid" tt tt _ _ Hrun).
Defined.

(** ** The in-memory store *)

Lemma chars_append (a b : string) : Str.chars (a ++ b) = Str.chars a ++ Str.chars b.
Proof.
  unfold Str.chars. induction a as [| c a IH]; [reflexivity|].
  cbn. rewrite IH. reflexivity.
Qed.

Lemma glob_literal (p q s : list ascii) (fuel : nat) :
  forallb is_literal p = true ->
  Mem.glob (List.length p + fuel) (p ++ q) (p ++ s) = Mem.glob fuel q s.
Proof.
  induction p as [| x p IH]; intro Hp; [reflexivity|].
  cbn [forallb] in Hp. apply andb_prop in Hp. destruct Hp as [Hx Hp].
  unfold is_literal in Hx. apply negb_true_iff in Hx.
  apply orb_false_elim in Hx. destruct Hx as [Hx Hback].
  apply orb_false_elim in Hx. destruct Hx as [Hx Hbracket].
  apply orb_false_elim in Hx. destruct Hx as [Hstar Hquery].
  cbn [List.length Nat.add app Mem.glob].
  rewrite Hstar, Hquery, Hbracket, Hback, Ascii.eqb_refl. cbn [andb].
  apply IH. exact Hp.
Qed.

Lemma glob_star (s : list ascii) (fuel : nat) :
  (List.length s + 2 <= fuel)%nat -> Mem.glob fuel ["*"%char] s = true.
Proof.
  revert fuel. induction s as [| c s IH]; intros fuel Hfuel.
  - destruct fuel as [| [| fuel]]; cbn in Hfuel; try lia. reflexivity.
  - destruct fuel as [| fuel]; cbn in Hfuel; [lia|].
    cbn [Mem.glob]. change (Ascii.eqb "*" "*") with true. cbv iota.
    rewrite (IH fuel) by lia. apply orb_true_r.
Qed.

(** The pattern of [clearCache] matches the key of every slug, when the
    prefix holds no character that is special in a pattern. *)
Lemma pattern_matches_keys (prefix slug : string) :
  glob_free prefix = true ->
  Mem.key_matches (prefix ++ ":*") (prefix ++ ":" ++ slug) = true.
Proof.
  intro Hfree. unfold Mem.key_matches. cbv zeta.
  rewrite !chars_append.
  change (Str.chars ":*") with ([":"%char] ++ ["*"%char]).
  change (Str.chars ":") with [":"%char].
  rewrite !app_assoc.
  set (p := Str.chars prefix ++ [":"%char]).
  assert (Hp : forallb is_literal p = true).
  { unfold p. rewrite forallb_app. unfold glob_free in Hfree. rewrite Hfree. reflexivity. }
  rewrite !length_app.
  replace (S (List.length p + List.length ["*"%char]
              + (List.length p + List.length (Str.chars slug))))
    with (List.length p + (List.length p + List.length (Str.chars slug) + 2))%nat
    by (cbn [List.length]; lia).
  rewrite glob_literal by exact Hp.
  apply glob_star. lia.
Qed.

Lemma lookup_remove_same (key : string) (l : list (string * Mem.entry)) :
  Mem.lookup key (Mem.remove key l) = None.
Proof.
  induction l as [| [k e] l IH]; [reflexivity|].
  unfold Mem.remove in *. cbn [filter fst].
  destruct (String.eqb k key) eqn:Hk; cbn [negb]; [exact IH|].
  cbn [Mem.lookup]. rewrite Hk. exact IH.
Qed.

Lemma lookup_remove_other (key other : string) (l : list (string * Mem.entry)) :
  key <> other ->
  Mem.lookup key (Mem.remove other l) = Mem.lookup key l.
Proof.
  intro Hne. induction l as [| [k e] l IH]; [reflexivity|].
  unfold Mem.remove in *. cbn [filter fst Mem.lookup].
  destruct (String.eqb k other) eqn:Hother; cbn [negb].
  - apply String.eqb_eq in Hother. subst k.
    replace (String.eqb other key) with false
      by (symmetry; apply String.eqb_neq; congruence).
    exact IH.
  - cbn [Mem.lookup]. rewrite IH. reflexivity.
Qed.

Lemma lookup_in (key : string) (e : Mem.entry) (l : list (string * Mem.entry)) :
  Mem.lookup key l = Some e -> In (key, e) l.
Proof.
  induction l as [| [k e'] l IH]; [discriminate|].
  cbn [Mem.lookup]. destruct (String.eqb k key) eqn:Hk.
  - apply String.eqb_eq in Hk. intro H. injection H as ->. left. congruence.
  - intro H. right. exact (IH H).
Qed.

Lemma del_each_store (upstream : string -> settled response) (keys : list string)
  (st : Mem.state) :
  del_each (Mem.over upstream) keys st
  = (Mem.State (without keys (Mem.entries st)) (Mem.clock st),
     map (fun _ => Resolved tt) keys).
Proof.
  revert st. induction keys as [| key keys IH]; intros [entries clock]; [reflexivity|].
  cbn [del_each Mem.over on_del Mem.del]. rewrite IH. reflexivity.
Qed.

Lemma lookup_without (key : string) (keys : list string) (l : list (string * Mem.entry)) :
  Mem.lookup key (without keys l)
  = if existsb (String.eqb key) keys then None else Mem.lookup key l.
Proof.
  revert l. induction keys as [| k keys IH]; intro l; [reflexivity|].
  cbn [without fold_left existsb]. fold (without keys (Mem.remove k l)).
  rewrite IH. destruct (String.eqb key k) eqn:Hk.
  - apply String.eqb_eq in Hk. subst k. cbn [orb].
    rewrite lookup_remove_same. destruct (existsb (String.eqb key) keys); reflexivity.
  - cbn [orb]. rewrite lookup_remove_other by (apply String.eqb_neq; exact Hk).
    reflexivity.
Qed.

Lemma in_without (ke : string * Mem.entry) (keys : list string)
  (l : list (string * Mem.entry)) :
  In ke (without keys l) -> In ke l /\ existsb (String.eqb (fst ke)) keys = false.
Proof.
  revert l. induction keys as [| k keys IH]; intros l Hin; [split; [exact Hin | reflexivity]|].
  cbn [without fold_left] in Hin. fold (without keys (Mem.remove k l)) in Hin.
  apply IH in Hin. destruct Hin as [Hin Hno].
  unfold Mem.remove in Hin. apply filter_In in Hin. destruct Hin as [Hin Hk].
  split; [exact Hin|]. cbn [existsb]. rewrite Hno, orb_false_r.
  apply negb_true_iff in Hk. exact Hk.
Qed.

Lemma filter_none {A : Type} (f : A -> bool) (l : list A) :
  (forall x, In x l -> f x = false) -> filter f l = [].
Proof.
  induction l as [| x l IH]; intro Hno; [reflexivity|].
  cbn [filter]. rewrite (Hno x) by (left; reflexivity).
  apply IH. intros y Hy. apply Hno. right. exact Hy.
Qed.

Section Clearing.

Variable upstream : string -> settled response.

Lemma run_clearCache_store (REDIS_PREFIX : option string) (st : Mem.state) :
  let pattern := (redisPrefix REDIS_PREFIX ++ ":*")%string in
  let keys := map fst (filter (fun ke => Mem.live st (snd ke)
                                         && Mem.key_matches pattern (fst ke))
                              (Mem.entries st)) in
  run (Mem.over upstream) (clearCache REDIS_PREFIX) st
  = (Mem.State (without keys (Mem.entries st)) (Mem.clock st),
     CallKeys pattern :: map CallDel keys, Resolved true).
Proof.
  cbv zeta. unfold clearCache. rewrite run_try_catch, run_bind.
  cbn [asyncKeys run Mem.over on_keys Mem.keys await].
  rewrite run_bind, run_asyncDel_each, del_each_store.
  assert (Hall : forall keys : list string,
             first_rejection (map (fun _ => Resolved tt) keys)
             = Resolved (map (fun _ => tt) keys)).
  { intro keys. induction keys as [| k keys IH]; [reflexivity|].
    cbn [map first_rejection]. rewrite IH. reflexivity. }
  rewrite Hall. cbn. rewrite !app_nil_r. reflexivity.
Qed.

End Clearing.









(** In the in-memory world: after two results were cached, [clearCache]
    lists their keys, deletes both and resolves with [true], leaving the
    store empty; against a store that is down it resolves with [false]. *)
Example clearCache_empties_the_store :
  run (Mem.over Sample.unavailable) (clearCache None)
      (Sample.cached_results [Sample.result_of [3]; Sample.result_of [10; 1]]%Z)
  = (Mem.State [] 0,
     [CallKeys "proftafla:*"; CallDel "proftafla:felagsvisindasvid";
      CallDel "proftafla:heilbrigdisvisindasvid"],
     Resolved true).
Proof. vm_compute. reflexivity. Qed.

Example clearCache_against_a_store_that_is_down :
  run (Sample.store_down Sample.unavailable) (clearCache None) tt
  = (tt, [CallKeys "proftafla:*"; clear_warning], Resolved false).
Proof. reflexivity. Qed.

(** C10. In [getTests], for a slug of the list, a cached text that
    decodes to a falsy value is treated as a miss: the lookup goes on to
    the upstream request and, when the pipeline resolves, sends a SET for
    the key with the fresh result and resolves with that result, not with
    the stored value.  The texts [null], [false], [0] and the empty string
    literal all decode to falsy values. *)
Theorem falsy_cached_value_is_a_miss :
  forall (REDIS_EXPIRE REDIS_PREFIX : option string)
         (cheerio_parse : value -> settled (list node)) (W : Type) (h : world W)
         (slug : string) (item : Division.t) (w w1 : W) (text : string) (v : value),
    find_school slug = Some item ->
    on_get h (key_of REDIS_PREFIX slug) w = (w1, Resolved (Some text)) ->
    JSON.parse text = Some v ->
    Js.truthy v = false ->
    (let key := key_of REDIS_PREFIX slug in
     let url := url_of (Division.id item) in
     exists w2 r2,
       run h (fetchAndParse cheerio_parse (Division.id item) (Division.name item)) w1
       = (w2, [CallFetch url], r2)
       /\ run h (getTests REDIS_EXPIRE REDIS_PREFIX cheerio_parse slug) w =
          match r2 with
          | Rejected e => (w2, [CallGet key; CallFetch url], Rejected e)
          | Resolved data =>
              let fresh := DivisionResult.to_value data in
              let '(w3, reply) := on_set h key (JSON.stringify fresh) REDIS_EXPIRE w2 in
              (w3,
               [CallGet key; CallFetch url; CallSet key (JSON.stringify fresh) REDIS_EXPIRE]
                 ++ (if is_rejected reply then [set_warning key] else []),
               Resolved fresh)
          end)
    /\ Forall (fun t => exists x, JSON.parse t = Some x /\ Js.truthy x = false)
              ["null"; "false"; "0"; Str.of_chars [JSON.dquote; JSON.dquote]].
Proof.
  intros REDIS_EXPIRE REDIS_PREFIX cheerio_parse W h slug item w w1 text v
         Hfind Hget Hparse Hfalsy.
  split.
  - cbv zeta.
    pose proof (run_fetchAndParse cheerio_parse h (Division.id item)
                  (Division.name item) w1) as Hfetch.
    destruct (on_fetch h (url_of (Division.id item)) w1) as [w2 reply].
    eexists w2, _. split; [exact Hfetch|].
    rewrite (run_getTests _ _ _ _ slug item w Hfind). cbv zeta.
    rewrite run_getFromCache, Hget. simpl reply_text. rewrite Hparse, Hfalsy.
    rewrite Hfetch.
    match goal with
    | |- context [match ?r with Resolved _ => _ | Rejected _ => _ end] =>
        destruct r as [data | e]
    end; [|reflexivity].
    rewrite run_cache.
    destruct (on_set h (key_of REDIS_PREFIX slug)
                (JSON.stringify (DivisionResult.to_value data)) REDIS_EXPIRE w2)
      as [w3 reply3].
    reflexivity.
  - repeat constructor.
    + exists VNull. split; reflexivity.
    + exists (VBool false). split; reflexivity.
    + exists (VNumber (S754_zero false)). split; reflexivity.
    + exists (VString ""). split; reflexivity.
Qed.

Lemma falsy_cached_value_is_a_miss_witness :
  run (Mem.over Sample.serving)
      (getTests (Some "60") None Sample.load "hugvisindasvid")
      (Sample.holding "hugvisindasvid" "0")
  = (let fresh :=
       DivisionResult.to_value
         (DivisionResult.Make "Hugvísindasvið"
            (map Fragment.department Sample.sections)) in
     (fst (Mem.set "proftafla:hugvisindasvid" (JSON.stringify fresh) (Some "60")
             (Sample.holding "hugvisindasvid" "0")),
      [CallGet "proftafla:hugvisindasvid"; CallFetch (url_of (Num.of_Z 3));
       CallSet "proftafla:hugvisindasvid" (JSON.stringify fresh) (Some "60")],
      Resolved fresh)).
Proof.
  destruct (falsy_cached_value_is_a_miss (Some "60") None Sample.load Mem.state
              (Mem.over Sample.serving) "hugvisindasvid"
              (Division.Make "Hugvísindasvið" (Num.of_Z 3) "hugvisindasvid")
              (Sample.holding "hugvisindasvid" "0")
              (Sample.holding "hugvisindasvid" "0")
              "0" (VNumber (S754_zero false))
              eq_refl eq_refl eq_refl eq_refl) as [(w2 & r2 & Hfetch & Hrun) _].
  rewrite Hrun. clear Hrun.
  vm_compute in Hfetch. inversion Hfetch; subst. vm_compute. reflexivity.
Defined.

(** ** The order of numbers *)

Ltac compare_cases :=
  repeat match goal with
    | |- context [Z.compare ?a ?b] => destruct (Z.compare_spec a b)
    | H : context [Z.compare ?a ?b] |- _ => destruct (Z.compare_spec a b)
    | |- context [Pos.compare_cont Eq ?a ?b] =>
        change (Pos.compare_cont Eq a b) with (Pos.compare a b);
        destruct (Pos.compare_spec a b)
    | H : context [Pos.compare_cont Eq ?a ?b] |- _ =>
        change (Pos.compare_cont Eq a b) with (Pos.compare a b) in H;
        destruct (Pos.compare_spec a b)
    end.

Ltac by_cases_on_numbers :=
  unfold Num.le, Num.lt, Num.gt, Num.equal, SFleb, SFltb, SFeqb, SFcompare;
  repeat match goal with
    | x : Num.number |- _ => destruct x as [[] | [] | | [] ? ?]
    end;
  simpl; try easy; intros; compare_cases; simpl in *; try easy; try lia.

Lemma le_trans (x y z : Num.number) :
  Num.le x y = true -> Num.le y z = true -> Num.le x z = true.
Proof. by_cases_on_numbers. Qed.

Lemma le_refl (x : Num.number) : Num.is_nan x = false -> Num.le x x = true.
Proof. by_cases_on_numbers. Qed.

Lemma not_lt_le (x y : Num.number) :
  Num.is_nan x = false -> Num.is_nan y = false ->
  Num.lt x y = false -> Num.le y x = true.
Proof. by_cases_on_numbers. Qed.

Lemma lt_le (x y : Num.number) : Num.lt x y = true -> Num.le x y = true.
Proof. by_cases_on_numbers. Qed.

Lemma le_antisym (x y : Num.number) :
  Num.le x y = true -> Num.le y x = true -> Num.equal x y = true.
Proof. by_cases_on_numbers. Qed.

Lemma equal_refl (x : Num.number) : Num.is_nan x = false -> Num.equal x x = true.
Proof. by_cases_on_numbers. Qed.

Lemma equal_le (x y : Num.number) : Num.equal x y = true -> Num.le y x = true.
Proof. by_cases_on_numbers. Qed.

(** ** The fold of [getStats] *)

Lemma count_test_number (c : Totals.t) (t : Test.t) :
  count_test (Test.to_value t) (Totals.to_counters c)
  = Resolved (Totals.to_counters (Totals.count c (Test.students t))).
Proof.
  unfold count_test, get_then, Totals.to_counters, Totals.count, Num.gt.
  cbn [Js.get Test.to_value Js.lookup String.eqb Ascii.eqb Bool.eqb
       c_min c_max c_numTests c_numStudents
       Js.and_then Js.plus Js.greater_than Js.less_than Js.to_primitive
       Js.add Js.before Js.number_of].
  unfold Num.lt.
  destruct (SFltb (Totals.max c) (Test.students t)),
           (SFltb (Test.students t) (Totals.min c)); reflexivity.
Qed.

Lemma each_count_test (ts : list Test.t) (c : Totals.t) :
  each count_test (map Test.to_value ts) (Totals.to_counters c)
  = Resolved (Totals.to_counters (Totals.count_all (map Test.students ts) c)).
Proof.
  revert c. induction ts as [| t ts IH]; intro c; [reflexivity|].
  cbn [map each]. rewrite count_test_number. apply IH.
Qed.

Lemma each_count_department (ds : list Department.t) (c : Totals.t) :
  each count_department (map Department.to_value ds) (Totals.to_counters c)
  = Resolved (Totals.to_counters
                (Totals.count_all (map Test.students (flat_map Department.tests ds)) c)).
Proof.
  revert c. induction ds as [| d ds IH]; intro c; [reflexivity|].
  cbn [map each flat_map].
  replace (count_department (Department.to_value d) (Totals.to_counters c))
    with (each count_test (map Test.to_value (Department.tests d)) (Totals.to_counters c))
    by reflexivity.
  rewrite each_count_test, IH.
  unfold Totals.count_all. rewrite map_app, fold_left_app. reflexivity.
Qed.

Lemma each_count_school (rs : list DivisionResult.t) (c : Totals.t) :
  each count_school (map DivisionResult.to_value rs) (Totals.to_counters c)
  = Resolved (Totals.to_counters (Totals.count_all (students_of rs) c)).
Proof.
  revert c. induction rs as [| r rs IH]; intro c; [reflexivity|].
  cbn [map each].
  replace (count_school (DivisionResult.to_value r) (Totals.to_counters c))
    with (each count_department
            (map Department.to_value (DivisionResult.departments r))
            (Totals.to_counters c))
    by reflexivity.
  rewrite each_count_department, IH.
  unfold students_of, Totals.count_all, DivisionResult.all_tests.
  cbn [flat_map]. rewrite !map_app, fold_left_app. reflexivity.
Qed.

(** On results of the pipeline the statistics are those of the numeric
    fold over all student counts, in order. *)
Lemma stats_of_results (rs : list DivisionResult.t) :
  stats_of (map DivisionResult.to_value rs)
  = Resolved (Totals.to_stats (Totals.count_all (students_of rs) Totals.initial)).
Proof.
  unfold stats_of.
  change initial with (Totals.to_counters Totals.initial).
  rewrite each_count_school. reflexivity.
Qed.

Lemma run_getStats (REDIS_EXPIRE REDIS_PREFIX : option string)
  (cheerio_parse : value -> settled (list node)) {W : Type} (h : world W) (w w' : W)
  (calls : list call) (all : list value) :
  run h (lookups REDIS_EXPIRE REDIS_PREFIX cheerio_parse) w = (w', calls, Resolved all) ->
  run h (getStats REDIS_EXPIRE REDIS_PREFIX cheerio_parse) w = (w', calls, stats_of all).
Proof.
  intro Hall. unfold getStats. rewrite run_bind, Hall.
  destruct (stats_of all); simpl; rewrite app_nil_r; reflexivity.
Qed.

(** The running minimum and maximum, seeds included. *)
Lemma count_all_no_nan_extremes (xs : list Num.number) (c : Totals.t) :
  Forall (fun x => Num.is_nan x = false) xs ->
  Num.is_nan (Totals.min c) = false ->
  Num.is_nan (Totals.max c) = false ->
  is_minimum (Totals.min (Totals.count_all xs c)) (Totals.min c :: xs)
  /\ is_maximum (Totals.max (Totals.count_all xs c)) (Totals.max c :: xs).
Proof.
  intro Hxs. revert c.
  induction Hxs as [| x xs Hx Hxs IH]; intros c Hmin Hmax.
  - simpl. split; (split;
      [eexists; split; [left; reflexivity | apply equal_refl; assumption]
      | intros y [<- | []]; apply le_refl; assumption]).
  - cbn [Totals.count_all fold_left].
    change (fold_left Totals.count xs (Totals.count c x))
      with (Totals.count_all xs (Totals.count c x)).
    set (c1 := Totals.count c x).
    assert (Hmin1 : Num.is_nan (Totals.min c1) = false).
    { unfold c1; simpl. destruct (Num.lt x (Totals.min c)); assumption. }
    assert (Hmax1 : Num.is_nan (Totals.max c1) = false).
    { unfold c1; simpl. destruct (Num.gt x (Totals.max c)); assumption. }
    destruct (IH c1 Hmin1 Hmax1) as [[(a & Ha & Haeq) Hle] [(b & Hb & Hbeq) Hge]].
    assert (Hlow : Num.le (Totals.min c1) (Totals.min c) = true
                   /\ Num.le (Totals.min c1) x = true
                   /\ (Totals.min c1 = Totals.min c \/ Totals.min c1 = x)).
    { unfold c1; simpl. destruct (Num.lt x (Totals.min c)) eqn:Hlt.
      - split; [apply lt_le; assumption|]. split; [apply le_refl; assumption|].
        right; reflexivity.
      - split; [apply le_refl; assumption|].
        split; [apply not_lt_le; assumption|]. left; reflexivity. }
    assert (Hhigh : Num.le (Totals.max c) (Totals.max c1) = true
                    /\ Num.le x (Totals.max c1) = true
                    /\ (Totals.max c1 = Totals.max c \/ Totals.max c1 = x)).
    { unfold c1; simpl. unfold Num.gt. destruct (SFltb (Totals.max c) x) eqn:Hlt.
      - split; [apply lt_le; assumption|]. split; [apply le_refl; assumption|].
        right; reflexivity.
      - split; [apply le_refl; assumption|].
        split; [apply not_lt_le; assumption|]. left; reflexivity. }
    destruct Hlow as (Hl1 & Hl2 & Hl3). destruct Hhigh as (Hh1 & Hh2 & Hh3).
    split; split.
    + destruct Ha as [<- | Ha].
      * destruct Hl3 as [Heq | Heq]; rewrite Heq in Haeq.
        -- exists (Totals.min c). split; [left; reflexivity | exact Haeq].
        -- exists x. split; [right; left; reflexivity | exact Haeq].
      * exists a. split; [right; right; exact Ha | exact Haeq].
    + intros y [<- | [<- | Hy]].
      * eapply le_trans; [apply Hle; left; reflexivity | exact Hl1].
      * eapply le_trans; [apply Hle; left; reflexivity | exact Hl2].
      * apply Hle. right; exact Hy.
    + destruct Hb as [<- | Hb].
      * destruct Hh3 as [Heq | Heq]; rewrite Heq in Hbeq.
        -- exists (Totals.max c). split; [left; reflexivity | exact Hbeq].
        -- exists x. split; [right; left; reflexivity | exact Hbeq].
      * exists b. split; [right; right; exact Hb | exact Hbeq].
    + intros y [<- | [<- | Hy]].
      * eapply le_trans; [exact Hh1 | apply Hge; left; reflexivity].
      * eapply le_trans; [exact Hh2 | apply Hge; left; reflexivity].
      * apply Hge. right; exact Hy.
Qed.

(** A seed that some value reaches does not show in the extreme. *)
Lemma minimum_without_seed (m seed : Num.number) (xs : list Num.number) :
  is_minimum m (seed :: xs) ->
  (exists x, In x xs /\ Num.le x seed = true) ->
  is_minimum m xs.
Proof.
  intros [(a & Ha & Haeq) Hle] (x & Hx & Hxs). split.
  - destruct Ha as [<- | Ha].
    + exists x. split; [exact Hx|]. apply le_antisym.
      * apply Hle. right; exact Hx.
      * eapply le_trans; [exact Hxs | apply equal_le; exact Haeq].
    + exists a. split; assumption.
  - intros y Hy. apply Hle. right; exact Hy.
Qed.

Lemma equal_sym (x y : Num.number) : Num.equal x y = true -> Num.equal y x = true.
Proof. by_cases_on_numbers. Qed.

Lemma maximum_without_seed (m seed : Num.number) (xs : list Num.number) :
  is_maximum m (seed :: xs) ->
  (exists x, In x xs /\ Num.le seed x = true) ->
  is_maximum m xs.
Proof.
  intros [(a & Ha & Haeq) Hge] (x & Hx & Hxs). split.
  - destruct Ha as [<- | Ha].
    + exists x. split; [exact Hx|]. apply le_antisym.
      * eapply le_trans; [apply equal_le, equal_sym; exact Haeq | exact Hxs].
      * apply Hge. right; exact Hx.
    + exists a. split; assumption.
  - intros y Hy. apply Hge. right; exact Hy.
Qed.

Lemma permutation_of_three {A : Type} (a b c : A) (l : list A) :
  Permutation l [a; b; c] ->
  l = [a; b; c] \/ l = [a; c; b] \/ l = [b; a; c]
  \/ l = [b; c; a] \/ l = [c; a; b] \/ l = [c; b; a].
Proof.
  intro Hp.
  assert (Hlen := Permutation_length Hp).
  destruct l as [| x [| y [| z [| ? ?]]]]; try discriminate Hlen.
  assert (Hx : In x [a; b; c])
    by (eapply Permutation_in; [exact Hp | left; reflexivity]).
  destruct Hx as [<- | [<- | [<- | []]]].
  - apply Permutation_cons_inv, Permutation_sym, Permutation_length_2_inv in Hp.
    destruct Hp as [Hp | Hp]; inversion Hp; subst; auto.
  - assert (Hq : Permutation (b :: [y; z]) (b :: [a; c]))
      by (eapply Permutation_trans; [exact Hp | apply perm_swap]).
    apply Permutation_cons_inv, Permutation_sym, Permutation_length_2_inv in Hq.
    destruct Hq as [Hq | Hq]; inversion Hq; subst; auto 6.
  - assert (Hq : Permutation (c :: [y; z]) (c :: [a; b])).
    { eapply Permutation_trans; [exact Hp|].
      eapply Permutation_trans; [apply perm_skip, perm_swap | apply perm_swap]. }
    apply Permutation_cons_inv, Permutation_sym, Permutation_length_2_inv in Hq.
    destruct Hq as [Hq | Hq]; inversion Hq; subst; auto 7.
Qed.

(** C2. When the lookups of [getStats] resolve with results whose tests
    have the student counts 3, 10 and 1 (in any order, over any divisions
    and departments), [getStats] resolves with numTests 3, numStudents 14,
    min 1, max 10 and the average as the string "4.67", two digits after
    the point. *)
Theorem getStats_of_three_ten_one :
  forall (REDIS_EXPIRE REDIS_PREFIX : option string)
         (cheerio_parse : value -> settled (list node)) (W : Type) (h : world W)
         (w w' : W) (calls : list call) (results : list DivisionResult.t),
    run h (lookups REDIS_EXPIRE REDIS_PREFIX cheerio_parse) w
    = (w', calls, Resolved (map DivisionResult.to_value results)) ->
    Permutation (students_of results) [Num.of_Z 3; Num.of_Z 10; Num.of_Z 1] ->
    run h (getStats REDIS_EXPIRE REDIS_PREFIX cheerio_parse) w
    = (w', calls,
       Resolved (Stats.Make (VNumber (Num.of_Z 1)) (VNumber (Num.of_Z 10))
                            (Num.of_Z 3) (VNumber (Num.of_Z 14)) "4.67")).
Proof.
  intros REDIS_EXPIRE REDIS_PREFIX cheerio_parse W h w w' calls results Hall Hperm.
  rewrite (run_getStats _ _ _ h w w' calls _ Hall), stats_of_results.
  apply permutation_of_three in Hperm.
  destruct Hperm as [-> | [-> | [-> | [-> | [-> | ->]]]]]; reflexivity.
Qed.

Lemma getStats_of_three_ten_one_witness :
  let results :=
    [Sample.result_of [3]; Sample.result_of []; Sample.result_of [10; 1];
     Sample.result_of []; Sample.result_of []]%Z in
  Permutation (students_of results) [Num.of_Z 3; Num.of_Z 10; Num.of_Z 1]
  /\ run (Mem.over Sample.unavailable) (getStats (Some "60") None Sample.load)
         (Sample.cached_results results)
     = (Sample.cached_results results,
        map (fun d => CallGet (key_of None (Division.slug d))) schools,
        Resolved (Stats.Make (VNumber (Num.of_Z 1)) (VNumber (Num.of_Z 10))
                             (Num.of_Z 3) (VNumber (Num.of_Z 14)) "4.67")).
Proof.
  intro results.
  assert (Hperm : Permutation (students_of results)
                    [Num.of_Z 3; Num.of_Z 10; Num.of_Z 1])
    by apply Permutation_refl.
  split; [exact Hperm|].
  apply (getStats_of_three_ten_one (Some "60") None Sample.load Mem.state
           (Mem.over Sample.unavailable) (Sample.cached_results results)
           (Sample.cached_results results) _ results);
    [vm_compute; reflexivity | exact Hperm].
Defined.

(** C3, as stated, fails: when the only test of all divisions has 1000
    students there is a test, yet [getStats] resolves with [min] at the
    seed 999 (and [max] 1000): 999 is not the least, not even one, of the
    student counts. *)
Lemma minimum_above_the_seed_is_missed :
  let results :=
    [Sample.result_of [1000]; Sample.result_of []; Sample.result_of [];
     Sample.result_of []; Sample.result_of []]%Z in
  students_of results = [Num.of_Z 1000]
  /\ snd (run (Mem.over Sample.unavailable) (getStats (Some "60") None Sample.load)
              (Sample.cached_results results))
     = Resolved (Stats.Make (VNumber (Num.of_Z 999)) (VNumber (Num.of_Z 1000))
                            (Num.of_Z 1) (VNumber (Num.of_Z 1000)) "1000.00")
  /\ ~ is_minimum (Num.of_Z 999) (students_of results)
  /\ ~ tracks_true_min_max results.
Proof.
  intro results.
  assert (Hnot : ~ is_minimum (Num.of_Z 999) (students_of results)).
  { intros [(x & Hx & Heq) _]. destruct Hx as [<- | []].
    vm_compute in Heq. discriminate Heq. }
  split; [reflexivity|]. split; [vm_compute; reflexivity|]. split; [exact Hnot|].
  intros (st & mn & mx & Hst & Hmin & _ & Hleast & _).
  rewrite stats_of_results in Hst.
  assert (Hmn : mn = Num.of_Z 999).
  { assert (Hm : Stats.min st = VNumber (Num.of_Z 999))
      by (injection Hst as <-; reflexivity).
    rewrite Hm in Hmin. injection Hmin as <-. reflexivity. }
  rewrite Hmn in Hleast. exact (Hnot Hleast).
Qed.

(** C3, amended.  When the lookups resolve with results none of whose
    student counts is NaN, [getStats] resolves with [min] the least of the
    seed 999 and the student counts and [max] the greatest of the seed 0
    and the student counts.  So [min] is the least of the student counts
    whenever one of them is at most 999, and [max] the greatest whenever
    one of them is at least 0. *)
Theorem getStats_min_max_with_seeds :
  forall (REDIS_EXPIRE REDIS_PREFIX : option string)
         (cheerio_parse : value -> settled (list node)) (W : Type) (h : world W)
         (w w' : W) (calls : list call) (results : list DivisionResult.t),
    run h (lookups REDIS_EXPIRE REDIS_PREFIX cheerio_parse) w
    = (w', calls, Resolved (map DivisionResult.to_value results)) ->
    Forall (fun x => Num.is_nan x = false) (students_of results) ->
    exists st mn mx,
      run h (getStats REDIS_EXPIRE REDIS_PREFIX cheerio_parse) w
      = (w', calls, Resolved st)
      /\ Stats.min st = VNumber mn /\ Stats.max st = VNumber mx
      /\ is_minimum mn (Num.of_Z 999 :: students_of results)
      /\ is_maximum mx (Num.of_Z 0 :: students_of results)
      /\ ((exists x, In x (students_of results) /\ Num.le x (Num.of_Z 999) = true) ->
          is_minimum mn (students_of results))
      /\ ((exists x, In x (students_of results) /\ Num.le (Num.of_Z 0) x = true) ->
          is_maximum mx (students_of results)).
Proof.
  intros REDIS_EXPIRE REDIS_PREFIX cheerio_parse W h w w' calls results Hall Hnum.
  set (c := Totals.count_all (students_of results) Totals.initial).
  exists (Totals.to_stats c), (Totals.min c), (Totals.max c).
  destruct (count_all_no_nan_extremes (students_of results) Totals.initial Hnum
              eq_refl eq_refl) as [Hmin Hmax].
  fold c in Hmin, Hmax.
  change (Totals.min Totals.initial) with (Num.of_Z 999) in Hmin.
  change (Totals.max Totals.initial) with (Num.of_Z 0) in Hmax.
  split; [|split; [reflexivity | split; [reflexivity|]]].
  - rewrite (run_getStats _ _ _ h w w' calls _ Hall), stats_of_results.
    reflexivity.
  - split; [exact Hmin|]. split; [exact Hmax|]. split.
    + intro Hsome. eapply minimum_without_seed; [exact Hmin | exact Hsome].
    + intro Hsome. eapply maximum_without_seed; [exact Hmax | exact Hsome].
Qed.

Lemma getStats_min_max_with_seeds_witness :
  let results :=
    [Sample.result_of [3]; Sample.result_of []; Sample.result_of [10; 1];
     Sample.result_of []; Sample.result_of []]%Z in
  Forall (fun x => Num.is_nan x = false) (students_of results)
  /\ exists st mn mx,
       run (Mem.over Sample.unavailable) (getStats (Some "60") None Sample.load)
           (Sample.cached_results results)
       = (Sample.cached_results results,
          map (fun d => CallGet (key_of None (Division.slug d))) schools,
          Resolved st)
       /\ Stats.min st = VNumber mn /\ Stats.max st = VNumber mx
       /\ is_minimum mn (Num.of_Z 999 :: students_of results)
       /\ is_maximum mx (Num.of_Z 0 :: students_of results)
       /\ ((exists x, In x (students_of results) /\ Num.le x (Num.of_Z 999) = true) ->
           is_minimum mn (students_of results))
       /\ ((exists x, In x (students_of results) /\ Num.le (Num.of_Z 0) x = true) ->
           is_maximum mx (students_of results)).
Proof.
  intro results.
  assert (Hnum : Forall (fun x => Num.is_nan x = false) (students_of results))
    by (repeat constructor).
  split; [exact Hnum|].
  apply (getStats_min_max_with_seeds (Some "60") None Sample.load Mem.state
           (Mem.over Sample.unavailable) (Sample.cached_results results)
           (Sample.cached_results results) _ results);
    [vm_compute; reflexivity | exact Hnum].
Defined.

(** C6. When the lookups resolve with results that hold no test at all,
    [getStats] resolves with [min] the seed 999, [max] 0, both counts 0 and
    the average "NaN": the quotient of zero by zero is NaN, it is not
    guarded, and [toFixed] spells it so. *)
Theorem getStats_without_tests :
  forall (REDIS_EXPIRE REDIS_PREFIX : option string)
         (cheerio_parse : value -> settled (list node)) (W : Type) (h : world W)
         (w w' : W) (calls : list call) (results : list DivisionResult.t),
    run h (lookups REDIS_EXPIRE REDIS_PREFIX cheerio_parse) w
    = (w', calls, Resolved (map DivisionResult.to_value results)) ->
    flat_map DivisionResult.all_tests results = [] ->
    run h (getStats REDIS_EXPIRE REDIS_PREFIX cheerio_parse) w
    = (w', calls,
       Resolved (Stats.Make (VNumber (Num.of_Z 999)) (VNumber (Num.of_Z 0))
                            (Num.of_Z 0) (VNumber (Num.of_Z 0)) "NaN"))
    /\ Js.divide (VNumber (Num.of_Z 0)) (VNumber (Num.of_Z 0)) = Resolved Num.nan
    /\ Num.toFixed Num.nan 2 = "NaN".
Proof.
  intros REDIS_EXPIRE REDIS_PREFIX cheerio_parse W h w w' calls results Hall Hnone.
  split; [|split; reflexivity].
  rewrite (run_getStats _ _ _ h w w' calls _ Hall), stats_of_results.
  unfold students_of. rewrite Hnone. reflexivity.
Qed.

Lemma getStats_without_tests_witness :
  let results :=
    [Sample.result_of []; Sample.result_of []; Sample.result_of [];
     Sample.result_of []; Sample.result_of []] in
  flat_map DivisionResult.all_tests results = []
  /\ run (Mem.over Sample.unavailable) (getStats (Some "60") None Sample.load)
         (Sample.cached_results results)
     = (Sample.cached_results results,
        map (fun d => CallGet (key_of None (Division.slug d))) schools,
        Resolved (Stats.Make (VNumber (Num.of_Z 999)) (VNumber (Num.of_Z 0))
                             (Num.of_Z 0) (VNumber (Num.of_Z 0)) "NaN")).
Proof.
  intro results.
  split; [reflexivity|].
  apply (getStats_without_tests (Some "60") None Sample.load Mem.state
           (Mem.over Sample.unavailable) (Sample.cached_results results)
           (Sample.cached_results results) _ results);
    [vm_compute; reflexivity | reflexivity].
Defined.

(** ** Decimal spellings

    [Number] reads the decimal spelling of a non-negative integer as that
    integer. *)















(** ** The selections on a fragment *)

Section Selections.

Import Fragment.

Lemma select_element rest index name kids after :
  Cheerio.select rest index (Element name kids) after =
  match rest with
  | [] => []
  | [c] =>
      (if Cheerio.matches c index name then [Cheerio.El name kids after] else [])
      ++ Cheerio.select_forest [c] 1 kids
  | c :: rest' =>
      Cheerio.select_forest (if Cheerio.matches c index name then rest' else rest) 1 kids
  end.
Proof.
  assert (Hforest : forall rest' i l,
    (fix forest (i : nat) (l : list node) {struct l} : list Cheerio.element :=
       match l with
       | [] => []
       | x :: l' =>
           Cheerio.select rest' i x l'
           ++ forest (if Cheerio.is_element x then S i else i) l'
       end) i l = Cheerio.select_forest rest' i l).
  { intros rest' i l. revert i. induction l as [| x l IH]; intro i; [reflexivity|].
    cbn [Cheerio.select_forest]. rewrite <- IH. reflexivity. }
  destruct rest as [| c [| c2 rest']]; [reflexivity | |].
  - cbn [Cheerio.select]. rewrite Hforest. reflexivity.
  - cbn [Cheerio.select]. rewrite Hforest. reflexivity.
Qed.






















End Selections.

(** Induction on trees. *)
Lemma node_forest_ind (P : node -> Prop) :
  (forall data, P (Text data)) ->
  (forall data, P (Comment data)) ->
  (forall tag kids, Forall P kids -> P (Element tag kids)) ->
  forall n, P n.
Proof.
  intros Htext Hcomment Helement.
  fix IH 1. intros [data | data | tag kids].
  - apply Htext.
  - apply Hcomment.
  - apply Helement. induction kids as [| k kids IHkids]; constructor.
    + apply IH.
    + exact IHkids.
Qed.

(** ** The document as the specification reads it *)

















(** The smallest page with a test, and a page whose table comes after
    another element. *)
Example smallest_page_departments :
  parse_departments
    (fun _ => Resolved [Element "h3" [Text "A"];
                        Element "table"
                          [Element "tbody" [Element "tr" [Element "td" [Text "1"]]]]])
    (VString "")
  = Resolved [Department.Make "A" [Test.Make "1" "" "" (S754_zero false) ""]].
Proof. vm_compute. reflexivity. Qed.

(** What a [script] or a [style] element holds is no text of a heading
    or of a cell. *)
Example script_and_style_are_left_out :
  parse_departments
    (fun _ => Resolved
       [Element "h3" [Text "S"; Element "script" [Text "var h = 1;"]; Text "K"];
        Element "table"
          [Element "tbody"
             [Element "tr"
                [Element "td" [Text "A"]; Element "td" [Text "B"]; Element "td" [Text "C"];
                 Element "td" [Text "1"; Element "style" [Text "2"]; Text "4"];
                 Element "td" [Text "D"]]]]])
    (VString "")
  = Resolved [Department.Make "SK" [Test.Make "A" "B" "C" (Num.of_Z 14) "D"]].
Proof. vm_compute. reflexivity. Qed.

(** The departments of the sample page, spelled out: two headings, two
    and one body rows. *)
Example sample_page_departments :
  map Fragment.department Sample.sections
  = [ Department.Make "Lagadeild"
        [ Test.Make "LÖG101G" "Inngangur að lögfræði" "Skriflegt"
                    (Num.of_Z 42) "3. des 2018";
          Test.Make "LÖG103G" "Stjórnskipunarréttur" "Skriflegt"
                    (Num.of_Z 7) "5. des 2018" ];
      Department.Make "Hagfræðideild"
        [ Test.Make "HAG101G" "Rekstrarhagfræði" "Munnlegt"
                    Num.nan "7. des 2018" ] ].
Proof. vm_compute. reflexivity. Qed.

(** ** The cache round trip *)

Lemma requests_app (a b : list call) : requests (a ++ b) = (requests a + requests b)%nat.
Proof. unfold requests. rewrite filter_app, length_app. reflexivity. Qed.

(** What comes back equals the result when every student count is a
    finite number other than negative zero. *)
Lemma cached_test_exact (t : Test.t) :
  Cached.exact (Test.students t) = true -> Cached.test t = Test.to_value t.
Proof.
  intro Ht. unfold Cached.test, Test.to_value.
  destruct (Test.students t) as [[] | | |]; try discriminate Ht; reflexivity.
Qed.

Lemma cached_tests_exact (ts : list Test.t) :
  Forall (fun x => Cached.exact x = true) (map Test.students ts) ->
  map Cached.test ts = map Test.to_value ts.
Proof.
  induction ts as [| t ts IH]; intro Hts; [reflexivity|].
  cbn [map] in *. inversion Hts as [| ? ? Ht Hrest]; subst.
  rewrite (cached_test_exact t Ht), (IH Hrest). reflexivity.
Qed.

Lemma cached_departments_exact (ds : list Department.t) :
  Forall (fun x => Cached.exact x = true)
         (map Test.students (flat_map Department.tests ds)) ->
  map Cached.department ds = map Department.to_value ds.
Proof.
  induction ds as [| d ds IH]; intro Hds; [reflexivity|].
  cbn [flat_map] in Hds. rewrite map_app in Hds.
  apply Forall_app in Hds. destruct Hds as [Hd Hrest].
  cbn [map]. rewrite (IH Hrest).
  unfold Cached.department, Department.to_value.
  rewrite (cached_tests_exact _ Hd). reflexivity.
Qed.

Lemma cached_result_exact (data : DivisionResult.t) :
  Forall (fun x => Cached.exact x = true) (students_of [data]) ->
  Cached.result data = DivisionResult.to_value data.
Proof.
  unfold students_of, DivisionResult.all_tests. cbn [flat_map]. rewrite app_nil_r.
  intro Hexact. unfold Cached.result, DivisionResult.to_value.
  rewrite (cached_departments_exact _ Hexact). reflexivity.
Qed.

Section MemoryStore.

Variable upstream : string -> settled response.

Lemma get_after_set (key text ttl : string) (n dt : Z) (st : Mem.state) :
  Mem.seconds (Some ttl) = Some n ->
  (0 <= dt < n)%Z ->
  Mem.get key (Mem.tick dt (fst (Mem.set key (Some text) (Some ttl) st)))
  = (Mem.tick dt (fst (Mem.set key (Some text) (Some ttl) st)), Resolved (Some text)).
Proof.
  intros Httl Hdt. unfold Mem.set. rewrite Httl. cbn [fst].
  unfold Mem.get, Mem.tick. cbn [Mem.entries Mem.clock Mem.lookup].
  rewrite String.eqb_refl. unfold Mem.live. cbn [Mem.clock Mem.expires Mem.text].
  replace (Mem.clock st + dt <? Mem.clock st + n)%Z with true
    by (symmetry; apply Z.ltb_lt; lia).
  reflexivity.
Qed.

End MemoryStore.

(** ** Reading back what [JSON.stringify] writes *)

Section RoundTrip.

Import JSON Cached.

Lemma string_body_quote_char (c : ascii) (tail : list ascii) :
  string_body (quote_char c ++ tail)
  = match string_body tail with
    | Some (us, r) => Some (unit_of c :: us, r)
    | None => None
    end.
Proof.
  destruct c as [[] [] [] [] [] [] [] []]; reflexivity.
Qed.

Lemma encode_unit_of (c : ascii) (us : list unit16) :
  encode (unit_of c :: us) = c :: encode us.
Proof.
  destruct c as [[] [] [] [] [] [] [] []]; try reflexivity;
    destruct us as [| [c2 | lo] us']; reflexivity.
Qed.

Lemma string_body_quote (cs rest : list ascii) :
  string_body (flat_map quote_char cs ++ dquote :: rest) = Some (map unit_of cs, rest).
Proof.
  induction cs as [| c cs IH]; [reflexivity|].
  cbn [flat_map map]. rewrite <- app_assoc, string_body_quote_char, IH. reflexivity.
Qed.

Lemma encode_units (cs : list ascii) : encode (map unit_of cs) = cs.
Proof.
  induction cs as [| c cs IH]; [reflexivity|].
  cbn [map]. rewrite encode_unit_of, IH. reflexivity.
Qed.

Lemma string_literal_quote (s : string) (rest : list ascii) :
  string_literal (flat_map quote_char (Str.chars s) ++ dquote :: rest) = Some (s, rest).
Proof.
  unfold string_literal. rewrite string_body_quote, encode_units.
  unfold Str.of_chars, Str.chars. rewrite string_of_list_ascii_of_string. reflexivity.
Qed.

Lemma skip_ws_delimiter (c : ascii) (rest : list ascii) :
  delimiter c -> skip_ws (c :: rest) = c :: rest.
Proof. intros [-> | [-> | ->]]; reflexivity. Qed.

Lemma reads_more (bound bound' : nat) (t : list ascii) (v : value) :
  (bound <= bound')%nat -> reads bound t v -> reads bound' t v.
Proof. intros Hle H fuel c rest Hfuel Hc. apply H; [lia | exact Hc]. Qed.

Lemma reads_string (s : string) : reads 1 (quote s) (VString s).
Proof.
  intros fuel c rest Hfuel Hc. destruct fuel as [| fuel]; [lia|]. unfold quote.
  cbn [parse_value app skip_ws].
  change (nat_of_ascii dquote) with 34%nat. cbn [Nat.eqb orb].
  change (Ascii.eqb dquote "[") with false. change (Ascii.eqb dquote "{") with false.
  change (Ascii.eqb dquote dquote) with true. cbv iota.
  rewrite <- app_assoc. cbn [app]. rewrite string_literal_quote.
  rewrite skip_ws_delimiter by exact Hc. reflexivity.
Qed.

Lemma skip_ws_quote (k : string) (rest : list ascii) :
  skip_ws (quote k ++ rest) = quote k ++ rest.
Proof. reflexivity. Qed.

Lemma members_step (bound : nat) (k : string) (t : list ascii) (v : value)
  (fuel : nat) (rest : list ascii) (acc : list (string * value)) :
  reads bound t v -> (bound < fuel)%nat ->
  parse_members fuel (quote k ++ ":"%char :: t ++ ","%char :: rest) acc
  = parse_members (fuel - 1) rest (define k v acc).
Proof.
  intros Hread Hfuel. destruct fuel as [| fuel]; [lia|].
  replace (S fuel - 1)%nat with fuel by lia.
  cbn [parse_members]. rewrite skip_ws_quote. unfold quote at 1.
  cbn [app]. change (Ascii.eqb dquote dquote) with true. cbv iota.
  rewrite <- app_assoc. cbn [app]. rewrite string_literal_quote.
  change (skip_ws (":"%char :: t ++ ","%char :: rest)) with (":"%char :: t ++ ","%char :: rest).
  cbv beta iota.
  rewrite (Hread fuel ","%char rest) by (try lia; left; reflexivity).
  reflexivity.
Qed.

Lemma members_last (bound : nat) (k : string) (t : list ascii) (v : value)
  (fuel : nat) (rest : list ascii) (acc : list (string * value)) :
  reads bound t v -> (bound < fuel)%nat ->
  parse_members fuel (quote k ++ ":"%char :: t ++ "}"%char :: rest) acc
  = Some (VObject (define k v acc), skip_ws rest).
Proof.
  intros Hread Hfuel. destruct fuel as [| fuel]; [lia|].
  cbn [parse_members]. rewrite skip_ws_quote. unfold quote at 1.
  cbn [app]. change (Ascii.eqb dquote dquote) with true. cbv iota.
  rewrite <- app_assoc. cbn [app]. rewrite string_literal_quote.
  change (skip_ws (":"%char :: t ++ "}"%char :: rest)) with (":"%char :: t ++ "}"%char :: rest).
  cbv beta iota.
  rewrite (Hread fuel "}"%char rest) by (try lia; right; right; reflexivity).
  reflexivity.
Qed.

Lemma elements_step (bound : nat) (t : list ascii) (v : value)
  (fuel : nat) (rest : list ascii) (acc : list value) :
  reads bound t v -> (bound < fuel)%nat ->
  parse_elements fuel (t ++ ","%char :: rest) acc
  = parse_elements (fuel - 1) rest (acc ++ [v]).
Proof.
  intros Hread Hfuel. destruct fuel as [| fuel]; [lia|].
  replace (S fuel - 1)%nat with fuel by lia.
  cbn [parse_elements].
  rewrite (Hread fuel ","%char rest) by (try lia; left; reflexivity).
  reflexivity.
Qed.

Lemma elements_last (bound : nat) (t : list ascii) (v : value)
  (fuel : nat) (rest : list ascii) (acc : list value) :
  reads bound t v -> (bound < fuel)%nat ->
  parse_elements fuel (t ++ "]"%char :: rest) acc
  = Some (VArray (acc ++ [v]), skip_ws rest).
Proof.
  intros Hread Hfuel. destruct fuel as [| fuel]; [lia|].
  cbn [parse_elements].
  rewrite (Hread fuel "]"%char rest) by (try lia; right; left; reflexivity).
  reflexivity.
Qed.

(** The elements of a non-empty array. *)
Lemma elements_all (bound : nat) (items : list (list ascii * value)) :
  Forall (fun tv => reads bound (fst tv) (snd tv)) items ->
  items <> [] ->
  forall (fuel : nat) (acc : list value) (rest : list ascii),
    (List.length items + bound <= fuel)%nat ->
    parse_elements fuel (join (map fst items) ++ "]"%char :: rest) acc
    = Some (VArray (acc ++ map snd items), skip_ws rest).
Proof.
  induction 1 as [| [t v] items Hread Hitems IH]; intros Hne fuel acc rest Hfuel;
    [contradiction|].
  destruct items as [| tv2 items].
  - cbn [map join fst snd]. apply (elements_last bound); [exact Hread|].
    cbn [List.length] in Hfuel. lia.
  - change (join (map fst ((t, v) :: tv2 :: items)))
      with (t ++ ","%char :: join (map fst (tv2 :: items))).
    rewrite <- app_assoc. cbn [app].
    rewrite (elements_step bound t v) by (try exact Hread; cbn [List.length] in Hfuel; lia).
    rewrite IH by (try discriminate; cbn [List.length] in *; lia).
    cbn [map snd]. rewrite <- app_assoc. reflexivity.
Qed.

Lemma skip_ws_length (l : list ascii) : (List.length (skip_ws l) <= List.length l)%nat.
Proof.
  induction l as [| a l IH]; [apply le_n|]. cbn [skip_ws].
  destruct ((nat_of_ascii a =? 32)%nat || (nat_of_ascii a =? 9)%nat
            || (nat_of_ascii a =? 10)%nat || (nat_of_ascii a =? 13)%nat);
    cbn [List.length]; lia.
Qed.

(** A character that [skip_ws] keeps at the head of some list is kept at
    the head of every list. *)
Lemma skip_ws_head (c : ascii) (t more : list ascii) :
  skip_ws (c :: t) = c :: t -> skip_ws (c :: more) = c :: more.
Proof.
  cbn [skip_ws].
  destruct ((nat_of_ascii c =? 32)%nat || (nat_of_ascii c =? 9)%nat
            || (nat_of_ascii c =? 10)%nat || (nat_of_ascii c =? 13)%nat);
    [|reflexivity].
  intro Hskip. apply (f_equal (@List.length ascii)) in Hskip.
  pose proof (skip_ws_length t) as Hlen. cbn [List.length] in Hskip. lia.
Qed.

Lemma parse_value_array (fuel : nat) (body : list ascii) :
  parse_value (S fuel) ("["%char :: body)
  = match skip_ws body with
    | "]"%char :: r' => Some (VArray [], skip_ws r')
    | _ => parse_elements fuel body []
    end.
Proof. reflexivity. Qed.

Lemma parse_value_object (fuel : nat) (body : list ascii) :
  parse_value (S fuel) ("{"%char :: body)
  = match skip_ws body with
    | "}"%char :: r' => Some (VObject [], skip_ws r')
    | _ => parse_members fuel body []
    end.
Proof. reflexivity. Qed.

(** An array of values that are all read. *)
Lemma reads_array (bound : nat) (items : list (list ascii * value)) :
  Forall (fun tv => reads bound (fst tv) (snd tv)) items ->
  Forall (fun tv => starts_a_value (fst tv)) items ->
  reads (S (List.length items + bound))
        ("["%char :: join (map fst items) ++ ["]"%char]) (VArray (map snd items)).
Proof.
  intros Hreads Hheads fuel c rest Hfuel Hc.
  destruct fuel as [| fuel]; [lia|].
  cbn [app]. rewrite parse_value_array.
  destruct items as [| [t v] items].
  - cbn [map join app].
    change (skip_ws ("]"%char :: c :: rest)) with ("]"%char :: c :: rest).
    cbv beta iota. rewrite skip_ws_delimiter by exact Hc. reflexivity.
  - inversion Hheads as [| ? ? (c0 & t0 & Hhead & Hskip & Hnot) _]; subst.
    cbn [fst] in Hhead. subst t.
    assert (Hjoin : exists more,
               (join (map fst ((c0 :: t0, v) :: items)) ++ ["]"%char]) ++ c :: rest
               = c0 :: more).
    { destruct items as [| tv2 items]; cbn [map join fst app]; eexists; reflexivity. }
    destruct Hjoin as (more & Hmore).
    rewrite Hmore, (skip_ws_head c0 t0 more Hskip).
    assert (Hc0 : match c0 :: more with
                  | "]"%char :: r' => Some (VArray [], skip_ws r')
                  | _ => parse_elements fuel (c0 :: more) []
                  end = parse_elements fuel (c0 :: more) []).
    { destruct c0 as [[] [] [] [] [] [] [] []]; try reflexivity.
      exfalso. apply Hnot. reflexivity. }
    rewrite Hc0, <- Hmore, <- app_assoc. cbn [app].
    rewrite (elements_all bound)
      by (try exact Hreads; try discriminate; cbn [List.length] in *; lia).
    rewrite skip_ws_delimiter by exact Hc. reflexivity.
Qed.

Lemma serialize_array (items : list value) :
  serialize (VArray items)
  = Some (array_text
            (map (fun x => match serialize x with
                           | Some t => t
                           | None => Str.chars "null"
                           end) items)).
Proof.
  cbn [serialize]. unfold array_text.
  match goal with
  | |- Some (_ :: join (?f items) ++ _) = _ =>
      assert (H : forall l, f l = map (fun x => match serialize x with
                                                | Some t => t
                                                | None => Str.chars "null"
                                                end) l)
        by (induction l as [| x l IH]; [reflexivity | cbn [map]; rewrite <- IH; reflexivity]);
      rewrite H
  end.
  reflexivity.
Qed.

Lemma serialize_object (props : list (string * value)) :
  serialize (VObject props)
  = Some ("{"%char ::
            join (flat_map (fun kv => match serialize (snd kv) with
                                      | Some t => [member (fst kv) t]
                                      | None => []
                                      end) props)
            ++ ["}"%char]).
Proof.
  cbn [serialize].
  match goal with
  | |- Some (_ :: join (?f props) ++ _) = _ =>
      assert (H : forall l, f l = flat_map (fun kv => match serialize (snd kv) with
                                                      | Some t => [member (fst kv) t]
                                                      | None => []
                                                      end) l)
        by (induction l as [| [k x] l IH]; [reflexivity|];
            cbn [flat_map fst snd]; rewrite <- IH;
            destruct (serialize x); reflexivity);
      rewrite H
  end.
  reflexivity.
Qed.

Lemma serialize_test (t : Test.t) : serialize (Test.to_value t) = Some (test_text t).
Proof. reflexivity. Qed.

Lemma serialize_tests (ts : list Test.t) :
  serialize (VArray (map Test.to_value ts)) = Some (array_text (map test_text ts)).
Proof.
  rewrite serialize_array, map_map. reflexivity.
Qed.

Lemma serialize_department (d : Department.t) :
  serialize (Department.to_value d) = Some (department_text d).
Proof.
  unfold Department.to_value. rewrite serialize_object.
  cbn [flat_map fst snd]. rewrite serialize_tests. reflexivity.
Qed.

Lemma serialize_departments (ds : list Department.t) :
  serialize (VArray (map Department.to_value ds))
  = Some (array_text (map department_text ds)).
Proof.
  rewrite serialize_array, map_map. do 2 f_equal.
  apply map_ext. intro d. rewrite serialize_department. reflexivity.
Qed.

Lemma serialize_result (r : DivisionResult.t) :
  serialize (DivisionResult.to_value r) = Some (result_text r).
Proof.
  unfold DivisionResult.to_value. rewrite serialize_object.
  cbn [flat_map fst snd]. rewrite serialize_departments. reflexivity.
Qed.

Lemma scan_digits_app (l m : list ascii) (acc cnt : Z) :
  ends_digits m ->
  Num.scan_digits (l ++ m) acc cnt
  = let '(v, k, r) := Num.scan_digits l acc cnt in (v, k, r ++ m).
Proof.
  intro Hm. revert acc cnt. induction l as [| c l IH]; intros acc cnt.
  - cbn [app Num.scan_digits]. destruct m as [| d m]; [reflexivity|].
    cbn [Num.scan_digits]. cbn [ends_digits] in Hm. rewrite Hm. reflexivity.
  - cbn [app Num.scan_digits]. destruct (Str.is_digit c); [apply IH | reflexivity].
Qed.

Lemma delimiter_cases (d : ascii) :
  delimiter d ->
  Str.is_digit d = false
  /\ Ascii.eqb d "." = false /\ Ascii.eqb d "e" = false /\ Ascii.eqb d "E" = false
  /\ Ascii.eqb d "+" = false /\ Ascii.eqb d "-" = false.
Proof. intros [-> | [-> | ->]]; repeat split. Qed.

Lemma scan_exponent_app (l : list ascii) (d : ascii) (rest : list ascii) (ex : Z)
  (r : list ascii) :
  delimiter d ->
  Num.scan_exponent l = Some (ex, r) ->
  Num.scan_exponent (l ++ d :: rest) = Some (ex, r ++ d :: rest).
Proof.
  intros Hd Hl. destruct (delimiter_cases d Hd) as (Hdig & Hdot & He & HE & Hplus & Hminus).
  assert (Hends : ends_digits (d :: rest)) by exact Hdig.
  destruct l as [| c l].
  - cbn in Hl. inversion Hl; subst. cbn [app Num.scan_exponent].
    rewrite He, HE. reflexivity.
  - cbn [app Num.scan_exponent] in *.
    destruct (Ascii.eqb c "e" || Ascii.eqb c "E").
    + destruct l as [| s l].
      * cbn in Hl. discriminate Hl.
      * assert (Hgen : forall (neg : bool) (l2 : list ascii),
                   (let '(v, cnt, r0) := Num.scan_digits l2 0 0 in
                    if (cnt =? 0)%Z then None else Some (if neg then (- v)%Z else v, r0))
                   = Some (ex, r) ->
                   (let '(v, cnt, r0) := Num.scan_digits (l2 ++ d :: rest) 0 0 in
                    if (cnt =? 0)%Z then None else Some (if neg then (- v)%Z else v, r0))
                   = Some (ex, r ++ d :: rest)).
        { intros neg l2 H2. rewrite (scan_digits_app l2 (d :: rest) 0 0 Hends).
          destruct (Num.scan_digits l2 0 0) as [[v cnt] r0].
          destruct (cnt =? 0)%Z; [discriminate H2|].
          inversion H2; subst. reflexivity. }
        cbn [app].
        destruct s as [[] [] [] [] [] [] [] []];
          try (apply (Hgen false (_ :: l)); exact Hl);
          try (apply (Hgen false l); exact Hl);
          try (apply (Hgen true l); exact Hl).
    + inversion Hl; subst. reflexivity.
Qed.


Lemma number_body_app (neg : bool) (l1 : list ascii) (d : ascii)
  (rest : list ascii) (x : Num.number) (r : list ascii) :
  delimiter d ->
  number_body neg l1 = Some (x, r) ->
  number_body neg (l1 ++ d :: rest) = Some (x, r ++ d :: rest).
Proof.
  intros Hd Hl. destruct (delimiter_cases d Hd) as (Hdig & Hdot & He & HE & Hplus & Hminus).
  assert (Hends : ends_digits (d :: rest)) by exact Hdig.
  unfold number_body in *.
  rewrite (scan_digits_app l1 (d :: rest) 0 0 Hends).
  destruct (Num.scan_digits l1 0 0) as [[ip ic] r1] eqn:Hscan.
  assert (Hzero : match l1 ++ d :: rest with "0"%char :: _ => (1 <? ic)%Z | _ => false end
                  = match l1 with "0"%char :: _ => (1 <? ic)%Z | _ => false end
                  \/ (ic =? 0)%Z = true).
  { destruct l1 as [| c l1]; [|left; reflexivity].
    right. cbn in Hscan. inversion Hscan; subst. reflexivity. }
  destruct ((ic =? 0)%Z) eqn:Hic; [discriminate Hl|].
  destruct Hzero as [Hzero | Hzero]; [|discriminate Hzero]. rewrite Hzero.
  cbn [orb] in *.
  destruct (match l1 with "0"%char :: _ => (1 <? ic)%Z | _ => false end);
    [discriminate Hl|].
  assert (Hfrac : forall (frac : option (Z * Z * list ascii)) ,
             match frac with
             | None => None
             | Some (m, fc, r2) =>
                 match Num.scan_exponent r2 with
                 | Some (ex, r3) => Some (Num.of_decimal neg m (ex - fc), r3)
                 | None => None
                 end
             end = Some (x, r) ->
             match (match frac with
                    | None => None
                    | Some (m, fc, r2) => Some (m, fc, r2 ++ d :: rest)
                    end) with
             | None => None
             | Some (m, fc, r2) =>
                 match Num.scan_exponent r2 with
                 | Some (ex, r3) => Some (Num.of_decimal neg m (ex - fc), r3)
                 | None => None
                 end
             end = Some (x, r ++ d :: rest)).
  { intros [[[m fc] r2] |] H; [|discriminate H].
    destruct (Num.scan_exponent r2) as [[ex r3] |] eqn:Hex; [|discriminate H].
    rewrite (scan_exponent_app r2 d rest ex r3 Hd Hex).
    inversion H; subst. reflexivity. }
  destruct r1 as [| c r1].
  - cbn [app]. rewrite <- (Hfrac (Some (ip, 0%Z, [])) Hl). cbn [app].
    destruct d as [[] [] [] [] [] [] [] []]; try reflexivity; discriminate Hdot.
  - cbn [app].
    assert (Hdotcase :
              Ascii.eqb c "." = true ->
              (let '(m, fc, r2) := Num.scan_digits (r1 ++ d :: rest) ip 0 in
               if (fc =? 0)%Z then None else Some (m, fc, r2))
              = match (let '(m, fc, r2) := Num.scan_digits r1 ip 0 in
                       if (fc =? 0)%Z then None else Some (m, fc, r2)) with
                | None => None
                | Some (m, fc, r2) => Some (m, fc, r2 ++ d :: rest)
                end).
    { intros _. rewrite (scan_digits_app r1 (d :: rest) ip 0 Hends).
      destruct (Num.scan_digits r1 ip 0) as [[m fc] r2].
      destruct (fc =? 0)%Z; reflexivity. }
    destruct (Ascii.eqb c ".") eqn:Hc.
    + apply Ascii.eqb_eq in Hc. subst c. rewrite (Hdotcase eq_refl).
      apply Hfrac. exact Hl.
    + clear Hdotcase.
      destruct c as [[] [] [] [] [] [] [] []]; try discriminate Hc;
        match type of Hl with
        | context [Num.scan_exponent (?a :: r1)] =>
            exact (Hfrac (Some (ip, 0%Z, a :: r1)) Hl)
        end.
Qed.

Lemma skip_ws_idempotent (l : list ascii) : skip_ws (skip_ws l) = skip_ws l.
Proof.
  induction l as [| c l IH]; [reflexivity|]. cbn [skip_ws].
  destruct ((nat_of_ascii c =? 32)%nat || (nat_of_ascii c =? 9)%nat
            || (nat_of_ascii c =? 10)%nat || (nat_of_ascii c =? 13)%nat) eqn:Hws;
    [exact IH|].
  cbn [skip_ws]. rewrite Hws. reflexivity.
Qed.

Lemma skip_ws_app (l m : list ascii) :
  skip_ws (l ++ m)
  = match skip_ws l with
    | [] => skip_ws m
    | c :: r => c :: r ++ m
    end.
Proof.
  induction l as [| c l IH]; [cbn [app skip_ws]; reflexivity|].
  cbn [app skip_ws].
  destruct ((nat_of_ascii c =? 32)%nat || (nat_of_ascii c =? 9)%nat
            || (nat_of_ascii c =? 10)%nat || (nat_of_ascii c =? 13)%nat);
    [exact IH | reflexivity].
Qed.

Lemma parse_value_skip (fuel : nat) (l : list ascii) :
  parse_value fuel l = parse_value fuel (skip_ws l).
Proof.
  destruct fuel as [| fuel]; [reflexivity|].
  cbn [parse_value]. rewrite skip_ws_idempotent. reflexivity.
Qed.

Lemma elements_yield_array (fuel : nat) (l : list ascii) (acc : list value)
  (v : value) (r : list ascii) :
  parse_elements fuel l acc = Some (v, r) -> exists items, v = VArray items.
Proof.
  revert l acc. induction fuel as [| fuel IH]; intros l acc H; [discriminate H|].
  cbn [parse_elements] in H.
  destruct (parse_value fuel l) as [[v0 r0] |]; [|discriminate H].
  destruct r0 as [| c r0]; [discriminate H|].
  destruct c as [[] [] [] [] [] [] [] []]; try discriminate H;
    first [exact (IH _ _ H) | inversion H; subst; eexists; reflexivity].
Qed.

Lemma members_yield_object (fuel : nat) (l : list ascii)
  (acc : list (string * value)) (v : value) (r : list ascii) :
  parse_members fuel l acc = Some (v, r) -> exists props, v = VObject props.
Proof.
  revert l acc. induction fuel as [| fuel IH]; intros l acc H; [discriminate H|].
  cbn [parse_members] in H.
  destruct (skip_ws l) as [| q l1]; [discriminate H|].
  destruct (Ascii.eqb q dquote); [|discriminate H].
  destruct (string_literal l1) as [[k l2] |]; [|discriminate H].
  destruct (skip_ws l2) as [| c l3]; [discriminate H|].
  destruct c as [[] [] [] [] [] [] [] []]; try discriminate H.
  destruct (parse_value fuel l3) as [[v0 r0] |]; [|discriminate H].
  destruct r0 as [| c r0]; [discriminate H|].
  destruct c as [[] [] [] [] [] [] [] []]; try discriminate H;
    first [exact (IH _ _ H) | inversion H; subst; eexists; reflexivity].
Qed.

Lemma number_literal_cons (c : ascii) (r : list ascii) :
  number_literal (c :: r)
  = if Ascii.eqb c "-" then number_body true r else number_body false (c :: r).
Proof. destruct c as [[] [] [] [] [] [] [] []]; reflexivity. Qed.

Lemma number_body_head (neg : bool) (c : ascii) (r : list ascii)
  (x : Num.number) (r0 : list ascii) :
  number_body neg (c :: r) = Some (x, r0) -> Str.is_digit c = true.
Proof.
  unfold number_body. cbn [Num.scan_digits].
  destruct (Str.is_digit c); [reflexivity|]. cbn. discriminate.
Qed.

(** The first character of a number is not that of another literal. *)
Lemma number_head_dispatch (c : ascii) :
  Str.is_digit c = true \/ c = "-"%char ->
  Ascii.eqb c "[" = false /\ Ascii.eqb c "{" = false /\ Ascii.eqb c dquote = false
  /\ (forall l, starts "null" (c :: l) = None)
  /\ (forall l, starts "true" (c :: l) = None)
  /\ (forall l, starts "false" (c :: l) = None)
  /\ (forall l, skip_ws (c :: l) = c :: l).
Proof.
  intros [H | ->]; [|repeat split].
  destruct c as [[] [] [] [] [] [] [] []]; try discriminate H; repeat split.
Qed.

(** A number that [JSON.parse] reads from a text is read from the same
    text wherever a delimiter follows it. *)
Lemma reads_of_parse (s : string) (x : Num.number) :
  JSON.parse s = Some (VNumber x) -> reads 1 (Str.chars s) (VNumber x).
Proof.
  unfold parse. set (l := Str.chars s). intros Hparse fuel d rest Hfuel Hd.
  destruct (parse_value (S (List.length l)) l) as [[v r] |] eqn:Hl; [|discriminate Hparse].
  destruct r as [| ? ?]; [|discriminate Hparse].
  inversion Hparse; subst v. clear Hparse.
  rewrite parse_value_skip in Hl.
  destruct (skip_ws l) as [| c r] eqn:Hskip; [discriminate Hl|].
  assert (Hkeep : skip_ws (c :: r) = c :: r)
    by (rewrite <- Hskip; apply skip_ws_idempotent).
  cbn [parse_value] in Hl. rewrite Hkeep in Hl.
  (* the text is a number literal *)
  assert (Hnum : exists r0, number_literal (c :: r) = Some (x, r0) /\ skip_ws r0 = []
                            /\ (Str.is_digit c = true \/ c = "-"%char)).
  { destruct (Ascii.eqb c "[") eqn:E1.
    { exfalso. destruct (skip_ws r) as [| c2 r2].
      - apply elements_yield_array in Hl. destruct Hl as [? Hl]. discriminate Hl.
      - destruct c2 as [[] [] [] [] [] [] [] []]; try discriminate Hl;
          apply elements_yield_array in Hl; destruct Hl as [? Hl]; discriminate Hl. }
    destruct (Ascii.eqb c "{") eqn:E2.
    { exfalso. destruct (skip_ws r) as [| c2 r2].
      - apply members_yield_object in Hl. destruct Hl as [? Hl]. discriminate Hl.
      - destruct c2 as [[] [] [] [] [] [] [] []]; try discriminate Hl;
          apply members_yield_object in Hl; destruct Hl as [? Hl]; discriminate Hl. }
    destruct (Ascii.eqb c dquote) eqn:E3.
    { exfalso. destruct (string_literal r) as [[? ?] |]; discriminate Hl. }
    destruct (starts "null" (c :: r)); [discriminate Hl|].
    destruct (starts "true" (c :: r)); [discriminate Hl|].
    destruct (starts "false" (c :: r)); [discriminate Hl|].
    destruct (number_literal (c :: r)) as [[x0 r0] |] eqn:Hlit; [|discriminate Hl].
    injection Hl as Hx Hr. subst x0. exists r0. split; [reflexivity|]. split; [exact Hr|].
    rewrite number_literal_cons in Hlit.
    destruct (Ascii.eqb c "-") eqn:Hminus.
    - right. apply Ascii.eqb_eq. exact Hminus.
    - left. eapply number_body_head. exact Hlit. }
  clear Hl. destruct Hnum as (r0 & Hlit & Hr0 & Hhead).
  destruct (number_head_dispatch c Hhead) as (E1 & E2 & E3 & S1 & S2 & S3 & _).
  destruct fuel as [| fuel]; [lia|].
  cbn [parse_value]. rewrite skip_ws_app, Hskip, E1, E2, E3, S1, S2, S3.
  assert (Hext : number_literal (c :: r ++ d :: rest) = Some (x, r0 ++ d :: rest)).
  { rewrite number_literal_cons in Hlit |- *.
    destruct (Ascii.eqb c "-").
    - apply number_body_app; assumption.
    - apply (number_body_app false (c :: r)); assumption. }
  rewrite Hext, skip_ws_app, Hr0, skip_ws_delimiter by exact Hd.
  reflexivity.
Qed.

Lemma reads_students (x : Num.number) :
  reads_back x -> reads 1 (number_text x) (Cached.students x).
Proof.
  intro Hback. destruct x as [s | s | | s m e].
  - intros fuel c rest Hfuel Hc. destruct fuel as [| fuel]; [lia|].
    destruct Hc as [-> | [-> | ->]]; reflexivity.
  - intros fuel c rest Hfuel Hc. destruct fuel as [| fuel]; [lia|].
    destruct Hc as [-> | [-> | ->]]; reflexivity.
  - intros fuel c rest Hfuel Hc. destruct fuel as [| fuel]; [lia|].
    destruct Hc as [-> | [-> | ->]]; reflexivity.
  - apply reads_of_parse. exact Hback.
Qed.

(** An object of members that are all read, whatever follows it. *)
Lemma object_open (fuel : nat) (k : string) (more : list ascii) :
  parse_value (S fuel) ("{"%char :: quote k ++ more)
  = parse_members fuel (quote k ++ more) [].
Proof. reflexivity. Qed.

Lemma parse_test (t : Test.t) (fuel : nat) (rest : list ascii) :
  reads_back (Test.students t) -> (7 <= fuel)%nat ->
  parse_value fuel (test_text t ++ rest) = Some (Cached.test t, skip_ws rest).
Proof.
  intros Hback Hfuel. destruct fuel as [| fuel]; [lia|].
  unfold test_text, member. cbn [join]. repeat (first [rewrite <- app_assoc | progress cbn [app]]).
  rewrite object_open.
  erewrite members_step; [| apply reads_string | lia].
  erewrite members_step; [| apply reads_string | lia].
  erewrite members_step; [| apply reads_string | lia].
  erewrite members_step; [| apply (reads_students _ Hback) | lia].
  erewrite members_last; [| apply reads_string | lia].
  reflexivity.
Qed.

Lemma reads_test (t : Test.t) :
  reads_back (Test.students t) -> reads 7 (test_text t) (Cached.test t).
Proof.
  intros Hback fuel c rest Hfuel Hc.
  rewrite (parse_test t fuel (c :: rest) Hback Hfuel), skip_ws_delimiter by exact Hc.
  reflexivity.
Qed.

Lemma starts_a_value_object (body : list ascii) : starts_a_value ("{"%char :: body).
Proof. exists "{"%char, body. repeat split. discriminate. Qed.

Lemma reads_tests (ts : list Test.t) :
  Forall reads_back (map Test.students ts) ->
  reads (List.length ts + 8) (array_text (map test_text ts)) (VArray (map Cached.test ts)).
Proof.
  intro Hback.
  pose (items := map (fun t => (test_text t, Cached.test t)) ts).
  assert (Hfst : map fst items = map test_text ts)
    by (unfold items; rewrite map_map; reflexivity).
  assert (Hsnd : map snd items = map Cached.test ts)
    by (unfold items; rewrite map_map; reflexivity).
  assert (Hlen : List.length items = List.length ts)
    by (unfold items; apply length_map).
  rewrite <- Hfst, <- Hsnd.
  apply (reads_more (S (List.length items + 7))); [lia|].
  apply reads_array.
  - unfold items. apply Forall_map. cbn [fst snd].
    rewrite Forall_map in Hback. eapply Forall_impl; [|exact Hback].
    intros t Ht. apply reads_test. exact Ht.
  - unfold items. apply Forall_map. cbn [fst]. apply Forall_forall.
    intros t _. apply starts_a_value_object.
Qed.

Lemma parse_department (d : Department.t) (fuel : nat) (rest : list ascii) :
  Forall reads_back (map Test.students (Department.tests d)) ->
  (List.length (Department.tests d) + 11 <= fuel)%nat ->
  parse_value fuel (department_text d ++ rest)
  = Some (Cached.department d, skip_ws rest).
Proof.
  intros Hback Hfuel. destruct fuel as [| fuel]; [lia|].
  unfold department_text, member. cbn [join]. repeat (first [rewrite <- app_assoc | progress cbn [app]]).
  rewrite object_open.
  erewrite members_step; [| apply reads_string | lia].
  erewrite members_last; [| apply (reads_tests _ Hback) | lia].
  reflexivity.
Qed.

Lemma reads_department (bound : nat) (d : Department.t) :
  Forall reads_back (map Test.students (Department.tests d)) ->
  (List.length (Department.tests d) + 11 <= bound)%nat ->
  reads bound (department_text d) (Cached.department d).
Proof.
  intros Hback Hbound fuel c rest Hfuel Hc.
  rewrite (parse_department d fuel (c :: rest) Hback) by lia.
  rewrite skip_ws_delimiter by exact Hc. reflexivity.
Qed.

Lemma reads_departments (ds : list Department.t) :
  Forall reads_back (map Test.students (flat_map Department.tests ds)) ->
  reads (List.length ds + List.length (flat_map Department.tests ds) + 12)
        (array_text (map department_text ds)) (VArray (map Cached.department ds)).
Proof.
  intro Hback.
  pose (items := map (fun d => (department_text d, Cached.department d)) ds).
  assert (Hfst : map fst items = map department_text ds)
    by (unfold items; rewrite map_map; reflexivity).
  assert (Hsnd : map snd items = map Cached.department ds)
    by (unfold items; rewrite map_map; reflexivity).
  assert (Hlen : List.length items = List.length ds)
    by (unfold items; apply length_map).
  rewrite <- Hfst, <- Hsnd.
  apply (reads_more (S (List.length items + (List.length (flat_map Department.tests ds) + 11)))); [lia|].
  apply reads_array.
  - unfold items. apply Forall_map. cbn [fst snd]. apply Forall_forall.
    intros d Hd. apply reads_department.
    + rewrite Forall_forall in Hback |- *. intros x Hx. apply Hback.
      apply in_map_iff in Hx. destruct Hx as (t & <- & Ht).
      apply in_map. apply in_flat_map. exists d. split; assumption.
    + assert (Hle : (List.length (Department.tests d) <= List.length (flat_map Department.tests ds))%nat).
      { clear - Hd. induction ds as [| d0 ds IH]; [destruct Hd|].
        cbn [flat_map]. rewrite length_app. destruct Hd as [-> | Hd]; [lia|].
        specialize (IH Hd). lia. }
      lia.
  - unfold items. apply Forall_map. cbn [fst]. apply Forall_forall.
    intros d _. apply starts_a_value_object.
Qed.

Lemma parse_result (r : DivisionResult.t) (fuel : nat) (rest : list ascii) :
  Forall reads_back (map Test.students (DivisionResult.all_tests r)) ->
  (List.length (DivisionResult.departments r)
   + List.length (DivisionResult.all_tests r) + 15 <= fuel)%nat ->
  parse_value fuel (result_text r ++ rest) = Some (Cached.result r, skip_ws rest).
Proof.
  intros Hback Hfuel. destruct fuel as [| fuel]; [lia|].
  unfold result_text, member. cbn [join]. repeat (first [rewrite <- app_assoc | progress cbn [app]]).
  rewrite object_open.
  erewrite members_step; [| apply reads_string | lia].
  erewrite members_last;
    [| apply (reads_departments _ Hback)
     | unfold DivisionResult.all_tests in *; lia].
  reflexivity.
Qed.

Lemma list_sum_cons (x : nat) (l : list nat) : list_sum (x :: l) = (x + list_sum l)%nat.
Proof. reflexivity. Qed.

Lemma join_length (l : list (list ascii)) :
  (list_sum (map (@List.length ascii) l) <= List.length (join l))%nat.
Proof.
  induction l as [| x [| y l] IH]; [apply le_n | cbn; lia |].
  change (join (x :: y :: l)) with (x ++ ","%char :: join (y :: l)).
  rewrite length_app.
  change (list_sum (map (@List.length ascii) (x :: y :: l)))
    with (List.length x + list_sum (map (@List.length ascii) (y :: l)))%nat.
  cbn [List.length]. lia.
Qed.

Lemma tests_text_length (ts : list Test.t) :
  (List.length ts <= list_sum (map (@List.length ascii) (map test_text ts)))%nat.
Proof.
  induction ts as [| t ts IH]; [apply le_n|].
  cbn [map List.length]. rewrite list_sum_cons.
  unfold test_text at 1. cbn [List.length]. lia.
Qed.

Lemma department_text_length (d : Department.t) :
  (1 + List.length (Department.tests d) <= List.length (department_text d))%nat.
Proof.
  unfold department_text, member, array_text. cbn [join].
  pose proof (join_length (map test_text (Department.tests d))) as Hjoin.
  pose proof (tests_text_length (Department.tests d)) as Htests.
  repeat (first [rewrite length_app | progress cbn [List.length]]).
  lia.
Qed.

Lemma departments_text_length (ds : list Department.t) :
  (List.length ds + List.length (flat_map Department.tests ds)
   <= list_sum (map (@List.length ascii) (map department_text ds)))%nat.
Proof.
  induction ds as [| d ds IH]; [apply le_n|].
  cbn [map List.length flat_map].
  rewrite list_sum_cons, length_app.
  pose proof (department_text_length d). lia.
Qed.

Lemma result_text_length (r : DivisionResult.t) :
  (List.length (DivisionResult.departments r)
   + List.length (DivisionResult.all_tests r) + 15
   <= S (List.length (result_text r)))%nat.
Proof.
  unfold result_text, member, array_text. cbn [join].
  pose proof (join_length (map department_text (DivisionResult.departments r))) as Hjoin.
  pose proof (departments_text_length (DivisionResult.departments r)) as Hds.
  unfold DivisionResult.all_tests.
  repeat (first [rewrite length_app | progress cbn [List.length]]).
  change (List.length (quote "heading")) with 9%nat.
  change (List.length (quote "departments")) with 13%nat.
  lia.
Qed.

(** The text written for a result decodes to its cached form. *)
Lemma parse_stringify_result (r : DivisionResult.t) :
  Forall reads_back (map Test.students (DivisionResult.all_tests r)) ->
  exists text,
    JSON.stringify (DivisionResult.to_value r) = Some text
    /\ JSON.parse text = Some (Cached.result r).
Proof.
  intro Hback. exists (Str.of_chars (result_text r)). split.
  - unfold stringify. rewrite serialize_result. reflexivity.
  - unfold parse, Str.chars, Str.of_chars.
    rewrite list_ascii_of_string_of_list_ascii.
    pose proof (parse_result r (S (List.length (result_text r))) [] Hback
                  (result_text_length r)) as Hparse.
    rewrite app_nil_r in Hparse. rewrite Hparse. reflexivity.
Qed.

Lemma number_eqb_eq (x y : Num.number) : Num.eqb x y = true -> x = y.
Proof.
  destruct x as [a | a | | a m e], y as [b | b | | b m' e']; try discriminate;
    cbn [Num.eqb]; intro H.
  - apply Bool.eqb_prop in H. subst. reflexivity.
  - apply Bool.eqb_prop in H. subst. reflexivity.
  - reflexivity.
  - apply andb_prop in H. destruct H as [H He]. apply andb_prop in H. destruct H as [Ha Hm].
    apply Bool.eqb_prop in Ha. apply Pos.eqb_eq in Hm. apply Z.eqb_eq in He.
    subst. reflexivity.
Qed.

Lemma reads_back_b_sound (x : Num.number) : reads_back_b x = true -> reads_back x.
Proof.
  destruct x as [a | a | | a m e]; try exact (fun _ => I).
  unfold reads_back_b, reads_back.
  destruct (JSON.parse (Num.to_string (S754_finite a m e))) as [[| | | y | | |] |];
    try discriminate.
  intro H. apply number_eqb_eq in H. rewrite <- H. reflexivity.
Qed.

Lemma counts_read_back (n : Z) :
  (0 <= n <= 5000)%Z -> reads_back (Num.of_Z n).
Proof.
  intro Hn. apply reads_back_b_sound.
  assert (Hall : forallb (fun k => reads_back_b (Num.of_Z (Z.of_nat k)))
                         (seq 0 (Z.to_nat 5001)) = true)
    by (vm_compute; reflexivity).
  rewrite forallb_forall in Hall.
  rewrite <- (Z2Nat.id n) by lia. apply Hall. apply in_seq. lia.
Qed.

End RoundTrip.

(** C5, as stated, fails: the sample page has a row whose student count
    is not numeric.  The first lookup fetches it and resolves with a
    result holding NaN there; the second lookup, one second later and well
    before expiry, makes no request but resolves with a value holding
    [null] in that place (the student count of the first test of the
    second department): the cached value did not round-trip exactly. *)
Lemma cached_copy_differs_from_first_result :
  let world := Mem.over Sample.serving in
  let lookup := getTests (Some "60") None Sample.load "hugvisindasvid" in
  let first := run world lookup Mem.empty in
  let st1 := fst (fst first) in
  let second := run world lookup (Mem.tick 1 st1) in
  requests (snd (fst first)) = 1%nat
  /\ fst second = (Mem.tick 1 st1, [CallGet "proftafla:hugvisindasvid"])
  /\ Sample.students_at (snd first) = Some (VNumber Num.nan)
  /\ Sample.students_at (snd second) = Some VNull
  /\ snd first <> snd second.
Proof.
  intros world lookup first st1 second.
  split; [vm_compute; reflexivity|].
  split; [vm_compute; reflexivity|].
  assert (H1 : Sample.students_at (snd first) = Some (VNumber Num.nan))
    by (vm_compute; reflexivity).
  assert (H2 : Sample.students_at (snd second) = Some VNull)
    by (vm_compute; reflexivity).
  split; [exact H1|]. split; [exact H2|].
  intro Heq. rewrite Heq in H1. rewrite H1 in H2. discriminate H2.
Qed.

(** C5, amended.  In the in-memory world, for every slug of the list and
    every valid expiry [n]: when a lookup that made the upstream request
    resolved with a result, a second lookup less than [n] seconds later
    makes one GET and no request, leaves the store as it is and resolves
    with the cached form of the result, the value decoded from the text
    the first lookup wrote.  The cached form is the result itself whenever
    every student count is a finite number other than negative zero; a
    count that is NaN or infinite comes back as [null].  Each finite
    non-zero count is required to be read back by [JSON.parse] from its own
    spelling; [counts_read_back] checks this for the counts 0 to 5000. *)
Theorem second_lookup_is_served_from_the_cache :
  forall (ttl : string) (n : Z) (REDIS_PREFIX : option string)
         (cheerio_parse : value -> settled (list node))
         (upstream : string -> settled response)
         (slug : string) (item : Division.t) (st0 st1 : Mem.state)
         (calls1 : list call) (data : DivisionResult.t) (dt : Z),
    Mem.seconds (Some ttl) = Some n ->
    find_school slug = Some item ->
    run (Mem.over upstream) (getTests (Some ttl) REDIS_PREFIX cheerio_parse slug) st0
    = (st1, calls1, Resolved (DivisionResult.to_value data)) ->
    requests calls1 = 1%nat ->
    (0 <= dt < n)%Z ->
    Forall Cached.reads_back (students_of [data]) ->
    run (Mem.over upstream) (getTests (Some ttl) REDIS_PREFIX cheerio_parse slug)
        (Mem.tick dt st1)
    = (Mem.tick dt st1, [CallGet (key_of REDIS_PREFIX slug)],
       Resolved (Cached.result data))
    /\ requests [CallGet (key_of REDIS_PREFIX slug)] = 0%nat
    /\ (Forall (fun x => Cached.exact x = true) (students_of [data]) ->
        Cached.result data = DivisionResult.to_value data).
Proof.
  intros ttl n REDIS_PREFIX cheerio_parse upstream slug item st0 st1 calls1 data
         dt Httl Hfind Hfirst Hreq Hdt Hback.
  split; [|split; [reflexivity | apply cached_result_exact]].
  assert (Hcodec : exists text,
             JSON.stringify (DivisionResult.to_value data) = Some text
             /\ JSON.parse text = Some (Cached.result data)).
  { apply parse_stringify_result.
    unfold students_of in Hback. cbn [flat_map] in Hback.
    rewrite app_nil_r in Hback. exact Hback. }
  destruct Hcodec as (text & Htext & Hparse).
  (* the first lookup wrote the text under the key *)
  assert (Hstored :
            st1 = fst (Mem.set (key_of REDIS_PREFIX slug) (Some text) (Some ttl) st0)).
  { rewrite (run_getTests _ _ _ _ slug item st0 Hfind) in Hfirst. cbv zeta in Hfirst.
    rewrite run_getFromCache in Hfirst.
    cbn [on_get Mem.over] in Hfirst.
    assert (Hget : exists reply,
               Mem.get (key_of REDIS_PREFIX slug) st0 = (st0, Resolved reply)).
    { unfold Mem.get. destruct (Mem.lookup (key_of REDIS_PREFIX slug) (Mem.entries st0));
        eauto. }
    destruct Hget as [reply Hget]. rewrite Hget in Hfirst.
    assert (Hmiss : forall c1 cached,
      (if Js.truthy cached
       then (st0, c1, Resolved cached)
       else
         let '(w2, c2, r2) :=
           run (Mem.over upstream)
               (fetchAndParse cheerio_parse (Division.id item) (Division.name item)) st0 in
         match r2 with
         | Resolved data0 =>
             let '(w3, c3, _) :=
               run (Mem.over upstream)
                   (cache (Some ttl) (key_of REDIS_PREFIX slug)
                      (DivisionResult.to_value data0)) w2 in
             (w3, c1 ++ c2 ++ c3, Resolved (DivisionResult.to_value data0))
         | Rejected e => (w2, c1 ++ c2, Rejected e)
         end) = (st1, calls1, Resolved (DivisionResult.to_value data)) ->
      requests c1 = 0%nat ->
      st1 = fst (Mem.set (key_of REDIS_PREFIX slug) (Some text) (Some ttl) st0)).
    { intros c1 cached Hrun Hc1.
      destruct (Js.truthy cached).
      - inversion Hrun; subst. rewrite Hc1 in Hreq. discriminate Hreq.
      - rewrite run_fetchAndParse in Hrun. cbn [on_fetch Mem.over] in Hrun.
        match type of Hrun with
        | context [match ?r with Resolved _ => _ | Rejected _ => _ end] =>
            destruct r as [data0 | e] eqn:Hr2
        end; [|discriminate Hrun].
        rewrite run_cache in Hrun. cbn [on_set Mem.over] in Hrun.
        destruct (Mem.set (key_of REDIS_PREFIX slug)
                    (JSON.stringify (DivisionResult.to_value data0)) (Some ttl) st0)
          as [w3 reply3] eqn:Hset.
        assert (Hw : w3 = st1) by exact (f_equal (fun x => fst (fst x)) Hrun).
        assert (Hvalue : DivisionResult.to_value data0 = DivisionResult.to_value data)
          by exact (f_equal (fun x => match snd x with
                                      | Resolved v => v
                                      | Rejected _ => VNull
                                      end) Hrun).
        rewrite Hvalue, Htext in Hset. rewrite Hset. symmetry. exact Hw. }
    destruct (JSON.parse (reply_text reply)) as [cached |].
    - exact (Hmiss _ cached Hfirst eq_refl).
    - exact (Hmiss _ VNull Hfirst eq_refl). }
  rewrite (run_getTests _ _ _ _ slug item _ Hfind). cbv zeta.
  rewrite run_getFromCache. cbn [on_get Mem.over].
  rewrite Hstored, (get_after_set _ _ _ n dt st0 Httl Hdt).
  cbn [reply_text]. rewrite Hparse. reflexivity.
Qed.

Lemma second_lookup_is_served_from_the_cache_witness :
  let world := Mem.over Sample.serving in
  let load (data : value) := Resolved (Fragment.fragment [Sample.section_a]) in
  let lookup := getTests (Some "60") None load "hugvisindasvid" in
  let data :=
    DivisionResult.Make "Hugvísindasvið" [Fragment.department Sample.section_a] in
  let st1 := fst (fst (run world lookup Mem.empty)) in
  Forall Cached.reads_back (students_of [data])
  /\ Forall (fun x => Cached.exact x = true) (students_of [data])
  /\ run world lookup (Mem.tick 59 st1)
     = (Mem.tick 59 st1, [CallGet "proftafla:hugvisindasvid"],
        Resolved (DivisionResult.to_value data)).
Proof.
  intros world load lookup data st1.
  assert (Hback : Forall Cached.reads_back (students_of [data])).
  { apply Forall_forall. intros x [<- | [<- | []]].
    - apply (counts_read_back 42). lia.
    - apply (counts_read_back 7). lia. }
  assert (Hexact : Forall (fun x => Cached.exact x = true) (students_of [data]))
    by (repeat constructor).
  split; [exact Hback|]. split; [exact Hexact|].
  destruct (second_lookup_is_served_from_the_cache "60" 60 None load Sample.serving
              "hugvisindasvid"
              (Division.Make "Hugvísindasvið" (Num.of_Z 3) "hugvisindasvid")
              Mem.empty st1
              (snd (fst (run world lookup Mem.empty))) data 59)
    as (Hsecond & _ & Hsame).
  - reflexivity.
  - reflexivity.
  - vm_compute. reflexivity.
  - vm_compute. reflexivity.
  - lia.
  - exact Hback.
  - rewrite <- (Hsame Hexact). exact Hsecond.
Defined.

(** * Further properties

    Properties of the functions of [scraper.js] beyond the statements of
    the specification: the calls a lookup makes, the values the fold of
    the statistics gets through, the documents the parser reads, the cache
    in the in-memory store, and the statistics on integer counts. *)

(** ** The calls of a lookup *)

Section Calls.

Variable REDIS_EXPIRE REDIS_PREFIX : option string.
Variable cheerio_parse : value -> settled (list node).
Context {W : Type} (h : world W).

Lemma run_settle {A : Type} (p : prog A) (w : W) :
  run h (settle p) w = let '(w1, c, r) := run h p w in (w1, c, Resolved r).
Proof.
  unfold settle. rewrite run_try_catch, run_bind.
  destruct (run h p w) as [[w1 c] [a | e]]; simpl; rewrite app_nil_r; reflexivity.
Qed.

Lemma run_settle_each {A : Type} (ps : list (prog A)) (w : W) :
  run h (settle_each ps) w =
  let '(w1, c, rs) := run_each h ps w in (w1, c, Resolved rs).
Proof.
  revert w. induction ps as [| p ps IH]; intro w; [reflexivity|].
  cbn [settle_each run_each]. rewrite run_bind, run_settle.
  destruct (run h p w) as [[w1 c1] r]. rewrite run_bind, IH.
  destruct (run_each h ps w1) as [[w2 c2] rs]. simpl. rewrite app_nil_r. reflexivity.
Qed.

Lemma run_lookups (w : W) :
  run h (lookups REDIS_EXPIRE REDIS_PREFIX cheerio_parse) w =
  let '(w1, c, rs) :=
    run_each h (map (fun d => getTests REDIS_EXPIRE REDIS_PREFIX cheerio_parse
                                 (Division.slug d)) schools) w in
  (w1, c, first_rejection rs).
Proof.
  unfold lookups. rewrite run_bind, run_settle_each.
  destruct (run_each h _ w) as [[w1 c] rs].
  destruct (first_rejection rs); simpl; rewrite app_nil_r; reflexivity.
Qed.

Lemma run_getStats_all (w : W) :
  run h (getStats REDIS_EXPIRE REDIS_PREFIX cheerio_parse) w =
  let '(w1, c, rs) :=
    run_each h (map (fun d => getTests REDIS_EXPIRE REDIS_PREFIX cheerio_parse
                                 (Division.slug d)) schools) w in
  (w1, c,
   match first_rejection rs with
   | Resolved all => stats_of all
   | Rejected e => Rejected e
   end).
Proof.
  unfold getStats. rewrite run_bind, run_lookups.
  destruct (run_each h _ w) as [[w1 c] rs].
  destruct (first_rejection rs) as [all | e]; [|reflexivity].
  destruct (stats_of all); simpl; rewrite app_nil_r; reflexivity.
Qed.

Lemma run_fetchAndParse_reply (id : Num.number) (heading : string) (w : W) :
  run h (fetchAndParse cheerio_parse id heading) w =
  let '(w1, reply) := on_fetch h (url_of id) w in
  (w1, [CallFetch (url_of id)], result_of_reply cheerio_parse heading reply).
Proof. apply run_fetchAndParse. Qed.

(** The whole run of a lookup, for a slug of the list. *)
Lemma run_getTests_calls (slug : string) (item : Division.t) (w : W) :
  find_school slug = Some item ->
  run h (getTests REDIS_EXPIRE REDIS_PREFIX cheerio_parse slug) w =
  let key := key_of REDIS_PREFIX slug in
  let url := url_of (Division.id item) in
  let '(w1, reply) := on_get h key w in
  let cached := decoded reply in
  let warned := match cached with Some _ => [] | None => [get_warning key] end in
  if match cached with Some v => Js.truthy v | None => false end
  then (w1, [CallGet key], Resolved (match cached with Some v => v | None => VNull end))
  else
    let '(w2, page) := on_fetch h url w1 in
    match result_of_reply cheerio_parse (Division.name item) page with
    | Rejected e => (w2, CallGet key :: warned ++ [CallFetch url], Rejected e)
    | Resolved data =>
        let fresh := DivisionResult.to_value data in
        let '(w3, ack) := on_set h key (JSON.stringify fresh) REDIS_EXPIRE w2 in
        (w3,
         CallGet key :: warned
           ++ [CallFetch url; CallSet key (JSON.stringify fresh) REDIS_EXPIRE]
           ++ (if is_rejected ack then [set_warning key] else []),
         Resolved fresh)
    end.
Proof.
  intro Hfind. rewrite (run_getTests _ _ _ _ slug item w Hfind). cbv zeta.
  rewrite run_getFromCache.
  destruct (on_get h (key_of REDIS_PREFIX slug) w) as [w1 [result | e0]]; cbn [decoded].
  - destruct (JSON.parse (reply_text result)) as [v |].
    + destruct (Js.truthy v); [reflexivity|].
      rewrite run_fetchAndParse_reply.
      destruct (on_fetch h (url_of (Division.id item)) w1) as [w2 page].
      destruct (result_of_reply cheerio_parse (Division.name item) page) as [data | e];
        [|reflexivity].
      rewrite run_cache.
      destruct (on_set h _ _ REDIS_EXPIRE w2) as [w3 ack]. reflexivity.
    + cbn [Js.truthy]. rewrite run_fetchAndParse_reply.
      destruct (on_fetch h (url_of (Division.id item)) w1) as [w2 page].
      destruct (result_of_reply cheerio_parse (Division.name item) page) as [data | e];
        [|reflexivity].
      rewrite run_cache.
      destruct (on_set h _ _ REDIS_EXPIRE w2) as [w3 ack]. reflexivity.
  - cbn [Js.truthy]. rewrite run_fetchAndParse_reply.
    destruct (on_fetch h (url_of (Division.id item)) w1) as [w2 page].
    destruct (result_of_reply cheerio_parse (Division.name item) page) as [data | e];
      [|reflexivity].
    rewrite run_cache.
    destruct (on_set h _ _ REDIS_EXPIRE w2) as [w3 ack]. reflexivity.
Qed.

(** What the calls of a lookup are. *)
Lemma getTests_calls (slug : string) (w : W) :
  let '(_, calls, r) := run h (getTests REDIS_EXPIRE REDIS_PREFIX cheerio_parse slug) w in
  (requests calls <= 1)%nat
  /\ filter is_get calls
     = match find_school slug with
       | Some _ => [CallGet (key_of REDIS_PREFIX slug)]
       | None => []
       end
  /\ (List.length (filter is_set calls) <= requests calls)%nat
  /\ (is_rejected r = true -> filter is_set calls = [] /\ requests calls = 1%nat)
  /\ filter is_clearing calls = []
  /\ Forall (fun c =>
               match c with
               | CallSet k _ ttl => k = key_of REDIS_PREFIX slug /\ ttl = REDIS_EXPIRE
               | _ => True
               end) calls.
Proof.
  destruct (find_school slug) as [item |] eqn:Hfind.
  - rewrite (run_getTests_calls slug item w Hfind). cbv zeta.
    destruct (on_get h (key_of REDIS_PREFIX slug) w) as [w1 reply].
    destruct (decoded reply) as [v |].
    + destruct (Js.truthy v).
      * cbn. repeat split; try lia; try discriminate. repeat constructor.
      * destruct (on_fetch h (url_of (Division.id item)) w1) as [w2 page].
        destruct (result_of_reply cheerio_parse (Division.name item) page) as [data | e].
        -- cbv zeta. destruct (on_set h _ _ REDIS_EXPIRE w2) as [w3 [[] | e]];
             cbn; repeat split; try lia; try discriminate; repeat constructor.
        -- cbn. repeat split; try lia; repeat constructor.
    + destruct (on_fetch h (url_of (Division.id item)) w1) as [w2 page].
      destruct (result_of_reply cheerio_parse (Division.name item) page) as [data | e].
      * cbv zeta. destruct (on_set h _ _ REDIS_EXPIRE w2) as [w3 [[] | e]];
          cbn; repeat split; try lia; try discriminate; repeat constructor.
      * cbn. repeat split; try lia; repeat constructor.
  - unfold getTests. unfold find_school in Hfind. rewrite Hfind.
    cbn. repeat split; try lia; try discriminate. constructor.
Qed.

Lemma run_each_calls (ds : list Division.t) (w : W) :
  Forall (fun d => find_school (Division.slug d) = Some d) ds ->
  let '(_, calls, _) :=
    run_each h (map (fun d => getTests REDIS_EXPIRE REDIS_PREFIX cheerio_parse
                                 (Division.slug d)) ds) w in
  filter is_get calls = map (fun d => CallGet (key_of REDIS_PREFIX (Division.slug d))) ds
  /\ (requests calls <= List.length ds)%nat
  /\ (List.length (filter is_set calls) <= requests calls)%nat
  /\ filter is_clearing calls = [].
Proof.
  intro Hds. revert w. induction Hds as [| d ds Hd _ IH]; intro w.
  - cbn. repeat split; lia.
  - cbn [map run_each].
    pose proof (getTests_calls (Division.slug d) w) as Hone.
    destruct (run h (getTests REDIS_EXPIRE REDIS_PREFIX cheerio_parse (Division.slug d)) w)
      as [[w1 c1] r1].
    rewrite Hd in Hone. destruct Hone as (Hreq & Hget & Hset & _ & Hclear & _).
    specialize (IH w1).
    destruct (run_each h _ w1) as [[w2 c2] rs].
    destruct IH as (Hget2 & Hreq2 & Hset2 & Hclear2).
    rewrite !filter_app, requests_app, length_app, Hget, Hget2, Hclear, Hclear2.
    cbn [List.length map app]. repeat split; lia.
Qed.

End Calls.

Lemma schools_found : Forall (fun d => find_school (Division.slug d) = Some d) schools.
Proof. repeat constructor. Qed.

Lemma result_of_reply_resolved (cheerio_parse : value -> settled (list node)) (heading : string)
  (reply : settled response) :
  is_resolved (result_of_reply cheerio_parse heading reply) = is_page cheerio_parse reply.
Proof.
  destruct reply as [result | e]; [|reflexivity]. cbn [result_of_reply is_page].
  destruct (status result =? 200)%Z; [|reflexivity]. cbn [negb andb].
  destruct (json result) as [body | e]; [|reflexivity].
  destruct (Js.get body "html") as [data | e]; [|reflexivity].
  unfold parse_departments, cheerio_load.
  destruct data; try reflexivity; cbn [has_properties andb];
    destruct (cheerio_parse _); reflexivity.
Qed.

(** X1. A lookup that finds, under the key of a slug of the list, a text
    decoding to a truthy value resolves with that value as it is, after
    the one GET: it makes no request and writes nothing, and the value is
    not checked to be a result. *)
Theorem getTests_returns_what_the_cache_holds :
  forall (REDIS_EXPIRE REDIS_PREFIX : option string)
         (cheerio_parse : value -> settled (list node)) (W : Type) (h : world W)
         (slug : string) (item : Division.t) (w w1 : W) (text : string) (v : value),
    find_school slug = Some item ->
    on_get h (key_of REDIS_PREFIX slug) w = (w1, Resolved (Some text)) ->
    JSON.parse text = Some v ->
    Js.truthy v = true ->
    run h (getTests REDIS_EXPIRE REDIS_PREFIX cheerio_parse slug) w
    = (w1, [CallGet (key_of REDIS_PREFIX slug)], Resolved v).
Proof.
  intros REDIS_EXPIRE REDIS_PREFIX cheerio_parse W h slug item w w1 text v
         Hfind Hget Hparse Htruthy.
  rewrite (run_getTests_calls _ _ _ _ slug item w Hfind). cbv zeta.
  rewrite Hget. cbn [decoded reply_text]. rewrite Hparse, Htruthy. reflexivity.
Qed.

Lemma getTests_returns_what_the_cache_holds_witness :
  run (Mem.over Sample.serving)
      (getTests (Some "60") None Sample.load "hugvisindasvid")
      (Sample.holding "hugvisindasvid" "[3]")
  = (Sample.holding "hugvisindasvid" "[3]",
     [CallGet "proftafla:hugvisindasvid"],
     Resolved (VArray [VNumber (Num.of_Z 3)])).
Proof.
  apply (getTests_returns_what_the_cache_holds (Some "60") None Sample.load Mem.state
           (Mem.over Sample.serving) "hugvisindasvid"
           (Division.Make "Hugvísindasvið" (Num.of_Z 3) "hugvisindasvid")
           (Sample.holding "hugvisindasvid" "[3]")
           (Sample.holding "hugvisindasvid" "[3]") "[3]");
    reflexivity.
Defined.

(** X2. [fetchAndParse] makes exactly one call, the request for the URL
    that ends in [svidID=], the id and [&notaVinnuToflu=0], and resolves
    exactly when the reply has status 200, its body decodes to a value
    other than [undefined] and [null], and the [html] of the body is a
    value, other than [undefined] and [null], that the parser makes a
    document of; a result carries the heading that was passed in.  A
    rejection of the request, of the decoding of the body or of the parser
    is passed on unchanged; a body without properties makes a TypeError,
    and so does a body without [html]. *)
Theorem fetchAndParse_resolves_on_a_page_only :
  forall (cheerio_parse : value -> settled (list node)) (W : Type) (h : world W)
         (id : Num.number) (heading : string) (w : W),
    let url :=
      ("https://ugla.hi.is/Proftafla/View/ajax.php?sid=2027&a=getProfSvids&proftaflaID=37&svidID="
       ++ Num.to_string id ++ "&notaVinnuToflu=0")%string in
    let reply := snd (on_fetch h url w) in
    exists r,
      run h (fetchAndParse cheerio_parse id heading) w
      = (fst (on_fetch h url w), [CallFetch url], r)
      /\ is_resolved r = is_page cheerio_parse reply
      /\ (forall data, r = Resolved data -> DivisionResult.heading data = heading)
      /\ (forall e, reply = Rejected e -> r = Rejected e)
      /\ (forall result e,
            reply = Resolved result -> status result = 200%Z ->
            json result = Rejected e -> r = Rejected e)
      /\ (forall result body,
            reply = Resolved result -> status result = 200%Z ->
            json result = Resolved body -> has_properties body = false ->
            exists message, r = Rejected (Js.TypeError message))
      /\ (forall result body data,
            reply = Resolved result -> status result = 200%Z ->
            json result = Resolved body -> Js.get body "html" = Resolved data ->
            has_properties data = false ->
            exists message, r = Rejected (Js.TypeError message))
      /\ (forall result body data e,
            reply = Resolved result -> status result = 200%Z ->
            json result = Resolved body -> Js.get body "html" = Resolved data ->
            has_properties data = true -> cheerio_parse data = Rejected e ->
            r = Rejected e).
Proof.
  intros cheerio_parse W h id heading w url reply.
  exists (result_of_reply cheerio_parse heading reply). subst reply.
  change url with (url_of id). clear url.
  rewrite run_fetchAndParse_reply.
  destruct (on_fetch h (url_of id) w) as [w1 reply]. cbn [fst snd].
  split; [reflexivity|].
  split; [apply result_of_reply_resolved|].
  split; [|split; [|split; [|split; [|split]]]].
  - intros data Hdata. destruct reply as [result | e]; [|discriminate Hdata].
    cbn [result_of_reply] in Hdata.
    destruct (negb (status result =? 200)%Z); [discriminate Hdata|].
    destruct (json result) as [body | e]; [|discriminate Hdata].
    destruct (Js.get body "html") as [html | e]; [|discriminate Hdata].
    destruct (parse_departments cheerio_parse html) as [departments | e];
      [|discriminate Hdata].
    injection Hdata as <-. reflexivity.
  - intros e ->. reflexivity.
  - intros result e -> Hstatus Hjson. cbn [result_of_reply].
    rewrite Hstatus, Hjson. reflexivity.
  - intros result body -> Hstatus Hjson Hbody. cbn [result_of_reply].
    rewrite Hstatus, Hjson. cbn [Z.eqb Pos.eqb negb].
    destruct body; try discriminate Hbody; eexists; reflexivity.
  - intros result body data -> Hstatus Hjson Hhtml Hdata. cbn [result_of_reply].
    rewrite Hstatus, Hjson, Hhtml. cbn [Z.eqb Pos.eqb negb].
    destruct data; try discriminate Hdata; eexists; reflexivity.
  - intros result body data e -> Hstatus Hjson Hhtml Hdata Hparse. cbn [result_of_reply].
    rewrite Hstatus, Hjson, Hhtml. cbn [Z.eqb Pos.eqb negb].
    unfold parse_departments, cheerio_load.
    destruct data; try discriminate Hdata; rewrite Hparse; reflexivity.
Qed.

(** A reply with status 200 whose body has no [html]: the parser is not
    reached, and the one request ends in a TypeError. *)
Lemma fetchAndParse_resolves_on_a_page_only_witness :
  let upstream (url : string) := Resolved (Response 200 (Resolved (VObject []))) in
  exists r,
    run (Mem.over upstream)
        (fetchAndParse Sample.load (Num.of_Z 3) "Hugvísindasvið") Mem.empty
    = (Mem.empty,
       [CallFetch
          ("https://ugla.hi.is/Proftafla/View/ajax.php?sid=2027&a=getProfSvids"
           ++ "&proftaflaID=37&svidID=3&notaVinnuToflu=0")%string], r)
    /\ is_resolved r = false
    /\ is_type_error r = true.
Proof.
  intro upstream.
  destruct (fetchAndParse_resolves_on_a_page_only Sample.load Mem.state
              (Mem.over upstream) (Num.of_Z 3) "Hugvísindasvið" Mem.empty)
    as (r & Hrun & Hpage & _ & _ & _ & _ & Hhtml & _).
  exists r. split; [exact Hrun|]. split; [exact Hpage|].
  destruct (Hhtml (Response 200 (Resolved (VObject []))) (VObject []) VUndefined
              eq_refl eq_refl eq_refl eq_refl eq_refl) as (message & ->).
  reflexivity.
Defined.

(** X3. However the world answers, a lookup makes at most one request,
    reads the cache once (for a slug of the list; not at all otherwise),
    writes at most once and only after its request, under its own key and
    with the configured expiry; when it rejects it has made its request
    and written nothing; it never lists or deletes keys. *)
Theorem getTests_makes_at_most_one_request :
  forall (REDIS_EXPIRE REDIS_PREFIX : option string)
         (cheerio_parse : value -> settled (list node)) (W : Type) (h : world W)
         (slug : string) (w w' : W) (calls : list call) (r : settled value),
    run h (getTests REDIS_EXPIRE REDIS_PREFIX cheerio_parse slug) w = (w', calls, r) ->
    (requests calls <= 1)%nat
    /\ filter is_get calls
       = match find_school slug with
         | Some _ => [CallGet (key_of REDIS_PREFIX slug)]
         | None => []
         end
    /\ (List.length (filter is_set calls) <= requests calls)%nat
    /\ (is_rejected r = true -> filter is_set calls = [] /\ requests calls = 1%nat)
    /\ filter is_clearing calls = []
    /\ Forall (fun c =>
                 match c with
                 | CallSet k _ ttl => k = key_of REDIS_PREFIX slug /\ ttl = REDIS_EXPIRE
                 | _ => True
                 end) calls.
Proof.
  intros REDIS_EXPIRE REDIS_PREFIX cheerio_parse W h slug w w' calls r Hrun.
  pose proof (getTests_calls REDIS_EXPIRE REDIS_PREFIX cheerio_parse h slug w) as Hcalls.
  rewrite Hrun in Hcalls. exact Hcalls.
Qed.

Lemma getTests_makes_at_most_one_request_witness :
  let run1 := run (Mem.over Sample.serving)
                  (getTests (Some "60") None Sample.load "hugvisindasvid") Mem.empty in
  map is_fetch (snd (fst run1)) = [false; true; false]
  /\ (requests (snd (fst run1)) <= 1)%nat
  /\ filter is_get (snd (fst run1)) = [CallGet "proftafla:hugvisindasvid"]
  /\ (List.length (filter is_set (snd (fst run1))) <= requests (snd (fst run1)))%nat
  /\ filter is_clearing (snd (fst run1)) = [].
Proof.
  intro run1.
  assert (Hshape : map is_fetch (snd (fst run1)) = [false; true; false])
    by (vm_compute; reflexivity).
  split; [exact Hshape|].
  destruct run1 as [[w' calls] r] eqn:Hrun.
  destruct (getTests_makes_at_most_one_request (Some "60") None Sample.load Mem.state
              (Mem.over Sample.serving) "hugvisindasvid" Mem.empty w' calls r Hrun)
    as (Hreq & Hget & Hset & _ & Hclear & _).
  cbn [fst snd]. repeat split; assumption.
Defined.

(** X4. A lookup resolves with [null] for a slug that is not in the list,
    and only then: for a slug of the list it resolves with a truthy value
    (what the cache holds, or the fresh result) or rejects.  So the fold
    of [getStats] never reads the departments of [null]. *)
Theorem getTests_resolves_with_null_for_unknown_slugs_only :
  forall (REDIS_EXPIRE REDIS_PREFIX : option string)
         (cheerio_parse : value -> settled (list node)) (W : Type) (h : world W)
         (slug : string) (w : W),
    (find_school slug = None ->
     run h (getTests REDIS_EXPIRE REDIS_PREFIX cheerio_parse slug) w = (w, [], Resolved VNull))
    /\ (forall item v,
          find_school slug = Some item ->
          snd (run h (getTests REDIS_EXPIRE REDIS_PREFIX cheerio_parse slug) w) = Resolved v ->
          Js.truthy v = true).
Proof.
  intros REDIS_EXPIRE REDIS_PREFIX cheerio_parse W h slug w. split.
  - intro Hnone. unfold getTests. unfold find_school in Hnone. rewrite Hnone. reflexivity.
  - intros item v Hfind Hrun.
    rewrite (run_getTests_calls _ _ _ _ slug item w Hfind) in Hrun. cbv zeta in Hrun.
    destruct (on_get h (key_of REDIS_PREFIX slug) w) as [w1 reply].
    destruct (decoded reply) as [cached |].
    + destruct (Js.truthy cached) eqn:Htruthy.
      * cbn [snd] in Hrun. injection Hrun as <-. exact Htruthy.
      * destruct (on_fetch h (url_of (Division.id item)) w1) as [w2 page].
        destruct (result_of_reply cheerio_parse (Division.name item) page) as [data | e];
          [|discriminate Hrun].
        cbv zeta in Hrun. destruct (on_set h _ _ REDIS_EXPIRE w2) as [w3 ack].
        cbn [snd] in Hrun. injection Hrun as <-. reflexivity.
    + destruct (on_fetch h (url_of (Division.id item)) w1) as [w2 page].
      destruct (result_of_reply cheerio_parse (Division.name item) page) as [data | e];
        [|discriminate Hrun].
      cbv zeta in Hrun. destruct (on_set h _ _ REDIS_EXPIRE w2) as [w3 ack].
      cbn [snd] in Hrun. injection Hrun as <-. reflexivity.
Qed.

Lemma getTests_resolves_with_null_for_unknown_slugs_only_witness :
  run (Mem.over Sample.serving) (getTests (Some "60") None Sample.load "laeknadeild")
      Mem.empty
  = (Mem.empty, [], Resolved VNull)
  /\ Js.truthy (VArray [VNumber (Num.of_Z 3)]) = true.
Proof.
  destruct (getTests_resolves_with_null_for_unknown_slugs_only (Some "60") None
              Sample.load Mem.state (Mem.over Sample.serving) "laeknadeild" Mem.empty)
    as [Hnone _].
  destruct (getTests_resolves_with_null_for_unknown_slugs_only (Some "60") None
              Sample.load Mem.state (Mem.over Sample.serving) "hugvisindasvid"
              (Sample.holding "hugvisindasvid" "[3]"))
    as [_ Hknown].
  split.
  - apply Hnone. reflexivity.
  - apply (Hknown (Division.Make "Hugvísindasvið" (Num.of_Z 3) "hugvisindasvid")).
    + reflexivity.
    + vm_compute. reflexivity.
Defined.

(** X5. [getStats] reads the key of each division of the list once, in the
    order of the list, makes at most five requests and no more writes than
    requests, and never lists or deletes keys. *)
Theorem getStats_looks_every_school_up_once :
  forall (REDIS_EXPIRE REDIS_PREFIX : option string)
         (cheerio_parse : value -> settled (list node)) (W : Type) (h : world W)
         (w w' : W) (calls : list call) (r : settled Stats.t),
    run h (getStats REDIS_EXPIRE REDIS_PREFIX cheerio_parse) w = (w', calls, r) ->
    filter is_get calls
    = map (fun d => CallGet (key_of REDIS_PREFIX (Division.slug d))) schools
    /\ (requests calls <= 5)%nat
    /\ (List.length (filter is_set calls) <= requests calls)%nat
    /\ filter is_clearing calls = [].
Proof.
  intros REDIS_EXPIRE REDIS_PREFIX cheerio_parse W h w w' calls r Hrun.
  rewrite run_getStats_all in Hrun.
  pose proof (run_each_calls REDIS_EXPIRE REDIS_PREFIX cheerio_parse h schools w
                schools_found) as Hcalls.
  destruct (run_each h _ w) as [[w1 c] rs].
  injection Hrun as _ <- _. exact Hcalls.
Qed.

Lemma getStats_looks_every_school_up_once_witness :
  let run1 := run (Sample.store_down Sample.serving)
                  (getStats (Some "60") None Sample.load) tt in
  filter is_get (snd (fst run1))
  = [CallGet "proftafla:felagsvisindasvid"; CallGet "proftafla:heilbrigdisvisindasvid";
     CallGet "proftafla:hugvisindasvid"; CallGet "proftafla:menntavisindasvid";
     CallGet "proftafla:verkfraedi-og-natturuvisindasvid"]
  /\ (requests (snd (fst run1)) <= 5)%nat
  /\ filter is_clearing (snd (fst run1)) = [].
Proof.
  intro run1.
  destruct run1 as [[w' calls] r] eqn:Hrun.
  destruct (getStats_looks_every_school_up_once (Some "60") None Sample.load unit
              (Sample.store_down Sample.serving) tt w' calls r Hrun)
    as (Hget & Hreq & _ & Hclear).
  cbn [fst snd]. repeat split; assumption.
Defined.

Lemma run_each_hits (REDIS_EXPIRE REDIS_PREFIX : option string)
  (cheerio_parse : value -> settled (list node)) {W : Type} (h : world W)
  (ds : list Division.t) (w : W) :
  always_hit REDIS_PREFIX h ->
  (forall d, In d ds -> In d schools) ->
  exists w' rs,
    run_each h (map (fun d => getTests REDIS_EXPIRE REDIS_PREFIX cheerio_parse
                                 (Division.slug d)) ds) w
    = (w', map (fun d => CallGet (key_of REDIS_PREFIX (Division.slug d))) ds, rs).
Proof.
  intros Hhit. revert w. induction ds as [| d ds IH]; intros w Hin.
  - exists w, []. reflexivity.
  - cbn [map run_each].
    assert (Hd : In d schools) by (apply Hin; left; reflexivity).
    destruct (Hhit d w Hd) as (w1 & text & v & Hget & Hparse & Htruthy).
    pose proof schools_found as Hfound. rewrite Forall_forall in Hfound.
    rewrite (run_getTests_calls _ _ _ _ (Division.slug d) d w (Hfound d Hd)). cbv zeta.
    rewrite Hget. cbn [decoded reply_text]. rewrite Hparse, Htruthy.
    destruct (IH w1) as (w' & rs & Hrest); [intros x Hx; apply Hin; right; exact Hx|].
    rewrite Hrest. eexists w', _. reflexivity.
Qed.

(** X6. When every GET for the key of a division is answered with a text
    that decodes to a truthy value, [getStats] makes the five GET calls
    and no other call: no request, no write, no warning. *)
Theorem getStats_on_a_full_cache_makes_no_request :
  forall (REDIS_EXPIRE REDIS_PREFIX : option string)
         (cheerio_parse : value -> settled (list node)) (W : Type) (h : world W) (w : W),
    always_hit REDIS_PREFIX h ->
    exists w' r,
      run h (getStats REDIS_EXPIRE REDIS_PREFIX cheerio_parse) w
      = (w', map (fun d => CallGet (key_of REDIS_PREFIX (Division.slug d))) schools, r).
Proof.
  intros REDIS_EXPIRE REDIS_PREFIX cheerio_parse W h w Hhit.
  destruct (run_each_hits REDIS_EXPIRE REDIS_PREFIX cheerio_parse h schools w Hhit
              (fun d Hd => Hd)) as (w' & rs & Hrun).
  rewrite run_getStats_all, Hrun. eexists w', _. reflexivity.
Qed.

Lemma getStats_on_a_full_cache_makes_no_request_witness :
  let world := answering "[3]" Sample.unavailable in
  always_hit None world
  /\ exists r,
       run world (getStats (Some "60") None Sample.load) tt
       = (tt, map (fun d => CallGet (key_of None (Division.slug d))) schools, r).
Proof.
  intro world.
  assert (Hhit : always_hit None world).
  { intros d w _. exists w, "[3]", (VArray [VNumber (Num.of_Z 3)]).
    repeat split; reflexivity. }
  split; [exact Hhit|].
  destruct (getStats_on_a_full_cache_makes_no_request (Some "60") None Sample.load
              unit world tt Hhit) as ([] & r & Hrun).
  exists r. exact Hrun.
Defined.

Lemma first_rejection_returned (rs : list (settled DivisionResult.t)) :
  match first_rejection (map returned rs) with
  | Resolved all =>
      forallb is_resolved rs = true
      /\ exists datas, all = map DivisionResult.to_value datas
  | Rejected _ => forallb is_resolved rs = false
  end.
Proof.
  induction rs as [| [data | e] rs IH]; cbn [map returned first_rejection forallb is_resolved].
  - split; [reflexivity | exists []; reflexivity].
  - destruct (first_rejection (map returned rs)) as [all | e].
    + destruct IH as [Hall (datas & ->)]. split; [exact Hall|].
      exists (data :: datas). reflexivity.
    + exact IH.
  - reflexivity.
Qed.

Lemma run_each_store_down (REDIS_EXPIRE REDIS_PREFIX : option string)
  (cheerio_parse : value -> settled (list node)) (upstream : string -> settled response)
  (ds : list Division.t) :
  Forall (fun d => find_school (Division.slug d) = Some d) ds ->
  exists calls,
    run_each (Sample.store_down upstream)
      (map (fun d => getTests REDIS_EXPIRE REDIS_PREFIX cheerio_parse (Division.slug d)) ds) tt
    = (tt, calls,
       map (fun d => returned (result_of_reply cheerio_parse (Division.name d)
                              (upstream (url_of (Division.id d))))) ds)
    /\ requests calls = List.length ds.
Proof.
  induction 1 as [| d ds Hd _ (calls & IH & Hreq)].
  - exists []. split; reflexivity.
  - cbn [map run_each].
    rewrite (run_getTests_calls _ _ _ _ (Division.slug d) d tt Hd). cbv zeta.
    cbn [Sample.store_down on_get on_fetch on_set decoded Js.truthy].
    destruct (result_of_reply cheerio_parse (Division.name d)
                (upstream (url_of (Division.id d)))) as [data | e];
      rewrite IH; eexists; (split; [reflexivity|]);
      rewrite requests_app, Hreq; reflexivity.
Qed.

(** X7. Against a store that rejects every command, [getStats] makes the
    five requests whatever their outcomes, and resolves exactly when every
    one of them is answered with a page: status 200, a body with
    properties, and under [html] a value, other than [undefined] and
    [null], that the parser makes a document of.  Which rejection it
    reports when several requests fail is not stated. *)
Theorem getStats_without_a_cache :
  forall (REDIS_EXPIRE REDIS_PREFIX : option string)
         (cheerio_parse : value -> settled (list node)) (upstream : string -> settled response),
    exists calls r,
      run (Sample.store_down upstream)
          (getStats REDIS_EXPIRE REDIS_PREFIX cheerio_parse) tt = (tt, calls, r)
      /\ requests calls = 5%nat
      /\ is_resolved r
         = forallb (fun d => is_page cheerio_parse (upstream (url_of (Division.id d))))
                   schools.
Proof.
  intros REDIS_EXPIRE REDIS_PREFIX cheerio_parse upstream.
  destruct (run_each_store_down REDIS_EXPIRE REDIS_PREFIX cheerio_parse upstream
              schools schools_found) as (calls & Hrun & Hreq).
  rewrite run_getStats_all, Hrun. eexists calls, _.
  split; [reflexivity|]. split; [exact Hreq|].
  rewrite <- (map_map (fun d => result_of_reply cheerio_parse (Division.name d)
                                  (upstream (url_of (Division.id d)))) returned).
  assert (Hpages : forallb is_resolved
                     (map (fun d => result_of_reply cheerio_parse (Division.name d)
                                      (upstream (url_of (Division.id d)))) schools)
                   = forallb (fun d => is_page cheerio_parse
                                              (upstream (url_of (Division.id d))))
                             schools).
  { generalize schools. intro ds. induction ds as [| d ds IH]; [reflexivity|].
    cbn [map forallb]. rewrite IH, result_of_reply_resolved. reflexivity. }
  rewrite <- Hpages.
  match goal with
  | |- context [first_rejection (map returned ?rs)] =>
      pose proof (first_rejection_returned rs) as Hfirst;
      destruct (first_rejection (map returned rs)) as [all | e]
  end.
  - destruct Hfirst as [Hall (datas & ->)]. rewrite stats_of_results, Hall. reflexivity.
  - rewrite Hfirst. reflexivity.
Qed.

(** Five replies with status 200 whose bodies have no [html], or [null]
    there: [cheerio.load] throws, and [getStats] rejects with a
    TypeError after its five requests. *)
Example getStats_on_bodies_without_html :
  let empty (url : string) := Resolved (Response 200 (Resolved (VObject []))) in
  let null (url : string) :=
    Resolved (Response 200 (Resolved (VObject [("html", VNull)]))) in
  let outcome (upstream : string -> settled response) :=
    run (Sample.store_down upstream) (getStats (Some "60") None Sample.load) tt in
  is_type_error (snd (outcome empty)) = true
  /\ requests (snd (fst (outcome empty))) = 5%nat
  /\ is_type_error (snd (outcome null)) = true
  /\ requests (snd (fst (outcome null))) = 5%nat.
Proof. vm_compute. repeat split. Qed.

(** ** Values that cannot be counted *)

(** Induction on values, through the items of arrays. *)
Lemma value_items_ind (P : value -> Prop) :
  P VUndefined -> P VNull -> (forall b, P (VBool b)) -> (forall x, P (VNumber x)) ->
  (forall s, P (VString s)) ->
  (forall items, Forall P items -> P (VArray items)) ->
  (forall props, P (VObject props)) ->
  forall v, P v.
Proof.
  intros Hu Hn Hb Hx Hs Ha Ho.
  fix IH 1. intros [| | b | x | s | items | props];
    [exact Hu | exact Hn | apply Hb | apply Hx | apply Hs | | apply Ho].
  apply Ha. induction items as [| v items IHitems]; constructor; [apply IH | exact IHitems].
Qed.

Lemma to_string_array (x : value) (items : list value) :
  Js.to_string (VArray (x :: items))
  = let item v := match v with VUndefined | VNull => Resolved "" | _ => Js.to_string v end in
    match items with
    | [] => item x
    | _ :: _ =>
        Js.and_then (item x) (fun s =>
        Js.and_then (Js.to_string (VArray items)) (fun t =>
        Resolved (s ++ "," ++ t)%string))
    end.
Proof. destruct items; reflexivity. Qed.

Lemma to_string_settles (v : value) :
  is_resolved (Js.to_string v) = convertible v
  /\ (is_resolved (Js.to_string v) = false
      -> Js.to_string v = Rejected Js.conversion_error).
Proof.
  induction v as [| | b | x | s | items IH | props] using value_items_ind;
    try (split; [reflexivity | discriminate]).
  - destruct b; split; try reflexivity; discriminate.
  - induction IH as [| v items [Hv Hverr] _ IHitems].
    + split; [reflexivity | discriminate].
    + rewrite to_string_array. cbv zeta. cbn [convertible forallb].
      change (forallb convertible items) with (convertible (VArray items)).
      destruct IHitems as [Hrest Hresterr].
      assert (Hitem : is_resolved
                        match v with
                        | VUndefined | VNull => Resolved ""
                        | _ => Js.to_string v
                        end = convertible v
                      /\ (is_resolved
                            match v with
                            | VUndefined | VNull => Resolved ""
                            | _ => Js.to_string v
                            end = false ->
                          match v with
                          | VUndefined | VNull => Resolved ""
                          | _ => Js.to_string v
                          end = Rejected Js.conversion_error)).
      { destruct v; try (split; [exact Hv | exact Hverr]);
          split; try reflexivity; discriminate. }
      destruct Hitem as [Hi Hierr].
      destruct items as [| y items].
      * rewrite andb_true_r. split; assumption.
      * destruct (match v with
                  | VUndefined | VNull => Resolved ""
                  | _ => Js.to_string v
                  end) as [s | e].
        -- cbn [is_resolved] in Hi. rewrite <- Hi. cbn [Js.and_then andb].
           destruct (Js.to_string (VArray (y :: items))) as [t | e].
           ++ split; [exact Hrest | discriminate].
           ++ split; [exact Hrest|]. intros _. cbn [Js.and_then].
              rewrite (Hresterr eq_refl). reflexivity.
        -- cbn [is_resolved] in Hi. rewrite <- Hi. cbn [Js.and_then andb].
           split; [reflexivity|]. intros _. rewrite (Hierr eq_refl). reflexivity.
  - cbn [Js.to_string convertible]. destruct (Js.lookup "toString" props);
      split; try reflexivity; discriminate.
Qed.

Lemma to_primitive_settles (v : value) :
  is_resolved (Js.to_primitive v) = convertible v
  /\ (is_resolved (Js.to_primitive v) = false
      -> Js.to_primitive v = Rejected Js.conversion_error).
Proof.
  destruct (to_string_settles v) as [Hok Herr].
  destruct v; try (split; [reflexivity | discriminate]);
    cbn [Js.to_primitive]; destruct (Js.to_string _) as [s | e];
    (split; [exact Hok|]); intro H; try discriminate H;
    rewrite (Herr eq_refl); reflexivity.
Qed.

Lemma to_primitive_convertible (v : value) :
  convertible v = true -> exists p, Js.to_primitive v = Resolved p.
Proof.
  intro Hv. destruct (to_primitive_settles v) as [Hok _]. rewrite Hv in Hok.
  destruct (Js.to_primitive v) as [p | e]; [exists p; reflexivity | discriminate Hok].
Qed.

Lemma add_convertible (pa pb : Js.primitive) : convertible (Js.add pa pb) = true.
Proof. destruct pa, pb; reflexivity. Qed.

(** The innermost callback on sound counters: it goes through exactly
    when the test has a count, and leaves sound counters. *)
Lemma count_test_settles (test : value) (c : counters) :
  sound c = true ->
  is_resolved (count_test test c) = has_count test
  /\ (is_resolved (count_test test c) = false -> is_type_error (count_test test c) = true)
  /\ (forall c', count_test test c = Resolved c' -> sound c' = true).
Proof.
  unfold sound. intro Hc.
  apply andb_prop in Hc as [Hc Hsum]. apply andb_prop in Hc as [Hmin Hmax].
  unfold count_test, get_then, has_count.
  destruct (Js.get test "students") as [students | e] eqn:Hget.
  - destruct (to_primitive_convertible _ Hsum) as (ps & Hps).
    destruct (to_primitive_convertible _ Hmax) as (pmax & Hpmax).
    destruct (to_primitive_convertible _ Hmin) as (pmin & Hpmin).
    destruct (to_primitive_settles students) as [Hok Herr].
    unfold Js.plus, Js.greater_than, Js.less_than.
    rewrite Hps, Hpmax, Hpmin. cbn [Js.and_then].
    destruct (Js.to_primitive students) as [p | e].
    + cbn [Js.and_then is_resolved] in *. rewrite <- Hok.
      split; [reflexivity|]. split; [discriminate|].
      intros c' Hc'. injection Hc' as <-.
      cbn [c_min c_max c_numStudents]. rewrite add_convertible, andb_true_r.
      destruct (Js.before pmax p), (Js.before p pmin);
        rewrite ?Hmin, ?Hmax, <- ?Hok; reflexivity.
    + cbn [Js.and_then is_resolved] in *. rewrite <- Hok.
      split; [reflexivity|]. split; [|discriminate].
      intros _. injection (Herr eq_refl) as ->. reflexivity.
  - split; [reflexivity|]. split; [|discriminate]. intros _.
    destruct test; try discriminate Hget; injection Hget as <-; reflexivity.
Qed.

Lemma each_settles {S : Type} (f : value -> S -> settled S) (ok : value -> bool)
  (inv : S -> bool) (items : list value) (s : S) :
  (forall x s', inv s' = true ->
     is_resolved (f x s') = ok x
     /\ (is_resolved (f x s') = false -> is_type_error (f x s') = true)
     /\ (forall s'', f x s' = Resolved s'' -> inv s'' = true)) ->
  inv s = true ->
  is_resolved (each f items s) = forallb ok items
  /\ (is_resolved (each f items s) = false -> is_type_error (each f items s) = true)
  /\ (forall s'', each f items s = Resolved s'' -> inv s'' = true).
Proof.
  intros Hf. revert s. induction items as [| x items IH]; intros s Hs.
  - split; [reflexivity|]. split; [discriminate|]. intros s'' H. injection H as <-. exact Hs.
  - cbn [each forallb]. destruct (Hf x s Hs) as (Hok & Herr & Hinv).
    destruct (f x s) as [s' | e].
    + cbn [is_resolved] in Hok. rewrite <- Hok. apply IH. apply Hinv. reflexivity.
    + cbn [is_resolved] in Hok. rewrite <- Hok.
      split; [reflexivity|]. split; [exact Herr | discriminate].
Qed.

Lemma forEach_settles {S : Type} (f : value -> S -> settled S) (ok : value -> bool)
  (inv : S -> bool) (name : string) (v : value) (s : S) :
  (forall x s', inv s' = true ->
     is_resolved (f x s') = ok x
     /\ (is_resolved (f x s') = false -> is_type_error (f x s') = true)
     /\ (forall s'', f x s' = Resolved s'' -> inv s'' = true)) ->
  inv s = true ->
  let r := get_then v name (fun items => forEach items f s) in
  is_resolved r = has_members name ok v
  /\ (is_resolved r = false -> is_type_error r = true)
  /\ (forall s'', r = Resolved s'' -> inv s'' = true).
Proof.
  intros Hf Hs. cbv zeta. unfold get_then, has_members.
  destruct (Js.get v name) as [items | e] eqn:Hget.
  - destruct items;
      try (split; [reflexivity|]; split; [reflexivity | discriminate]).
    cbn [forEach]. apply each_settles; assumption.
  - split; [reflexivity|]. split; [|discriminate]. intros _.
    destruct v; try discriminate Hget; injection Hget as <-; reflexivity.
Qed.

Lemma count_department_settles (department : value) (c : counters) :
  sound c = true ->
  is_resolved (count_department department c) = has_members "tests" has_count department
  /\ (is_resolved (count_department department c) = false ->
      is_type_error (count_department department c) = true)
  /\ (forall c', count_department department c = Resolved c' -> sound c' = true).
Proof.
  intro Hc. unfold count_department.
  apply (forEach_settles count_test has_count sound "tests" department c);
    [intros x s'; apply count_test_settles | exact Hc].
Qed.

Lemma count_school_settles (school : value) (c : counters) :
  sound c = true ->
  is_resolved (count_school school c) = countable school
  /\ (is_resolved (count_school school c) = false ->
      is_type_error (count_school school c) = true)
  /\ (forall c', count_school school c = Resolved c' -> sound c' = true).
Proof.
  intro Hc. unfold count_school, countable.
  apply (forEach_settles count_department (has_members "tests" has_count) sound
           "departments" school c);
    [intros x s'; apply count_department_settles | exact Hc].
Qed.

Lemma stats_of_settles (all : list value) :
  is_resolved (stats_of all) = forallb countable all
  /\ (is_resolved (stats_of all) = false -> is_type_error (stats_of all) = true).
Proof.
  unfold stats_of.
  destruct (each_settles count_school countable sound all initial
              (fun x s => count_school_settles x s) eq_refl) as (Hok & Herr & Hinv).
  destruct (each count_school all initial) as [c | e]; [|split; assumption].
  cbn [Js.and_then]. specialize (Hinv c eq_refl). unfold sound in Hinv.
  apply andb_prop in Hinv as [_ Hsum].
  destruct (to_primitive_convertible _ Hsum) as (p & Hp).
  unfold Js.divide, Js.to_number. rewrite Hp. cbn [Js.and_then Js.to_primitive].
  split; [exact Hok | discriminate].
Qed.

(** X8. When the lookups resolve, [getStats] resolves exactly when every
    value looked up holds an array of departments, each of which holds an
    array of tests whose [students] can be read (the test is not
    [undefined] or [null]) and converted by the operators (it is not an
    object with a property [toString] of its own, nor an array that holds
    one); otherwise it rejects with a TypeError.  A value served from the
    cache is not checked before it is folded. *)
Theorem getStats_needs_departments_and_tests :
  forall (REDIS_EXPIRE REDIS_PREFIX : option string)
         (cheerio_parse : value -> settled (list node)) (W : Type) (h : world W)
         (w w' : W) (calls : list call) (all : list value),
    run h (lookups REDIS_EXPIRE REDIS_PREFIX cheerio_parse) w = (w', calls, Resolved all) ->
    exists r,
      run h (getStats REDIS_EXPIRE REDIS_PREFIX cheerio_parse) w = (w', calls, r)
      /\ is_resolved r = forallb countable all
      /\ (is_resolved r = false -> is_type_error r = true).
Proof.
  intros REDIS_EXPIRE REDIS_PREFIX cheerio_parse W h w w' calls all Hall.
  exists (stats_of all). split; [apply (run_getStats _ _ _ h w w' calls all Hall)|].
  apply stats_of_settles.
Qed.

Lemma getStats_needs_departments_and_tests_witness :
  let world := Mem.over Sample.serving in
  let store := Sample.holding "hugvisindasvid" "[3]" in
  exists all r,
    snd (run world (lookups (Some "60") None Sample.load) store) = Resolved all
    /\ snd (run world (getStats (Some "60") None Sample.load) store) = r
    /\ nth 2 all VNull = VArray [VNumber (Num.of_Z 3)]
    /\ forallb countable all = false
    /\ is_type_error r = true.
Proof.
  intros world store.
  destruct (run world (lookups (Some "60") None Sample.load) store)
    as [[w' calls] [all | e]] eqn:Hrun.
  - destruct (getStats_needs_departments_and_tests (Some "60") None Sample.load
                Mem.state world store w' calls all Hrun) as (r & Hstats & Hok & Herr).
    assert (Hthird : nth 2 all VNull = VArray [VNumber (Num.of_Z 3)]).
    { assert (H : match snd (run world (lookups (Some "60") None Sample.load) store) with
                  | Resolved l => nth 2 l VNull
                  | Rejected _ => VNull
                  end = VArray [VNumber (Num.of_Z 3)]) by (vm_compute; reflexivity).
      rewrite Hrun in H. exact H. }
    assert (Hbad : forallb countable all = false).
    { assert (H : match snd (run world (lookups (Some "60") None Sample.load) store) with
                  | Resolved l => forallb countable l
                  | Rejected _ => true
                  end = false) by (vm_compute; reflexivity).
      rewrite Hrun in H. exact H. }
    exists all, r. rewrite Hstats. cbn [snd].
    repeat split; try assumption; try reflexivity.
    apply Herr. rewrite Hok. exact Hbad.
  - exfalso.
    assert (H : is_resolved (snd (run world (lookups (Some "60") None Sample.load) store))
                = true) by (vm_compute; reflexivity).
    rewrite Hrun in H. discriminate H.
Defined.

(** A cached test whose [students] is an object with a property
    [toString] of its own: the sum cannot convert it, and the fold ends in
    a TypeError. *)
Example students_that_cannot_be_converted :
  let students := VObject [("toString", VNumber (Num.of_Z 1))] in
  let school :=
    VObject [("departments",
              VArray [VObject [("tests", VArray [VObject [("students", students)]])]])] in
  JSON.parse
    (Str.of_chars
       (Str.chars "{" ++ [JSON.dquote] ++ Str.chars "toString" ++ [JSON.dquote]
        ++ Str.chars ":1}"))
  = Some students
  /\ countable school = false
  /\ stats_of [school] = Rejected Js.conversion_error
  /\ is_type_error (stats_of [school]) = true.
Proof. vm_compute. repeat split. Qed.

(** ** Headings and cells *)

Lemma headings_counted (n : node) :
  forall (i : nat) (after : list node),
    List.length (Cheerio.select Cheerio.h3 i n after) = count_tag "h3" n.
Proof.
  induction n as [data | data | tag kids IH] using node_forest_ind; intros i after;
    [reflexivity | reflexivity |].
  unfold Cheerio.h3. rewrite select_element. fold Cheerio.h3.
  rewrite length_app. cbn [count_tag]. f_equal.
  - unfold Cheerio.matches. cbn [Cheerio.sel_tag Cheerio.sel_nth_child].
    rewrite andb_true_r. destruct (String.eqb tag "h3"); reflexivity.
  - generalize 1%nat. induction IH as [| k kids Hk _ IHkids]; intro j; [reflexivity|].
    cbn [Cheerio.select_forest map list_sum fold_right]. rewrite length_app, Hk, IHkids.
    reflexivity.
Qed.

Lemma headings_counted_forest (l : list node) (i : nat) :
  List.length (Cheerio.select_forest Cheerio.h3 i l) = list_sum (map (count_tag "h3") l).
Proof.
  revert i. induction l as [| n l IH]; intro i; [reflexivity|].
  cbn [Cheerio.select_forest map list_sum fold_right].
  rewrite length_app, headings_counted, IH. reflexivity.
Qed.

(** X9. The departments parsed from a document are as many as the [h3]
    elements in it, at whatever depth; when [cheerio.load] throws, its
    error is the outcome. *)
Theorem one_department_for_each_heading :
  forall (cheerio_parse : value -> settled (list node)) (data : value),
    match cheerio_load cheerio_parse data with
    | Resolved doc =>
        exists departments,
          parse_departments cheerio_parse data = Resolved departments
          /\ List.length departments = list_sum (map (count_tag "h3") doc)
    | Rejected e => parse_departments cheerio_parse data = Rejected e
    end.
Proof.
  intros cheerio_parse data. unfold parse_departments.
  destruct (cheerio_load cheerio_parse data) as [doc | e]; [|reflexivity].
  cbn [Js.and_then]. cbv zeta. eexists. split; [reflexivity|].
  unfold Cheerio.query. rewrite length_map. apply headings_counted_forest.
Qed.

Lemma next_element_after_text (gap : list string) (tag : string) (kids after : list node) :
  Cheerio.next_element (map Text gap ++ Element tag kids :: after)
  = Some (Cheerio.El tag kids after).
Proof. induction gap as [| t gap IH]; [reflexivity | exact IH]. Qed.

(** X10. The tests of a department are read from the element that comes
    next after its heading, text in between aside: when that element is
    not a table the department has no tests, even if a table follows
    further on. *)
Theorem tests_come_from_the_next_element_only :
  forall (heading : list node) (gap : list string) (tag : string)
         (kids after : list node),
    tag <> "table" ->
    Department.tests
      (department_of (Cheerio.El "h3" heading (map Text gap ++ Element tag kids :: after)))
    = [].
Proof.
  intros heading gap tag kids after Htag.
  unfold department_of, Cheerio.next. cbn [Cheerio.following Department.tests].
  rewrite next_element_after_text. cbn [Cheerio.tag Cheerio.table Cheerio.sel_tag].
  replace (String.eqb tag "table") with false
    by (symmetry; apply String.eqb_neq; exact Htag).
  reflexivity.
Qed.

Lemma tests_come_from_the_next_element_only_witness :
  parse_departments
    (fun _ => Resolved [Element "h3" [Text "Lagadeild"]; Text " ";
                        Element "p" [Text "Haust"];
                        Fragment.table_of Sample.section_a])
    (VString "")
  = Resolved [Department.Make "Lagadeild" []]
  /\ Department.tests
       (department_of
          (Cheerio.El "h3" [Text "Lagadeild"]
             (map Text [" "] ++ Element "p" [Text "Haust"]
                :: [Fragment.table_of Sample.section_a])))
     = [].
Proof.
  split; [vm_compute; reflexivity|].
  apply (tests_come_from_the_next_element_only [Text "Lagadeild"] [" "] "p"
           [Text "Haust"] [Fragment.table_of Sample.section_a]).
  discriminate.
Defined.





(** ** The list of divisions *)

Lemma append_inj (p s t : string) : (p ++ s = p ++ t)%string -> s = t.
Proof.
  induction p as [| c p IH]; intro H; [exact H|].
  cbn in H. injection H as H. exact (IH H).
Qed.

(** X13. Every division of the list is found by its own slug, and two
    different divisions never share a cache key, whatever the prefix, nor
    a request URL. *)
Theorem every_school_has_its_own_key_and_page :
  forall (REDIS_PREFIX : option string) (a b : Division.t),
    In a schools -> In b schools ->
    find_school (Division.slug a) = Some a
    /\ (a <> b ->
        key_of REDIS_PREFIX (Division.slug a) <> key_of REDIS_PREFIX (Division.slug b)
        /\ url_of (Division.id a) <> url_of (Division.id b)).
Proof.
  intros REDIS_PREFIX a b Ha Hb. split.
  - pose proof schools_found as Hfound. rewrite Forall_forall in Hfound.
    apply Hfound. exact Ha.
  - intro Hne. split.
    + intro Hkey. unfold key_of in Hkey. apply append_inj, append_inj in Hkey.
      apply Hne. cbn in Ha, Hb.
      repeat (destruct Ha as [<- | Ha];
              [repeat (destruct Hb as [<- | Hb];
                       [first [reflexivity | discriminate Hkey]|]);
               destruct Hb|]).
      destruct Ha.
    + intro Hurl. apply Hne. cbn in Ha, Hb.
      repeat (destruct Ha as [<- | Ha];
              [repeat (destruct Hb as [<- | Hb];
                       [first [reflexivity | vm_compute in Hurl; discriminate Hurl]|]);
               destruct Hb|]).
      destruct Ha.
Qed.

Lemma every_school_has_its_own_key_and_page_witness :
  let a := Division.Make "Félagsvísindasvið" (Num.of_Z 1) "felagsvisindasvid" in
  let b := Division.Make "Heilbrigðisvísindasvið" (Num.of_Z 2) "heilbrigdisvisindasvid" in
  find_school "felagsvisindasvid" = Some a
  /\ key_of None (Division.slug a) <> key_of None (Division.slug b)
  /\ url_of (Division.id a) <> url_of (Division.id b).
Proof.
  intros a b.
  destruct (every_school_has_its_own_key_and_page None a b) as [Hfound Hown].
  - left. reflexivity.
  - right. left. reflexivity.
  - split; [exact Hfound|]. apply Hown. discriminate.
Defined.

(** ** Clearing and expiry in the in-memory store *)

(** X14. In the in-memory store, when the prefix holds no pattern
    character: [clearCache] resolves with [true] and leaves no live key
    under the prefix, the entries whose key does not match the pattern are
    as they were, and the next lookup of a slug of the list finds nothing
    under its key and makes its request. *)
Theorem clearCache_makes_the_next_lookup_go_upstream :
  forall (REDIS_EXPIRE REDIS_PREFIX : option string)
         (cheerio_parse : value -> settled (list node)) (upstream : string -> settled response)
         (st : Mem.state) (slug : string) (item : Division.t),
    glob_free (redisPrefix REDIS_PREFIX) = true ->
    find_school slug = Some item ->
    let pattern := (redisPrefix REDIS_PREFIX ++ ":*")%string in
    exists st1 calls,
      run (Mem.over upstream) (clearCache REDIS_PREFIX) st = (st1, calls, Resolved true)
      /\ Mem.keys pattern st1 = (st1, Resolved [])
      /\ (forall key, Mem.key_matches pattern key = false ->
            Mem.lookup key (Mem.entries st1) = Mem.lookup key (Mem.entries st))
      /\ Mem.get (key_of REDIS_PREFIX slug) st1 = (st1, Resolved None)
      /\ requests (snd (fst (run (Mem.over upstream)
                               (getTests REDIS_EXPIRE REDIS_PREFIX cheerio_parse slug) st1)))
         = 1%nat.
Proof.
  intros REDIS_EXPIRE REDIS_PREFIX cheerio_parse upstream st slug item Hfree Hfind pattern.
  pose proof (run_clearCache_store upstream REDIS_PREFIX st) as Hrun. cbv zeta in Hrun.
  fold pattern in Hrun.
  set (keys := map fst (filter (fun ke => Mem.live st (snd ke)
                                          && Mem.key_matches pattern (fst ke))
                               (Mem.entries st))) in *.
  set (st1 := Mem.State (without keys (Mem.entries st)) (Mem.clock st)) in *.
  assert (Hlisted : forall k e, In (k, e) (Mem.entries st) ->
                      Mem.live st e = true -> Mem.key_matches pattern k = true ->
                      existsb (String.eqb k) keys = true).
  { intros k e Hin Hlive Hmatch. apply existsb_exists. exists k.
    split; [|apply String.eqb_refl].
    unfold keys. apply in_map_iff. exists (k, e). split; [reflexivity|].
    apply filter_In. split; [exact Hin|]. cbn [fst snd]. rewrite Hlive, Hmatch. reflexivity. }
  assert (Hmatching : forall k, existsb (String.eqb k) keys = true ->
                        Mem.key_matches pattern k = true).
  { intros k Hk. apply existsb_exists in Hk. destruct Hk as (k' & Hin & Heq).
    apply String.eqb_eq in Heq. subst k'.
    unfold keys in Hin. apply in_map_iff in Hin. destruct Hin as ([k' e] & <- & Hin).
    apply filter_In in Hin. destruct Hin as [_ Hok]. cbn [fst snd] in *.
    apply andb_prop in Hok. apply Hok. }
  assert (Hget : Mem.get (key_of REDIS_PREFIX slug) st1 = (st1, Resolved None)).
  { unfold Mem.get. cbn [st1 Mem.entries]. rewrite lookup_without.
    destruct (existsb (String.eqb (key_of REDIS_PREFIX slug)) keys) eqn:Hin; [reflexivity|].
    destruct (Mem.lookup (key_of REDIS_PREFIX slug) (Mem.entries st)) as [e |] eqn:Hlook;
      [|reflexivity].
    replace (Mem.live st1 e) with false; [reflexivity|].
    symmetry. change (Mem.live st1 e) with (Mem.live st e).
    destruct (Mem.live st e) eqn:Hlive; [|reflexivity].
    rewrite (Hlisted _ e (lookup_in _ _ _ Hlook) Hlive) in Hin; [discriminate Hin|].
    apply pattern_matches_keys. exact Hfree. }
  exists st1, (CallKeys pattern :: map CallDel keys).
  split; [exact Hrun|]. split; [|split; [|split; [exact Hget|]]].
  - unfold Mem.keys. f_equal. f_equal.
    replace (filter _ (Mem.entries st1)) with (@nil (string * Mem.entry)); [reflexivity|].
    symmetry. apply filter_none. intros [k e] Hin. cbn [fst snd].
    apply in_without in Hin. destruct Hin as [Hin Hno]. cbn [fst] in Hno.
    change (Mem.live st1 e) with (Mem.live st e).
    destruct (Mem.live st e) eqn:Hlive; [|reflexivity].
    destruct (Mem.key_matches pattern k) eqn:Hmatch; [|reflexivity].
    rewrite (Hlisted k e Hin Hlive Hmatch) in Hno. discriminate Hno.
  - intros key Hno. cbn [st1 Mem.entries]. rewrite lookup_without.
    destruct (existsb (String.eqb key) keys) eqn:Hin; [|reflexivity].
    rewrite (Hmatching key Hin) in Hno. discriminate Hno.
  - rewrite (run_getTests_calls _ _ _ _ slug item st1 Hfind). cbv zeta.
    cbn [Mem.over on_get]. rewrite Hget.
    cbn [decoded reply_text].
    change (JSON.parse "null") with (Some VNull). cbn [Js.truthy Mem.over on_fetch on_set].
    destruct (result_of_reply cheerio_parse (Division.name item)
                (upstream (url_of (Division.id item)))) as [data | e];
      [|reflexivity].
    destruct (Mem.set (key_of REDIS_PREFIX slug)
                (JSON.stringify (DivisionResult.to_value data)) REDIS_EXPIRE st1)
      as [st2 [[] | e]]; reflexivity.
Qed.

Lemma clearCache_makes_the_next_lookup_go_upstream_witness :
  let store := Sample.cached_results [Sample.result_of [3]; Sample.result_of [10; 1]]%Z in
  exists st1 calls,
    run (Mem.over Sample.serving) (clearCache None) store = (st1, calls, Resolved true)
    /\ Mem.keys "proftafla:*" st1 = (st1, Resolved [])
    /\ Mem.get "proftafla:felagsvisindasvid" st1 = (st1, Resolved None)
    /\ requests (snd (fst (run (Mem.over Sample.serving)
                             (getTests (Some "60") None Sample.load "felagsvisindasvid")
                             st1)))
       = 1%nat.
Proof.
  intro store.
  destruct (clearCache_makes_the_next_lookup_go_upstream (Some "60") None Sample.load
              Sample.serving store "felagsvisindasvid"
              (Division.Make "Félagsvísindasvið" (Num.of_Z 1) "felagsvisindasvid")
              eq_refl eq_refl)
    as (st1 & calls & Hrun & Hkeys & _ & Hget & Hreq).
  exists st1, calls. repeat split; assumption.
Defined.

(** X15. In the in-memory store: once the REDIS_EXPIRE seconds have passed
    since a lookup cached its result, the key reads as missing and the
    next lookup makes its request again. *)
Theorem expired_entry_is_fetched_again :
  forall (ttl : string) (n : Z) (REDIS_PREFIX : option string)
         (cheerio_parse : value -> settled (list node)) (upstream : string -> settled response)
         (slug : string) (item : Division.t) (st0 st1 : Mem.state)
         (calls1 : list call) (v : value) (dt : Z),
    Mem.seconds (Some ttl) = Some n ->
    find_school slug = Some item ->
    run (Mem.over upstream) (getTests (Some ttl) REDIS_PREFIX cheerio_parse slug) st0
    = (st1, calls1, Resolved v) ->
    requests calls1 = 1%nat ->
    (n <= dt)%Z ->
    Mem.get (key_of REDIS_PREFIX slug) (Mem.tick dt st1) = (Mem.tick dt st1, Resolved None)
    /\ requests (snd (fst (run (Mem.over upstream)
                             (getTests (Some ttl) REDIS_PREFIX cheerio_parse slug)
                             (Mem.tick dt st1))))
       = 1%nat.
Proof.
  intros ttl n REDIS_PREFIX cheerio_parse upstream slug item st0 st1 calls1 v dt
         Httl Hfind Hrun Hreq Hdt.
  assert (Hget : Mem.get (key_of REDIS_PREFIX slug) (Mem.tick dt st1)
                 = (Mem.tick dt st1, Resolved None)).
  { rewrite (run_getTests_calls _ _ _ _ slug item st0 Hfind) in Hrun. cbv zeta in Hrun.
    cbn [Mem.over on_get on_fetch on_set] in Hrun.
    destruct (Mem.get (key_of REDIS_PREFIX slug) st0) as [st reply] eqn:Hfirst.
    assert (Hst : st = st0).
    { unfold Mem.get in Hfirst.
      destruct (Mem.lookup (key_of REDIS_PREFIX slug) (Mem.entries st0));
        injection Hfirst as <- _; reflexivity. }
    subst st.
    destruct (match decoded reply with Some v0 => Js.truthy v0 | None => false end).
    - injection Hrun as _ <- _. discriminate Hreq.
    - destruct (result_of_reply cheerio_parse (Division.name item)
                  (upstream (url_of (Division.id item)))) as [data | e];
        [|discriminate Hrun].
      unfold Mem.set in Hrun. rewrite Httl in Hrun.
      injection Hrun as <- _ _.
      unfold Mem.get, Mem.tick. cbn [Mem.entries Mem.clock Mem.lookup].
      rewrite String.eqb_refl. unfold Mem.live. cbn [Mem.clock Mem.expires].
      replace (Mem.clock st0 + dt <? Mem.clock st0 + n)%Z with false
        by (symmetry; apply Z.ltb_ge; lia).
      reflexivity. }
  split; [exact Hget|].
  rewrite (run_getTests_calls _ _ _ _ slug item (Mem.tick dt st1) Hfind). cbv zeta.
  cbn [Mem.over on_get]. rewrite Hget. cbn [decoded reply_text].
  change (JSON.parse "null") with (Some VNull). cbn [Js.truthy Mem.over on_fetch on_set].
  destruct (result_of_reply cheerio_parse (Division.name item)
              (upstream (url_of (Division.id item)))) as [data | e];
    [|reflexivity].
  destruct (Mem.set (key_of REDIS_PREFIX slug)
              (JSON.stringify (DivisionResult.to_value data)) (Some ttl) (Mem.tick dt st1))
    as [st2 [[] | e]]; reflexivity.
Qed.

Lemma expired_entry_is_fetched_again_witness :
  let world := Mem.over Sample.serving in
  let first := run world (getTests (Some "60") None Sample.load "hugvisindasvid") Mem.empty in
  let later := Mem.tick 60 (fst (fst first)) in
  requests (snd (fst first)) = 1%nat
  /\ Mem.get "proftafla:hugvisindasvid" later = (later, Resolved None)
  /\ requests (snd (fst (run world (getTests (Some "60") None Sample.load "hugvisindasvid")
                           later)))
     = 1%nat.
Proof.
  intros world first later.
  assert (Hreq : requests (snd (fst first)) = 1%nat) by (vm_compute; reflexivity).
  split; [exact Hreq|].
  assert (Hres : is_resolved (snd first) = true) by (vm_compute; reflexivity).
  destruct first as [[st1 calls1] [v | e]] eqn:Hfirst; [|discriminate Hres].
  apply (expired_entry_is_fetched_again "60" 60 None Sample.load Sample.serving
           "hugvisindasvid"
           (Division.Make "Hugvísindasvið" (Num.of_Z 3) "hugvisindasvid")
           Mem.empty st1 calls1 v 60 eq_refl eq_refl Hfirst Hreq).
  lia.
Defined.

(** ** Student counts that are integers

    The numbers that stand for the integers from 0 to [2^53] are added and
    compared exactly. *)

Lemma iter_pos_nat {A : Type} (f : A -> A) (p : positive) (x : A) :
  iter_pos f p x = Nat.iter (Pos.to_nat p) f x.
Proof.
  revert x. induction p as [p IH | p IH |]; intro x; cbn [iter_pos].
  - rewrite !IH, Pos2Nat.inj_xI.
    replace (S (2 * Pos.to_nat p)) with (Pos.to_nat p + S (Pos.to_nat p))%nat by lia.
    rewrite Nat.iter_add, Nat.iter_succ_r. reflexivity.
  - rewrite !IH, Pos2Nat.inj_xO.
    replace (2 * Pos.to_nat p)%nat with (Pos.to_nat p + Pos.to_nat p)%nat by lia.
    rewrite Nat.iter_add. reflexivity.
  - reflexivity.
Qed.

Lemma pos_iter_nat {A : Type} (f : A -> A) (p : positive) (x : A) :
  Pos.iter f x p = Nat.iter (Pos.to_nat p) f x.
Proof. rewrite Pos2Nat.inj_iter. reflexivity. Qed.

Lemma iter_shifted (n : positive) (k : nat) : Nat.iter k xO n = shifted n k.
Proof.
  induction k as [| k IH]; [reflexivity|].
  rewrite Nat.iter_succ, IH. reflexivity.
Qed.

Lemma digits_shifted (n : positive) (k : nat) :
  Zpos (digits2_pos (shifted n k)) = Zpos (digits2_pos n) + Z.of_nat k.
Proof.
  induction k as [| k IH]; cbn [shifted digits2_pos].
  - rewrite Z.add_0_r. reflexivity.
  - rewrite Pos2Z.inj_succ, IH, Nat2Z.inj_succ. lia.
Qed.

Lemma shifted_add (n : positive) (j k : nat) :
  shifted (shifted n j) k = shifted n (k + j).
Proof.
  induction k as [| k IH]; [reflexivity|].
  cbn [shifted Nat.add]. rewrite IH. reflexivity.
Qed.

Lemma shr_shifted (n : positive) (k j : nat) :
  Nat.iter k shr_1 (Build_shr_record (Zpos (shifted n (k + j))) false false)
  = Build_shr_record (Zpos (shifted n j)) false false.
Proof.
  induction k as [| k IH]; [reflexivity|].
  rewrite Nat.iter_succ_r. cbn [Nat.add shifted shr_1 orb].
  exact IH.
Qed.

Lemma normalize_shifted (n : positive) (j : nat) :
  Zpos (digits2_pos n) <= 53 ->
  binary_normalize Num.prec Num.emax (Zpos (shifted n j)) (- Z.of_nat j) false
  = canon n.
Proof.
  intro Hd. set (d := Zpos (digits2_pos n)) in *.
  assert (Hd1 : 1 <= d) by (unfold d; lia).
  unfold binary_normalize, binary_round.
  rewrite digits_shifted. fold d.
  replace (d + Z.of_nat j + - Z.of_nat j) with d by lia.
  assert (Hfexp : fexp Num.prec Num.emax d = d - 53).
  { unfold fexp, emin, Num.prec, Num.emax. lia. }
  rewrite Hfexp.
  assert (Haux : forall m, Zpos (digits2_pos m) = 53 ->
             binary_round_aux Num.prec Num.emax false (Zpos m) (d - 53) loc_Exact
             = S754_finite false m (d - 53)).
  { intros m Hm. unfold binary_round_aux, shr_fexp. cbn [Zdigits2].
    rewrite Hm. replace (53 + (d - 53)) with d by lia. rewrite Hfexp.
    rewrite Z.sub_diag.
    cbn [shr shr_record_of_loc shr_m loc_of_shr_record round_nearest_even Zdigits2].
    rewrite Hm. replace (53 + (d - 53)) with d by lia. rewrite Hfexp.
    rewrite Z.sub_diag. cbn [shr shr_record_of_loc shr_m].
    replace (d - 53 <=? Num.emax - Num.prec)%Z with true; [reflexivity|].
    symmetry. apply Z.leb_le. unfold Num.emax, Num.prec. lia. }
  unfold canon. fold d.
  destruct (Z.lt_ge_cases (Z.of_nat j) (53 - d)) as [Hlt | Hge].
  - (* shifted to the left *)
    unfold shl_align.
    destruct (d - 53 - - Z.of_nat j) as [| p | p] eqn:Hp; try lia.
    rewrite pos_iter_nat, iter_shifted, shifted_add.
    replace (Pos.to_nat p + j)%nat with (Z.to_nat (53 - d)) by lia.
    apply Haux. rewrite digits_shifted. fold d. lia.
  - unfold shl_align.
    destruct (d - 53 - - Z.of_nat j) as [| p | p] eqn:Hp; try lia.
    + replace (- Z.of_nat j) with (d - 53) by lia.
      replace j with (Z.to_nat (53 - d)) by lia.
      apply Haux. rewrite digits_shifted. fold d. lia.
    + unfold binary_round_aux, shr_fexp. cbn [Zdigits2].
      rewrite digits_shifted. fold d.
      replace (d + Z.of_nat j + - Z.of_nat j) with d by lia. rewrite Hfexp, Hp.
      cbn [shr shr_record_of_loc]. rewrite iter_pos_nat.
      assert (Hshr : Nat.iter (Pos.to_nat p) shr_1
                       (Build_shr_record (Zpos (shifted n j)) false false)
                     = Build_shr_record (Zpos (shifted n (Z.to_nat (53 - d)))) false false).
      { replace j with (Pos.to_nat p + Z.to_nat (53 - d))%nat by lia.
        apply shr_shifted. }
      rewrite Hshr.
      cbn [shr_m loc_of_shr_record round_nearest_even Zdigits2].
      rewrite digits_shifted. fold d.
      replace (d + Z.of_nat (Z.to_nat (53 - d)) + (- Z.of_nat j + Z.pos p)) with d by lia.
      rewrite Hfexp.
      replace (d - 53 - (- Z.of_nat j + Z.pos p)) with 0 by lia.
      cbn [shr shr_record_of_loc shr_m].
      replace (- Z.of_nat j + Z.pos p <=? Num.emax - Num.prec)%Z with true.
      * f_equal. lia.
      * symmetry. apply Z.leb_le. unfold Num.emax, Num.prec. lia.
Qed.

(** [2^(d-1) <= n < 2^d] for the number [d] of binary digits of [n]. *)
Lemma digits_bounds (n : positive) :
  2 ^ (Zpos (digits2_pos n) - 1) <= Zpos n < 2 ^ Zpos (digits2_pos n).
Proof.
  induction n as [n IH | n IH |]; cbn [digits2_pos].
  - rewrite Pos2Z.inj_succ.
    replace (Z.succ (Zpos (digits2_pos n)) - 1) with (Z.succ (Zpos (digits2_pos n) - 1)) by lia.
    rewrite !Z.pow_succ_r by lia. lia.
  - rewrite Pos2Z.inj_succ.
    replace (Z.succ (Zpos (digits2_pos n)) - 1) with (Z.succ (Zpos (digits2_pos n) - 1)) by lia.
    rewrite !Z.pow_succ_r by lia. lia.
  - cbn. lia.
Qed.

Lemma digits_le (n : positive) (k : Z) :
  0 <= k -> Zpos n < 2 ^ k -> Zpos (digits2_pos n) <= k.
Proof.
  intros Hk Hn. destruct (digits_bounds n) as [Hlow _].
  destruct (Z.le_gt_cases (Zpos (digits2_pos n)) k) as [Hle | Hgt]; [exact Hle|].
  exfalso.
  assert (2 ^ k <= 2 ^ (Zpos (digits2_pos n) - 1)) by (apply Z.pow_le_mono_r; lia).
  lia.
Qed.

Lemma digits_mono (a b : positive) :
  (a <= b)%positive -> Zpos (digits2_pos a) <= Zpos (digits2_pos b).
Proof.
  intro Hab. apply digits_le; [lia|].
  destruct (digits_bounds b) as [_ Hb]. lia.
Qed.

Lemma of_Z_pos (n : positive) :
  Zpos n < 2 ^ 53 -> Num.of_Z (Zpos n) = canon n.
Proof.
  intro Hn. unfold Num.of_Z.
  apply (normalize_shifted n 0). apply digits_le; [lia | exact Hn].
Qed.

Lemma shifted_plus (a b : positive) (k : nat) :
  (shifted a k + shifted b k)%positive = shifted (a + b) k.
Proof.
  induction k as [| k IH]; [reflexivity|].
  cbn [shifted]. rewrite <- IH. reflexivity.
Qed.

Lemma add_canon (a b : positive) :
  Zpos (a + b) < 2 ^ 53 ->
  Num.add (canon a) (canon b) = canon (a + b).
Proof.
  intro Hsum.
  assert (Hd : Zpos (digits2_pos (a + b)) <= 53) by (apply digits_le; [lia | exact Hsum]).
  assert (Ha : Zpos (digits2_pos a) <= Zpos (digits2_pos (a + b)))
    by (apply digits_mono; lia).
  assert (Hb : Zpos (digits2_pos b) <= Zpos (digits2_pos (a + b)))
    by (apply digits_mono; lia).
  unfold Num.add, canon at 1 2. cbv zeta. cbn [SFadd cond_Zopp].
  set (da := Zpos (digits2_pos a)) in *. set (db := Zpos (digits2_pos b)) in *.
  set (ez := Z.min (da - 53) (db - 53)).
  assert (Hshl : forall n dn, 1 <= dn <= 53 -> ez <= dn - 53 ->
             fst (shl_align (shifted n (Z.to_nat (53 - dn))) (dn - 53) ez)
             = shifted n (Z.to_nat (- ez))).
  { intros n dn Hdn Hez. unfold shl_align.
    destruct (ez - (dn - 53)) as [| p | p] eqn:Hp; try lia; cbn [fst].
    - f_equal. lia.
    - rewrite pos_iter_nat, iter_shifted, shifted_add. f_equal. lia. }
  rewrite (Hshl a da) by (unfold da, ez in *; lia).
  rewrite (Hshl b db) by (unfold db, ez in *; lia).
  rewrite <- Pos2Z.inj_add, shifted_plus.
  replace ez with (- Z.of_nat (Z.to_nat (- ez))) at 2 by (unfold ez, da, db; lia).
  apply normalize_shifted. exact Hd.
Qed.

Lemma shifted_compare (a b : positive) (k : nat) :
  Pos.compare (shifted a k) (shifted b k) = Pos.compare a b.
Proof. induction k as [| k IH]; [reflexivity|]. cbn [shifted]. exact IH. Qed.

Lemma lt_canon (a b : positive) :
  Zpos a < 2 ^ 53 -> Zpos b < 2 ^ 53 ->
  Num.lt (canon a) (canon b) = (Zpos a <? Zpos b)%Z.
Proof.
  intros Ha Hb.
  pose proof (digits_bounds a) as [Ha1 Ha2]. pose proof (digits_bounds b) as [Hb1 Hb2].
  unfold Num.lt, SFltb, canon. cbv zeta. cbn [SFcompare].
  set (da := Zpos (digits2_pos a)) in *. set (db := Zpos (digits2_pos b)) in *.
  destruct (Z.compare_spec (da - 53) (db - 53)) as [Heq | Hlt | Hgt].
  - replace db with da by lia.
    change (Pos.compare_cont Eq ?x ?y) with (Pos.compare x y).
    rewrite shifted_compare. unfold Z.ltb. cbn [Z.compare].
    destruct (Pos.compare a b); reflexivity.
  - assert (2 ^ da <= 2 ^ (db - 1)) by (apply Z.pow_le_mono_r; lia).
    symmetry. apply Z.ltb_lt. lia.
  - assert (2 ^ db <= 2 ^ (da - 1)) by (apply Z.pow_le_mono_r; lia).
    symmetry. apply Z.ltb_ge. lia.
Qed.

(** Addition and order of the numbers that stand for non-negative
    integers below [2^53] are those of the integers. *)
Lemma add_of_Z (a b : Z) :
  0 <= a -> 0 <= b -> a + b < 2 ^ 53 ->
  Num.add (Num.of_Z a) (Num.of_Z b) = Num.of_Z (a + b).
Proof.
  intros Ha Hb Hsum.
  destruct a as [| a | a]; [| | lia]; destruct b as [| b | b]; try lia.
  - reflexivity.
  - cbn [Z.add]. rewrite of_Z_pos by lia. reflexivity.
  - cbn [Z.add]. rewrite of_Z_pos by lia. reflexivity.
  - rewrite <- Pos2Z.inj_add in *. rewrite !of_Z_pos by lia. apply add_canon. exact Hsum.
Qed.

Lemma lt_of_Z (a b : Z) :
  0 <= a < 2 ^ 53 -> 0 <= b < 2 ^ 53 ->
  Num.lt (Num.of_Z a) (Num.of_Z b) = (a <? b)%Z.
Proof.
  intros Ha Hb.
  destruct a as [| a | a]; [| | lia]; destruct b as [| b | b]; try lia.
  - reflexivity.
  - rewrite of_Z_pos by lia. reflexivity.
  - rewrite of_Z_pos by lia. reflexivity.
  - rewrite !of_Z_pos by lia. apply lt_canon; lia.
Qed.

Lemma total_nonneg (ks : list Z) : Forall (fun k => 0 <= k) ks -> 0 <= total ks.
Proof. induction 1 as [| k ks Hk _ IH]; cbn [total fold_right]; [lia | fold (total ks); lia]. Qed.

Lemma count_all_integers (ks : list Z) :
  forall mn mx nt ns : Z,
    Forall (fun k => 0 <= k) ks ->
    0 <= mn < 2 ^ 53 -> 0 <= mx < 2 ^ 53 ->
    0 <= nt -> nt + Z.of_nat (List.length ks) < 2 ^ 53 ->
    0 <= ns -> ns + total ks < 2 ^ 53 ->
    Totals.count_all (map Num.of_Z ks)
      (Totals.Make (Num.of_Z mn) (Num.of_Z mx) (Num.of_Z nt) (Num.of_Z ns))
    = Totals.Make (Num.of_Z (fold_left Z.min ks mn)) (Num.of_Z (fold_left Z.max ks mx))
                  (Num.of_Z (nt + Z.of_nat (List.length ks)))
                  (Num.of_Z (ns + total ks)).
Proof.
  induction ks as [| k ks IH]; intros mn mx nt ns Hks Hmn Hmx Hnt Hlen Hns Hsum.
  - cbn [map Totals.count_all fold_left List.length total fold_right].
    rewrite !Z.add_0_r. reflexivity.
  - inversion Hks as [| ? ? Hk Hrest]; subst.
    pose proof (total_nonneg ks Hrest) as Htot.
    cbn [total fold_right] in Hsum. fold (total ks) in Hsum.
    cbn [List.length] in Hlen. rewrite Nat2Z.inj_succ in Hlen.
    cbn [map Totals.count_all fold_left].
    change (fold_left Totals.count (map Num.of_Z ks) ?c)
      with (Totals.count_all (map Num.of_Z ks) c).
    unfold Totals.count at 1.
    cbn [Totals.min Totals.max Totals.numTests Totals.numStudents].
    unfold Num.gt. rewrite !lt_of_Z by lia.
    rewrite !add_of_Z by lia.
    replace (if (k <? mn)%Z then Num.of_Z k else Num.of_Z mn) with (Num.of_Z (Z.min mn k))
      by (destruct (Z.ltb_spec k mn); f_equal; lia).
    replace (if (mx <? k)%Z then Num.of_Z k else Num.of_Z mx) with (Num.of_Z (Z.max mx k))
      by (destruct (Z.ltb_spec mx k); f_equal; lia).
    rewrite IH by (try assumption; lia).
    cbn [List.length total fold_right]. fold (total ks). rewrite Nat2Z.inj_succ.
    f_equal; f_equal; lia.
Qed.

Lemma add_nan_r (x : Num.number) : Num.add x Num.nan = Num.nan.
Proof. destruct x as [[] | [] | | [] ? ?]; reflexivity. Qed.

Lemma lt_nan_r (x : Num.number) : Num.lt x Num.nan = false.
Proof. destruct x as [[] | [] | | [] ? ?]; reflexivity. Qed.

Lemma count_all_numTests (xs : list Num.number) (c : Totals.t) (nt : Z) :
  Totals.numTests c = Num.of_Z nt ->
  0 <= nt -> nt + Z.of_nat (List.length xs) < 2 ^ 53 ->
  Totals.numTests (Totals.count_all xs c) = Num.of_Z (nt + Z.of_nat (List.length xs)).
Proof.
  revert c nt. induction xs as [| x xs IH]; intros c nt Hc Hnt Hlen.
  - cbn. rewrite Z.add_0_r. exact Hc.
  - cbn [List.length] in *. rewrite Nat2Z.inj_succ in *.
    cbn [Totals.count_all fold_left].
    change (fold_left Totals.count xs ?c) with (Totals.count_all xs c).
    rewrite (IH _ (nt + 1)); [f_equal; lia | | lia | lia].
    cbn [Totals.count Totals.numTests]. rewrite Hc. apply add_of_Z; lia.
Qed.

Lemma count_all_nan_sum (xs : list Num.number) (c : Totals.t) :
  Totals.numStudents c = Num.nan \/ (exists x, In x xs /\ Num.is_nan x = true) ->
  Totals.numStudents (Totals.count_all xs c) = Num.nan.
Proof.
  revert c. induction xs as [| x xs IH]; intros c Hnan.
  - destruct Hnan as [Hc | (x & [] & _)]. exact Hc.
  - cbn [Totals.count_all fold_left].
    change (fold_left Totals.count xs ?c) with (Totals.count_all xs c).
    apply IH. destruct Hnan as [Hc | (y & [<- | Hy] & Hnan)].
    + left. cbn [Totals.count Totals.numStudents]. rewrite Hc. reflexivity.
    + left. cbn [Totals.count Totals.numStudents].
      destruct x; try discriminate Hnan. apply add_nan_r.
    + right. exists y. split; assumption.
Qed.

Lemma count_all_skips_nan (xs : list Num.number) (c c' : Totals.t) :
  Totals.min c = Totals.min c' -> Totals.max c = Totals.max c' ->
  Totals.min (Totals.count_all xs c)
  = Totals.min (Totals.count_all (filter is_number xs) c')
  /\ Totals.max (Totals.count_all xs c)
     = Totals.max (Totals.count_all (filter is_number xs) c').
Proof.
  revert c c'. induction xs as [| x xs IH]; intros c c' Hmin Hmax; [split; assumption|].
  cbn [filter Totals.count_all fold_left].
  change (fold_left Totals.count xs ?c) with (Totals.count_all xs c).
  destruct (is_number x) eqn:Hx.
  - cbn [Totals.count_all fold_left].
    change (fold_left Totals.count ?l ?c) with (Totals.count_all l c).
    apply IH; cbn [Totals.count Totals.min Totals.max]; rewrite ?Hmin, ?Hmax; reflexivity.
  - destruct x; try discriminate Hx.
    apply IH; cbn [Totals.count Totals.min Totals.max].
    + exact Hmin.
    + unfold Num.gt. rewrite lt_nan_r. exact Hmax.
Qed.

Lemma count_test_cached (t : Test.t) (c : counters) :
  count_test (Cached.test t) c = tally (Cached.students (Test.students t)) c.
Proof. reflexivity. Qed.

Lemma each_app {S : Type} (f : value -> S -> settled S) (a b : list value) (s : S) :
  each f (a ++ b) s = Js.and_then (each f a s) (each f b).
Proof.
  revert s. induction a as [| x a IH]; intro s; [reflexivity|].
  cbn [app each]. destruct (f x s) as [s' | e]; [apply IH | reflexivity].
Qed.

Lemma each_cached_tests (ts : list Test.t) (c : counters) :
  each count_test (map Cached.test ts) c
  = each tally (map Cached.students (map Test.students ts)) c.
Proof.
  revert c. induction ts as [| t ts IH]; intro c; [reflexivity|].
  cbn [map each]. rewrite count_test_cached.
  destruct (tally _ c) as [c' | e]; [apply IH | reflexivity].
Qed.

Lemma each_cached_departments (ds : list Department.t) (c : counters) :
  each count_department (map Cached.department ds) c
  = each tally (map Cached.students (map Test.students (flat_map Department.tests ds))) c.
Proof.
  revert c. induction ds as [| d ds IH]; intro c; [reflexivity|].
  cbn [map each flat_map].
  replace (count_department (Cached.department d) c)
    with (each count_test (map Cached.test (Department.tests d)) c) by reflexivity.
  rewrite each_cached_tests, !map_app, each_app.
  destruct (each tally _ c) as [c' | e]; [apply IH | reflexivity].
Qed.

Lemma each_cached_results (rs : list DivisionResult.t) (c : counters) :
  each count_school (map Cached.result rs) c
  = each tally (map Cached.students (students_of rs)) c.
Proof.
  revert c. induction rs as [| r rs IH]; intro c; [reflexivity|].
  cbn [map each].
  replace (count_school (Cached.result r) c)
    with (each count_department (map Cached.department (DivisionResult.departments r)) c)
    by reflexivity.
  rewrite each_cached_departments.
  unfold students_of, DivisionResult.all_tests. cbn [flat_map].
  rewrite !map_app, each_app.
  destruct (each tally _ c) as [c' | e]; [apply IH | reflexivity].
Qed.

Lemma tally_number (mn : value) (mx nt ns x : Num.number) (pmn : Js.primitive) :
  Js.to_primitive mn = Resolved pmn ->
  tally (VNumber x) (Counters mn (VNumber mx) nt (VNumber ns))
  = Resolved (Counters (if Js.before (Js.PNumber x) pmn then VNumber x else mn)
                       (if Num.lt mx x then VNumber x else VNumber mx)
                       (Num.add nt (Num.of_Z 1))
                       (VNumber (Num.add ns x))).
Proof.
  intro Hmn. unfold tally, count_test, get_then, Js.plus, Js.greater_than, Js.less_than.
  cbn [Js.get Js.lookup String.eqb Ascii.eqb Bool.eqb c_min c_max c_numTests c_numStudents
       Js.to_primitive Js.and_then].
  rewrite Hmn. reflexivity.
Qed.

Lemma tally_null (mn : value) (mx nt ns : Num.number) (pmn : Js.primitive) :
  Js.to_primitive mn = Resolved pmn ->
  tally VNull (Counters mn (VNumber mx) nt (VNumber ns))
  = Resolved (Counters (if Js.before Js.PNull pmn then VNull else mn)
                       (if Num.lt mx (Num.of_Z 0) then VNull else VNumber mx)
                       (Num.add nt (Num.of_Z 1))
                       (VNumber (Num.add ns (Num.of_Z 0)))).
Proof.
  intro Hmn. unfold tally, count_test, get_then, Js.plus, Js.greater_than, Js.less_than.
  cbn [Js.get Js.lookup String.eqb Ascii.eqb Bool.eqb c_min c_max c_numTests c_numStudents
       Js.to_primitive Js.and_then].
  rewrite Hmn. reflexivity.
Qed.

Lemma tally_cached_counts (ks : list (option Z)) :
  forall (missing : bool) (mn mx nt ns : Z),
    Forall (fun k => 1 <= k) (known ks) ->
    1 <= mn < 2 ^ 53 -> 0 <= mx < 2 ^ 53 ->
    0 <= nt -> nt + Z.of_nat (List.length ks) < 2 ^ 53 ->
    0 <= ns -> ns + total (known ks) < 2 ^ 53 ->
    each tally (map Cached.students (map count_of ks))
      (Counters (min_value missing mn) (VNumber (Num.of_Z mx)) (Num.of_Z nt)
                (VNumber (Num.of_Z ns)))
    = Resolved
        (Counters (min_value (missing || existsb is_missing ks)
                             (fold_left Z.min (known ks) mn))
                  (VNumber (Num.of_Z (fold_left Z.max (known ks) mx)))
                  (Num.of_Z (nt + Z.of_nat (List.length ks)))
                  (VNumber (Num.of_Z (ns + total (known ks))))).
Proof.
  induction ks as [| o ks IH]; intros missing mn mx nt ns Hks Hmn Hmx Hnt Hlen Hns Hsum.
  - cbn [map each fold_left List.length known flat_map total fold_right existsb].
    rewrite !Z.add_0_r, orb_false_r. reflexivity.
  - cbn [List.length] in Hlen. rewrite Nat2Z.inj_succ in Hlen.
    cbn [map each existsb List.length]. rewrite Nat2Z.inj_succ.
    set (pmn := if missing then Js.PNull else Js.PNumber (Num.of_Z mn)).
    assert (Hprim : Js.to_primitive (min_value missing mn) = Resolved pmn)
      by (destruct missing; reflexivity).
    destruct o as [k |].
    + cbn [known flat_map app] in *. fold (known ks) in *.
      inversion Hks as [| ? ? Hk Hrest]; subst.
      pose proof (total_nonneg (known ks)) as Htot.
      assert (0 <= total (known ks)).
      { apply Htot. eapply Forall_impl; [|exact Hrest]. cbv beta. intros; lia. }
      cbn [total fold_right] in Hsum. fold (total (known ks)) in Hsum.
      cbn [count_of is_missing orb fold_left total fold_right]. fold (total (known ks)).
      assert (Hst : Cached.students (Num.of_Z k) = VNumber (Num.of_Z k)).
      { destruct k as [| p | p]; try lia. rewrite of_Z_pos by lia. reflexivity. }
      rewrite Hst, (tally_number _ _ _ _ _ pmn Hprim).
      rewrite lt_of_Z, !add_of_Z by lia.
      replace (if (mx <? k)%Z then VNumber (Num.of_Z k) else VNumber (Num.of_Z mx))
        with (VNumber (Num.of_Z (Z.max mx k)))
        by (destruct (Z.ltb_spec mx k); do 2 f_equal; lia).
      replace (if Js.before (Js.PNumber (Num.of_Z k)) pmn
               then VNumber (Num.of_Z k) else min_value missing mn)
        with (min_value missing (Z.min mn k)).
      * rewrite IH by (try assumption; lia).
        do 2 f_equal; first [f_equal; lia | do 2 f_equal; lia].
      * unfold pmn. destruct missing; unfold min_value.
        -- change (Js.before (Js.PNumber (Num.of_Z k)) Js.PNull)
             with (Num.lt (Num.of_Z k) (Num.of_Z 0)).
           rewrite lt_of_Z by lia.
           destruct (Z.ltb_spec k 0); [lia | reflexivity].
        -- change (Js.before (Js.PNumber (Num.of_Z k)) (Js.PNumber (Num.of_Z mn)))
             with (Num.lt (Num.of_Z k) (Num.of_Z mn)).
           rewrite lt_of_Z by lia.
           destruct (Z.ltb_spec k mn); do 2 f_equal; lia.
    + cbn [known flat_map app] in *. fold (known ks) in *.
      assert (0 <= total (known ks)).
      { apply total_nonneg. eapply Forall_impl; [|exact Hks]. cbv beta. intros; lia. }
      change (Cached.students (count_of None)) with VNull.
      cbn [is_missing]. rewrite orb_true_r.
      rewrite (tally_null _ _ _ _ pmn Hprim).
      rewrite lt_of_Z, !add_of_Z by lia.
      destruct (Z.ltb_spec mx 0); [lia|].
      replace (if Js.before Js.PNull pmn then VNull else min_value missing mn)
        with (min_value true mn).
      * rewrite IH by (try assumption; lia).
        cbn [orb]. do 2 f_equal; first [f_equal; lia | do 2 f_equal; lia].
      * unfold pmn. destruct missing; unfold min_value.
        -- reflexivity.
        -- change (Js.before Js.PNull (Js.PNumber (Num.of_Z mn)))
             with (Num.lt (Num.of_Z 0) (Num.of_Z mn)).
           rewrite lt_of_Z by lia.
           destruct (Z.ltb_spec 0 mn); [reflexivity | lia].
Qed.

(** X16. When the student counts are non-negative integers whose sum is
    below [2^53], the statistics are exact: numTests is the number of
    tests, numStudents their sum, min the least of 999 and the counts, max
    the greatest of 0 and the counts, and the average is [toFixed(2)] of
    the quotient of the sum by the number. *)
Theorem getStats_on_integer_counts :
  forall (REDIS_EXPIRE REDIS_PREFIX : option string)
         (cheerio_parse : value -> settled (list node)) (W : Type) (h : world W)
         (w w' : W) (calls : list call) (results : list DivisionResult.t)
         (ks : list Z),
    run h (lookups REDIS_EXPIRE REDIS_PREFIX cheerio_parse) w
    = (w', calls, Resolved (map DivisionResult.to_value results)) ->
    students_of results = map Num.of_Z ks ->
    Forall (fun k => 0 <= k) ks ->
    total ks < 2 ^ 53 ->
    Z.of_nat (List.length ks) < 2 ^ 53 ->
    run h (getStats REDIS_EXPIRE REDIS_PREFIX cheerio_parse) w
    = (w', calls,
       Resolved
         (Stats.Make (VNumber (Num.of_Z (fold_left Z.min ks 999)))
                     (VNumber (Num.of_Z (fold_left Z.max ks 0)))
                     (Num.of_Z (Z.of_nat (List.length ks)))
                     (VNumber (Num.of_Z (total ks)))
                     (Num.toFixed (Num.div (Num.of_Z (total ks))
                                           (Num.of_Z (Z.of_nat (List.length ks)))) 2))).
Proof.
  intros REDIS_EXPIRE REDIS_PREFIX cheerio_parse W h w w' calls results ks
         Hall Hks Hpos Hsum Hlen.
  rewrite (run_getStats _ _ _ h w w' calls _ Hall), stats_of_results, Hks.
  unfold Totals.initial.
  rewrite (count_all_integers ks 999 0 0 0) by (try assumption; lia).
  reflexivity.
Qed.

Lemma getStats_on_integer_counts_witness :
  let results :=
    [Sample.result_of [3]; Sample.result_of []; Sample.result_of [10; 1];
     Sample.result_of []; Sample.result_of []]%Z in
  run (Mem.over Sample.unavailable) (getStats (Some "60") None Sample.load)
      (Sample.cached_results results)
  = (Sample.cached_results results,
     map (fun d => CallGet (key_of None (Division.slug d))) schools,
     Resolved (Stats.Make (VNumber (Num.of_Z 1)) (VNumber (Num.of_Z 10))
                          (Num.of_Z 3) (VNumber (Num.of_Z 14))
                          (Num.toFixed (Num.div (Num.of_Z 14) (Num.of_Z 3)) 2))).
Proof.
  intro results.
  apply (getStats_on_integer_counts (Some "60") None Sample.load Mem.state
           (Mem.over Sample.unavailable) (Sample.cached_results results)
           (Sample.cached_results results) _ results [3; 10; 1]%Z).
  - vm_compute. reflexivity.
  - reflexivity.
  - repeat constructor; lia.
  - vm_compute. reflexivity.
  - vm_compute. reflexivity.
Defined.








(** X18. A student count that is NaN (a cell that is not a number) makes
    numStudents NaN and the average the string NaN; the test is still
    counted, and min and max are those of the other counts. *)
Theorem getStats_with_a_count_that_is_not_a_number :
  forall (REDIS_EXPIRE REDIS_PREFIX : option string)
         (cheerio_parse : value -> settled (list node)) (W : Type) (h : world W)
         (w w' : W) (calls : list call) (results : list DivisionResult.t),
    run h (lookups REDIS_EXPIRE REDIS_PREFIX cheerio_parse) w
    = (w', calls, Resolved (map DivisionResult.to_value results)) ->
    (exists x, In x (students_of results) /\ Num.is_nan x = true) ->
    Z.of_nat (List.length (students_of results)) < 2 ^ 53 ->
    exists st,
      run h (getStats REDIS_EXPIRE REDIS_PREFIX cheerio_parse) w = (w', calls, Resolved st)
      /\ Stats.numStudents st = VNumber Num.nan
      /\ Stats.averageStudents st = "NaN"%string
      /\ Stats.numTests st = Num.of_Z (Z.of_nat (List.length (students_of results)))
      /\ Stats.min st
         = VNumber (Totals.min (Totals.count_all (filter is_number (students_of results))
                                                 Totals.initial))
      /\ Stats.max st
         = VNumber (Totals.max (Totals.count_all (filter is_number (students_of results))
                                                 Totals.initial)).
Proof.
  intros REDIS_EXPIRE REDIS_PREFIX cheerio_parse W h w w' calls results Hall Hnan Hlen.
  eexists. split.
  - rewrite (run_getStats _ _ _ h w w' calls _ Hall), stats_of_results. reflexivity.
  - set (xs := students_of results) in *.
    destruct (count_all_skips_nan xs Totals.initial Totals.initial eq_refl eq_refl)
      as [Hmin Hmax].
    unfold Totals.to_stats.
    cbn [Stats.numStudents Stats.averageStudents Stats.numTests Stats.min Stats.max].
    rewrite (count_all_nan_sum xs Totals.initial) by (right; exact Hnan).
    rewrite (count_all_numTests xs Totals.initial 0) by (try reflexivity; lia).
    rewrite Hmin, Hmax. repeat split.
Qed.

Lemma getStats_with_a_count_that_is_not_a_number_witness :
  let world := Sample.store_down Sample.serving in
  let results :=
    map (fun d => DivisionResult.Make (Division.name d)
                    (map Fragment.department Sample.sections)) schools in
  (exists x, In x (students_of results) /\ Num.is_nan x = true)
  /\ exists st,
       snd (run world (getStats (Some "60") None Sample.load) tt) = Resolved st
       /\ Stats.numStudents st = VNumber Num.nan
       /\ Stats.averageStudents st = "NaN"
       /\ Stats.numTests st = Num.of_Z 15
       /\ Stats.min st = VNumber (Num.of_Z 7)
       /\ Stats.max st = VNumber (Num.of_Z 42).
Proof.
  intros world results.
  assert (Hnan : exists x, In x (students_of results) /\ Num.is_nan x = true).
  { exists Num.nan. split; [|reflexivity]. vm_compute. tauto. }
  split; [exact Hnan|].
  assert (Hall : run world (lookups (Some "60") None Sample.load) tt
                 = (tt, snd (fst (run world (lookups (Some "60") None Sample.load) tt)),
                    Resolved (map DivisionResult.to_value results))).
  { assert (H : snd (run world (lookups (Some "60") None Sample.load) tt)
                = Resolved (map DivisionResult.to_value results))
      by (vm_compute; reflexivity).
    destruct (run world (lookups (Some "60") None Sample.load) tt) as [[[] c] r].
    cbn [snd fst] in *. rewrite H. reflexivity. }
  destruct (getStats_with_a_count_that_is_not_a_number (Some "60") None Sample.load
              unit world tt tt _ results Hall Hnan)
    as (st & Hrun & Hsum & Havg & Htests & Hmin & Hmax).
  { vm_compute. reflexivity. }
  exists st. rewrite Hrun. cbn [snd].
  split; [reflexivity|]. split; [exact Hsum|]. split; [exact Havg|].
  split; [exact Htests|]. split; [rewrite Hmin | rewrite Hmax]; vm_compute; reflexivity.
Defined.

(** X19. When the values looked up are results as the cache gives them
    back, with positive integer counts and [null] where a count was NaN:
    a missing count adds nothing to numStudents, is counted in numTests
    and makes min [null]; max is the greatest of 0 and the counts that are
    there. *)
Theorem getStats_on_cached_results_with_missing_counts :
  forall (REDIS_EXPIRE REDIS_PREFIX : option string)
         (cheerio_parse : value -> settled (list node)) (W : Type) (h : world W)
         (w w' : W) (calls : list call) (results : list DivisionResult.t)
         (ks : list (option Z)),
    run h (lookups REDIS_EXPIRE REDIS_PREFIX cheerio_parse) w
    = (w', calls, Resolved (map Cached.result results)) ->
    students_of results = map count_of ks ->
    Forall (fun k => 1 <= k) (known ks) ->
    total (known ks) < 2 ^ 53 ->
    Z.of_nat (List.length ks) < 2 ^ 53 ->
    run h (getStats REDIS_EXPIRE REDIS_PREFIX cheerio_parse) w
    = (w', calls,
       Resolved
         (Stats.Make (min_value (existsb is_missing ks) (fold_left Z.min (known ks) 999))
                     (VNumber (Num.of_Z (fold_left Z.max (known ks) 0)))
                     (Num.of_Z (Z.of_nat (List.length ks)))
                     (VNumber (Num.of_Z (total (known ks))))
                     (Num.toFixed (Num.div (Num.of_Z (total (known ks)))
                                           (Num.of_Z (Z.of_nat (List.length ks)))) 2))).
Proof.
  intros REDIS_EXPIRE REDIS_PREFIX cheerio_parse W h w w' calls results ks
         Hall Hks Hpos Hsum Hlen.
  rewrite (run_getStats _ _ _ h w w' calls _ Hall).
  unfold stats_of. rewrite each_cached_results, Hks.
  change initial with (Counters (min_value false 999) (VNumber (Num.of_Z 0))
                                (Num.of_Z 0) (VNumber (Num.of_Z 0))).
  rewrite (tally_cached_counts ks false 999 0 0 0) by (try assumption; lia).
  reflexivity.
Qed.

Lemma getStats_on_cached_results_with_missing_counts_witness :
  let results :=
    [DivisionResult.Make "Svið" (map Fragment.department Sample.sections);
     Sample.result_of []; Sample.result_of []; Sample.result_of []; Sample.result_of []] in
  students_of results = map count_of [Some 42; Some 7; None]
  /\ run (Mem.over Sample.unavailable) (getStats (Some "60") None Sample.load)
         (Sample.cached_results results)
     = (Sample.cached_results results,
        map (fun d => CallGet (key_of None (Division.slug d))) schools,
        Resolved (Stats.Make VNull (VNumber (Num.of_Z 42)) (Num.of_Z 3)
                             (VNumber (Num.of_Z 49))
                             (Num.toFixed (Num.div (Num.of_Z 49) (Num.of_Z 3)) 2))).
Proof.
  intro results.
  assert (Hks : students_of results = map count_of [Some 42; Some 7; None])
    by (vm_compute; reflexivity).
  split; [exact Hks|].
  apply (getStats_on_cached_results_with_missing_counts (Some "60") None Sample.load
           Mem.state (Mem.over Sample.unavailable) (Sample.cached_results results)
           (Sample.cached_results results) _ results [Some 42; Some 7; None]).
  - vm_compute. reflexivity.
  - exact Hks.
  - repeat constructor; lia.
  - vm_compute. reflexivity.
  - vm_compute. reflexivity.
Defined.
